(** * Intake service: shallow embedding of [src/server.js] (upsert revision)

    The development follows the last revision in [src/server.js] (the one
    with [getOrCreateClassIdByName], [findSubmissionByEmail], the Brevo
    to SMTP fallback in [sendEmails] and the upsert in the [/upload]
    route).

    Modelling conventions.
    - A JavaScript string is the [string] of its UTF-8 bytes (well-formed
      text).  [trim] removes every white-space character of ECMA-262 in
      that encoding; the store's [LOWER] folds the letters A to Z.
    - [process.env] is the record [ProcessEnv]; a variable that may be
      absent is an [option string], and JavaScript truthiness of such a
      value is [truthy].
    - The Airtable base is a finite map from table ids to row lists.  Ids
      come from a counter ([mkid]).
    - A [filterByFormula] appears in two forms.  In the first sections the
      lookups take the formula as the store has read it, the syntax tree
      [Formula] of the three shapes the route builds, and [eval_formula]
      is the store's side of the contract.  Module [Text] holds the
      lookups and the route as the source writes them: the formula is the
      text of the template literal with its value escaped, and the store
      reads that text with [parse_formula].  The lookups by address and
      by class name are the same in both forms when the value holds no
      backslash; a value that ends in a backslash gives a text the store
      cannot read.
    - A call on a table the base does not hold, or on an absent row id, is
      the store's failure: the promise rejects ([Throw]).
    - The handler runs in the monad [M]: explicit state (base, id counter,
      trace of external calls, console) with exceptions; state written
      before a throw stays written.
    - What the outside world answers during one request (clock, uuid,
      whether the object store accepts the put) is the record [World]; what
      the mail transports answer is the record [Transports].
    - [upload_endpoint] is the whole of [POST /upload]: multer's
      [upload.single] with its file filter and size limit, then the
      handler. *)

From Stdlib Require Import String Ascii List Bool Arith NArith Lia.
From stdpp Require Import base option list strings gmap pretty.

Local Open Scope string_scope.
Local Open Scope list_scope.
Local Open Scope nat_scope.

(** * Definitions *)

(** ** Strings *)

Module Str.

(** The white space that [String.prototype.trim] removes (WhiteSpace and
    LineTerminator of ECMA-262), as it appears in UTF-8.  One byte: TAB,
    LF, VT, FF, CR, SPACE. *)
Definition is_ws (c : ascii) : bool :=
  let n := nat_of_ascii c in
  ((9 <=? n) && (n <=? 13)) || (n =? 32).

(** Two bytes: U+00A0. *)
Definition is_ws2 (a b : ascii) : bool :=
  (nat_of_ascii a =? 194) && (nat_of_ascii b =? 160).

(** Three bytes: U+1680, U+2000 to U+200A, U+2028, U+2029, U+202F, U+205F,
    U+3000 and U+FEFF. *)
Definition is_ws3 (a b c : ascii) : bool :=
  let x := nat_of_ascii a in
  let y := nat_of_ascii b in
  let z := nat_of_ascii c in
  ((x =? 225) && (y =? 154) && (z =? 128))
  || ((x =? 226) && (y =? 128)
      && (((128 <=? z) && (z <=? 138)) || (z =? 168) || (z =? 169) || (z =? 175)))
  || ((x =? 226) && (y =? 129) && (z =? 159))
  || ((x =? 227) && (y =? 128) && (z =? 128))
  || ((x =? 239) && (y =? 187) && (z =? 191)).

(** Removes every white-space character at the front of [s]; [w2] and [w3]
    recognise the characters of two and three bytes. *)
Fixpoint strip (w2 : ascii -> ascii -> bool) (w3 : ascii -> ascii -> ascii -> bool)
    (s : string) : string :=
  match s with
  | EmptyString => EmptyString
  | String a r =>
      if is_ws a then strip w2 w3 r
      else
        match r with
        | String b r2 =>
            if w2 a b then strip w2 w3 r2
            else
              match r2 with
              | String c r3 => if w3 a b c then strip w2 w3 r3 else s
              | EmptyString => s
              end
        | EmptyString => s
        end
  end.

Fixpoint rev (s : string) : string :=
  match s with
  | EmptyString => EmptyString
  | String c r => rev r +:+ String c EmptyString
  end.

Definition trim_start (s : string) : string := strip is_ws2 is_ws3 s.

(** The same from the end: the text is read backwards, and so are the
    bytes of each character. *)
Definition trim_end (s : string) : string :=
  rev (strip (fun a b => is_ws2 b a) (fun a b c => is_ws3 c b a) (rev s)).

Definition trim (s : string) : string := trim_end (trim_start s).

Definition lower_ascii (c : ascii) : ascii :=
  let n := nat_of_ascii c in
  if (65 <=? n) && (n <=? 90) then ascii_of_nat (n + 32) else c.

(** Airtable's [LOWER()]. *)
Fixpoint LOWER (s : string) : string :=
  match s with
  | EmptyString => EmptyString
  | String c r => String (lower_ascii c) (LOWER r)
  end.

Definition is_digit (c : ascii) : bool :=
  let n := nat_of_ascii c in (48 <=? n) && (n <=? 57).
Definition is_upper (c : ascii) : bool :=
  let n := nat_of_ascii c in (65 <=? n) && (n <=? 90).
Definition is_lower (c : ascii) : bool :=
  let n := nat_of_ascii c in (97 <=? n) && (n <=? 122).
(** [[0-9A-Za-z]] *)
Definition is_alnum (c : ascii) : bool :=
  is_digit c || is_upper c || is_lower c.

Fixpoint all_chars (p : ascii -> bool) (s : string) : bool :=
  match s with
  | EmptyString => true
  | String c r => p c && all_chars p r
  end.

Definition nonempty (s : string) : bool :=
  match s with EmptyString => false | _ => true end.

(** [s.split(',')]: always at least one piece. *)
Fixpoint split_comma (s : string) : list string :=
  match s with
  | EmptyString => [EmptyString]
  | String c r =>
      if Ascii.eqb c ","%char then EmptyString :: split_comma r
      else match split_comma r with
           | p :: ps => String c p :: ps
           | [] => [String c EmptyString]
           end
  end.

(** [a.join(sep)] *)
Fixpoint join (sep : string) (l : list string) : string :=
  match l with
  | [] => EmptyString
  | [x] => x
  | x :: r => x +:+ sep +:+ join sep r
  end.

(** [FIND(needle, hay) > 0]: [needle] occurs in [hay]. *)
Fixpoint occurs (needle hay : string) : bool :=
  String.prefix needle hay ||
  match hay with
  | EmptyString => false
  | String _ r => occurs needle r
  end.

(** [[\w.\-()+ ]]: the characters [safeName] keeps. *)
Definition is_safe (c : ascii) : bool :=
  is_alnum c
  || existsb (Ascii.eqb c) ["_"; "."; "-"; "("; ")"; "+"; " "]%char.

(** [name.replace(/[^\w.\-()+ ]+/g, '_')]: every maximal run of other
    characters becomes one underscore.  [in_run] tells that the previous
    character was already replaced. *)
Fixpoint safeName_from (in_run : bool) (s : string) : string :=
  match s with
  | EmptyString => EmptyString
  | String c r =>
      if is_safe c then String c (safeName_from false r)
      else if in_run then safeName_from true r
      else String "_" (safeName_from true r)
  end.

(** [s.replace(/\n/g, '<br>')] *)
Fixpoint nl_to_br (s : string) : string :=
  match s with
  | EmptyString => EmptyString
  | String c r =>
      if Ascii.eqb c (ascii_of_nat 10) then "<br>" +:+ nl_to_br r
      else String c (nl_to_br r)
  end.

End Str.

Definition safeName (name : string) : string := Str.safeName_from false name.

(** [/^rec[0-9A-Za-z]{14}$/.test(s)] *)
Definition is_record_id (s : string) : bool :=
  match s with
  | String "r" (String "e" (String "c" rest)) =>
      (String.length rest =? 14) && Str.all_chars Str.is_alnum rest
  | _ => false
  end.

(** A request field or environment variable that may be [undefined]. *)
Definition truthy (o : option string) : bool :=
  match o with Some s => Str.nonempty s | None => false end.

(** [o || d] on an optional string. *)
Definition or_else (o : option string) (d : string) : string :=
  match o with
  | Some s => if Str.nonempty s then s else d
  | None => d
  end.

(** ** Cell values and rows *)

(** An element of an array-valued cell: a plain string (linked-record id,
    multi-select choice, address) or an attachment object. *)
Inductive Item :=
| IStr (s : string)
| IFile (url filename : string).

Inductive Value :=
| VStr (s : string)
| VArr (l : list Item).

Definition item_toString (i : Item) : string :=
  match i with
  | IStr s => s
  | IFile _ _ => "[object Object]"
  end.

(** [v.toString()] *)
Definition toString (v : Value) : string :=
  match v with
  | VStr s => s
  | VArr l => Str.join "," (map item_toString l)
  end.

(** JavaScript truthiness of what [rec.get(field)] returns. *)
Definition value_truthy (o : option Value) : bool :=
  match o with
  | Some (VStr s) => Str.nonempty s
  | Some (VArr _) => true
  | None => false
  end.

Record ATRecord := { rec_id : string; rec_fields : gmap string Value }.

(** [rec.get(field)] *)
Definition get (r : ATRecord) (field : string) : option Value :=
  rec_fields r !! field.

(** ** Formulas *)

Inductive Formula :=
| LowerEq (field value : string)      (* LOWER({field}) = LOWER("value") *)
| FieldEq (field value : string)      (* {field} = "value" *)
| FindInJoin (needle field : string). (* FIND("needle", ARRAYJOIN({field})) > 0 *)

(** How the formula engine reads a cell as text: an empty cell is the
    empty text, an array is its elements joined. *)
Definition cell_text (o : option Value) : string :=
  match o with
  | None => ""
  | Some (VStr s) => s
  | Some (VArr l) => Str.join ", " (map item_toString l)
  end.

(** [ARRAYJOIN({field})] with the default separator. *)
Definition cell_arrayjoin (o : option Value) : string :=
  match o with
  | None => ""
  | Some (VStr s) => s
  | Some (VArr l) => Str.join "," (map item_toString l)
  end.

Definition eval_formula (f : Formula) (r : ATRecord) : bool :=
  match f with
  | LowerEq field value =>
      String.eqb (Str.LOWER (cell_text (get r field))) (Str.LOWER value)
  | FieldEq field value => String.eqb (cell_text (get r field)) value
  | FindInJoin needle field => Str.occurs needle (cell_arrayjoin (get r field))
  end.

(** ** The store, the trace and the monad *)

Inductive Error := Err (msg : string).

(** External calls, newest first.  Store events are recorded when the call
    succeeded; transport events when the call was issued. *)
Inductive Event :=
| StoreRead (table : string)
| StoreCreate (table : string) (r : ATRecord)
| StoreUpdate (table id : string) (patch : gmap string Value)
| SpacesPut (key : string)
| BrevoPost (to : list string)
| SmtpSend (to : string).

Record State := {
  base : gmap string (list ATRecord);
  next_id : nat;
  trace : list Event;
  console : list string
}.

Inductive Result (A : Type) :=
| Ok (a : A)
| Throw (e : Error).
Arguments Ok {A} a.
Arguments Throw {A} e.

Definition M (A : Type) : Type := State -> Result A * State.

Definition ret {A} (a : A) : M A := fun st => (Ok a, st).

Definition bind {A B} (m : M A) (k : A -> M B) : M B :=
  fun st =>
    match m st with
    | (Ok a, st') => k a st'
    | (Throw e, st') => (Throw e, st')
    end.

Definition throw {A} (e : Error) : M A := fun st => (Throw e, st).

(** [try { m } catch (e) { h e }] *)
Definition try_catch {A} (m : M A) (h : Error -> M A) : M A :=
  fun st =>
    match m st with
    | (Ok a, st') => (Ok a, st')
    | (Throw e, st') => h e st'
    end.

Notation "'let*' x ':=' m 'in' k" := (bind m (fun x => k))
  (at level 10, x name, m at level 100, k at level 200).
Notation "'let*' ' p ':=' m 'in' k" := (bind m (fun x => match x with p => k end))
  (at level 10, p pattern, m at level 100, k at level 200).
Notation "m ';;' k" := (bind m (fun _ => k))
  (at level 100, k at level 200, right associativity).

Definition emit (ev : Event) : M unit :=
  fun st =>
    (Ok tt, {| base := base st; next_id := next_id st;
               trace := ev :: trace st; console := console st |}).

Definition console_error (msg : string) : M unit :=
  fun st =>
    (Ok tt, {| base := base st; next_id := next_id st;
               trace := trace st; console := msg :: console st |}).

(** [Promise.all(ms)]: every promise is started; the result rejects with
    the first rejection in list order (the promises are taken to settle in
    the order in which they were started). *)
Fixpoint promise_all {A} (ms : list (M A)) : M (list A) :=
  match ms with
  | [] => ret []
  | m :: rest =>
      fun st =>
        let '(r, st1) := m st in
        let '(rs, st2) := promise_all rest st1 in
        (match r, rs with
         | Throw e, _ => Throw e
         | Ok _, Throw e => Throw e
         | Ok a, Ok l => Ok (a :: l)
         end, st2)
  end.

(** The store's id supply: the id handed out at counter value [n].  Real ids
    are [rec] and fourteen characters; what matters here is that the supply
    never hands out the same id twice. *)
Definition mkid (n : nat) : string := "rec" +:+ pretty n.

Definition with_base (st : State) (b : gmap string (list ATRecord)) (n : nat)
    (ev : Event) : State :=
  {| base := b; next_id := n; trace := ev :: trace st; console := console st |}.

(** [baseAT(table).select({ filterByFormula }).all()], for a formula the
    store has read. *)
Definition select (table : string) (f : Formula) : M (list ATRecord) :=
  fun st =>
    match base st !! table with
    | Some rows =>
        (Ok (List.filter (eval_formula f) rows),
         with_base st (base st) (next_id st) (StoreRead table))
    | None => (Throw (Err "NOT_FOUND"), st)
    end.

Definition has_id (id : string) (r : ATRecord) : bool := String.eqb (rec_id r) id.

(** [baseAT(table).find(id)] *)
Definition find (table id : string) : M ATRecord :=
  fun st =>
    match base st !! table with
    | Some rows =>
        match List.find (has_id id) rows with
        | Some r => (Ok r, with_base st (base st) (next_id st) (StoreRead table))
        | None => (Throw (Err "NOT_FOUND"), st)
        end
    | None => (Throw (Err "NOT_FOUND"), st)
    end.

(** [baseAT(table).create([{ fields }])], returning [created[0]]. *)
Definition create (table : string) (fields : gmap string Value) : M ATRecord :=
  fun st =>
    match base st !! table with
    | Some rows =>
        let r := {| rec_id := mkid (next_id st); rec_fields := fields |} in
        (Ok r, with_base st (<[table := rows ++ [r]]> (base st))
                 (S (next_id st)) (StoreCreate table r))
    | None => (Throw (Err "NOT_FOUND"), st)
    end.

(** An update is a patch: the cells named in [patch] are replaced, the
    others stay. *)
Definition patch_row (id : string) (patch : gmap string Value) (r : ATRecord)
    : ATRecord :=
  if has_id id r
  then {| rec_id := rec_id r; rec_fields := patch ∪ rec_fields r |}
  else r.

(** [baseAT(table).update([{ id, fields }])] *)
Definition update (table id : string) (patch : gmap string Value) : M ATRecord :=
  fun st =>
    match base st !! table with
    | Some rows =>
        match List.find (has_id id) rows with
        | Some r =>
            (Ok (patch_row id patch r),
             with_base st (<[table := map (patch_row id patch) rows]> (base st))
               (next_id st) (StoreUpdate table id patch))
        | None => (Throw (Err "ROW_DOES_NOT_EXIST"), st)
        end
    | None => (Throw (Err "NOT_FOUND"), st)
    end.

(** ** Environment *)

Record ProcessEnv := {
  AIRTABLE_APPS_TABLE : string;
  AIRTABLE_APPLICANTS_TABLE_ID : option string;
  AIRTABLE_UNDERWRITERS_TABLE_ID : option string;
  AIRTABLE_CLASSES_TABLE_ID : option string;
  env_APPLICANTS_EMAIL_FIELD : option string;
  env_APPLICANTS_CLASS_FIELD : option string;
  env_UW_CLASS_FIELD : option string;
  env_UW_EMAIL_FIELD : option string;
  BREVO_API_KEY : option string;
  SMTP_USER : option string;
  SMTP_PASS : option string;
  SMTP_FROM : string;
  OVERRIDE_NOTIFICATION_EMAIL : option string;
  SPACES_ENDPOINT : string;
  SPACES_BUCKET : string;
  APPS_EMAIL_FIELD : option string;
  APPS_CLASS_FIELD : option string;
  APPS_NOTES_FIELD : option string;
  APPS_FILE_FIELD : option string
}.

(** Destructuring defaults apply to absent variables only. *)
Definition APPLICANTS_EMAIL_FIELD (env : ProcessEnv) : string :=
  default "Email" (env_APPLICANTS_EMAIL_FIELD env).
Definition APPLICANTS_CLASS_FIELD (env : ProcessEnv) : string :=
  default "Class of Business" (env_APPLICANTS_CLASS_FIELD env).
Definition UW_CLASS_FIELD (env : ProcessEnv) : string :=
  default "class" (env_UW_CLASS_FIELD env).
Definition UW_EMAIL_FIELD (env : ProcessEnv) : string :=
  default "submission email" (env_UW_EMAIL_FIELD env).

Definition CLASS_TABLE_ID (env : ProcessEnv) : string :=
  or_else (AIRTABLE_CLASSES_TABLE_ID env) "tblQ2rxDjTA1yMtxQ".

Definition EMAIL_F (env : ProcessEnv) : string := or_else (APPS_EMAIL_FIELD env) "Email".
Definition CLASS_F (env : ProcessEnv) : string :=
  or_else (APPS_CLASS_FIELD env) "Class of Business".
Definition NOTES_F (env : ProcessEnv) : string :=
  or_else (APPS_NOTES_FIELD env) "More Information".
Definition FILE_F (env : ProcessEnv) : string :=
  or_else (APPS_FILE_FIELD env) "Uploaded File".

Record Transporter := { auth_user : option string; auth_pass : option string }.

(** The SMTP client is built at start-up, and only when no API key is set. *)
Definition transporter (env : ProcessEnv) : option Transporter :=
  if negb (truthy (BREVO_API_KEY env))
  then Some {| auth_user := SMTP_USER env; auth_pass := SMTP_PASS env |}
  else None.

(** What the collaborators answer during one request. *)
Inductive BrevoAnswer :=
| BrevoResponse (status : nat) (text : string)
| BrevoNetworkError (msg : string).

(** The upload side: the clock, the uuid source and the object store. *)
Record World := {
  yyyymm : string;
  randomUUID : string;
  spaces_accepts : bool
}.

(** The mail side: what the HTTP API answers to the one POST, and which
    recipients the SMTP relay accepts. *)
Record Transports := {
  brevo_answer : BrevoAnswer;
  smtp_accepts : string -> bool
}.

(** ** Airtable helpers

    The lookups with the formula as the store has read it; module [Text]
    below has them with the formula as text. *)

Definition airtableFindOne (tableId : string) (formula : Formula)
    : M (option ATRecord) :=
  let* page := select tableId formula in
  ret (head page).

Definition airtableFindAll (tableId : string) (formula : Formula)
    : M (list ATRecord) :=
  select tableId formula.

Definition getOrCreateClassIdByName (env : ProcessEnv) (name : string)
    : M (option string) :=
  if negb (Str.nonempty name) then ret None
  else
    let f := LowerEq "Name" name in
    let* existing := airtableFindOne (CLASS_TABLE_ID env) f in
    match existing with
    | Some r => ret (Some (rec_id r))
    | None =>
        let* created := create (CLASS_TABLE_ID env) {[ "Name" := VStr name ]} in
        ret (Some (rec_id created))
    end.

Definition findSubmissionByEmail (tableId emailField email : string)
    : M (option ATRecord) :=
  airtableFindOne tableId (LowerEq emailField email).

(** ** Email helpers *)

Definition response_ok (status : nat) : bool := (200 <=? status) && (status <=? 299).

Definition sendEmailBrevo (env : ProcessEnv) (w : Transports)
    (toList : list string) (subject html : string) : M unit :=
  if negb (truthy (BREVO_API_KEY env)) then throw (Err "BREVO_API_KEY missing")
  else
    emit (BrevoPost toList) ;;
    match brevo_answer w with
    | BrevoNetworkError msg => throw (Err msg)
    | BrevoResponse status text =>
        if response_ok status then ret tt
        else throw (Err ("Brevo API failed: " +:+ pretty status +:+ " " +:+ text))
    end.

(** [transporter.sendMail({ from, to, subject, html })] *)
Definition sendMail (w : Transports) (t : Transporter) (from to subject html : string)
    : M unit :=
  emit (SmtpSend to) ;;
  if smtp_accepts w to then ret tt
  else throw (Err ("SMTP delivery failed: " +:+ to)).

(** [list.map(to => transporter.sendMail(...))] wrapped in [Promise.all];
    with no client the first call is a [TypeError]. *)
Definition smtpAll (env : ProcessEnv) (w : Transports) (t : option Transporter)
    (list : list string) (subject html : string) : M unit :=
  match t, list with
  | None, _ :: _ => throw (Err "TypeError: Cannot read properties of null")
  | None, [] => ret tt
  | Some t, _ =>
      promise_all (map (fun to => sendMail w t (SMTP_FROM env) to subject html) list) ;;
      ret tt
  end.

Definition error_message (e : Error) : string := match e with Err m => m end.

Definition sendEmails (env : ProcessEnv) (w : Transports)
    (list : list string) (subject html : string) : M unit :=
  if truthy (BREVO_API_KEY env) then
    try_catch (sendEmailBrevo env w list subject html)
      (fun err =>
         console_error ("Brevo send failed, will try SMTP if available: "
                        +:+ error_message err) ;;
         match transporter env with
         | Some t => smtpAll env w (Some t) list subject html
         | None => throw err
         end)
  else smtpAll env w (transporter env) list subject html.

(** ** The [/upload] route *)

Record File := { originalname : string; mimetype : string }.

Record Request := {
  classOfBusiness : option string;
  moreInfo : option string;
  submitterEmail : option string;
  file : option File
}.

Record Response := { status : nat; body : string }.

(** [// resolve class]: the form value, else the applicants table. *)
Definition resolveClass (env : ProcessEnv) (classOfBusiness : option string)
    (submitterEmail : string) : M string :=
  let effectiveClass := Str.trim (or_else classOfBusiness "") in
  if negb (Str.nonempty effectiveClass) && truthy (AIRTABLE_APPLICANTS_TABLE_ID env)
  then
    let* rec := airtableFindOne (or_else (AIRTABLE_APPLICANTS_TABLE_ID env) "")
                  (LowerEq (APPLICANTS_EMAIL_FIELD env) submitterEmail) in
    match rec with
    | Some r =>
        let v := get r (APPLICANTS_CLASS_FIELD env) in
        if value_truthy v
        then ret (Str.trim (from_option toString "" v))
        else ret effectiveClass
    | None => ret effectiveClass
    end
  else ret effectiveClass.

(** [// upload to Spaces]: the key, the put, the public URL. *)
Definition uploadToSpaces (env : ProcessEnv) (w : World) (f : File) : M string :=
  let key := "applications/" +:+ yyyymm w +:+ "/" +:+ randomUUID w +:+ "-"
             +:+ safeName (originalname f) in
  if spaces_accepts w then
    emit (SpacesPut key) ;;
    ret ("https://" +:+ SPACES_BUCKET env +:+ "." +:+ SPACES_ENDPOINT env +:+ "/" +:+ key)
  else throw (Err "S3ServiceException").

(** The [try] block that reads the display name of the linked class; a
    failed read is logged and the trimmed text is kept. *)
Definition fetchClassName (env : ProcessEnv) (classRecordId classDisplayName : string)
    : M string :=
  try_catch
    (let* clsRec := find (CLASS_TABLE_ID env) classRecordId in
     let n := get clsRec "Name" in
     if value_truthy n then ret (from_option toString "" n)
     else ret classDisplayName)
    (fun e =>
       console_error ("Could not fetch class name " +:+ error_message e) ;;
       ret classDisplayName).

(** [// resolve linked class]: returns
    [(classLink, classRecordId, classDisplayName)]. *)
Definition resolveLinkedClass (env : ProcessEnv) (effectiveClass : string)
    : M (list string * option string * string) :=
  let classDisplayName := Str.trim effectiveClass in
  if Str.nonempty effectiveClass then
    let* classRecordId :=
      (if is_record_id effectiveClass then ret (Some effectiveClass)
       else getOrCreateClassIdByName env effectiveClass) in
    if truthy classRecordId then
      let id := or_else classRecordId "" in
      let* classDisplayName' := fetchClassName env id classDisplayName in
      ret ([id], classRecordId, classDisplayName')
    else ret ([], classRecordId, classDisplayName)
  else ret ([], None, classDisplayName).

(** [Array.isArray(existing.get(FILE_F)) ? existing.get(FILE_F) : []] *)
Definition existingFiles (env : ProcessEnv) (existing : ATRecord) : list Item :=
  match get existing (FILE_F env) with
  | Some (VArr l) => l
  | _ => []
  end.

(** [(existing.get(NOTES_F) || '').toString()] *)
Definition existingNotes (env : ProcessEnv) (existing : ATRecord) : string :=
  let v := get existing (NOTES_F env) in
  if value_truthy v then from_option toString "" v else "".

Definition nl : string := String (ascii_of_nat 10) EmptyString.
Definition dq : string := String (ascii_of_nat 34) EmptyString.

Definition mergedNotes (existingNotes : string) (moreInfo : option string) : string :=
  if Str.nonempty existingNotes && truthy moreInfo
  then existingNotes +:+ nl +:+ or_else moreInfo ""
  else or_else moreInfo (or_else (Some existingNotes) "").

(** The object literal [{ [EMAIL_F]: .., [NOTES_F]: .., [FILE_F]: .. }]
    followed by the conditional assignment of [CLASS_F]; a later key wins. *)
Definition updateFields (env : ProcessEnv) (submitterEmail : string)
    (mergedNotes : string) (newFiles : list Item) (classLink : list string)
    : gmap string Value :=
  let o := <[FILE_F env := VArr newFiles]>
             (<[NOTES_F env := VStr mergedNotes]>
                (<[EMAIL_F env := VStr submitterEmail]> ∅)) in
  match classLink with
  | [] => o
  | _ :: _ => <[CLASS_F env := VArr (map IStr classLink)]> o
  end.

Definition createFields (env : ProcessEnv) (submitterEmail : string)
    (moreInfo : option string) (classLink : list string) (att : Item)
    : gmap string Value :=
  <[FILE_F env := VArr [att]]>
    (<[NOTES_F env := VStr (or_else moreInfo "")]>
       (<[CLASS_F env := VArr (map IStr classLink)]>
          (<[EMAIL_F env := VStr submitterEmail]> ∅))).

(** [// UPSERT by email]: returns [existing]. *)
Definition upsertByEmail (env : ProcessEnv) (submitterEmail : string)
    (moreInfo : option string) (classLink : list string)
    (publicUrl originalname : string) : M (option ATRecord) :=
  let* existing :=
    findSubmissionByEmail (AIRTABLE_APPS_TABLE env) (EMAIL_F env) submitterEmail in
  match existing with
  | Some ex =>
      let newFiles := existingFiles env ex ++ [IFile publicUrl originalname] in
      let merged := mergedNotes (existingNotes env ex) moreInfo in
      update (AIRTABLE_APPS_TABLE env) (rec_id ex)
        (updateFields env submitterEmail merged newFiles classLink) ;;
      ret existing
  | None =>
      create (AIRTABLE_APPS_TABLE env)
        (createFields env submitterEmail moreInfo classLink
           (IFile publicUrl originalname)) ;;
      ret existing
  end.

(** The submission reconciler: class link resolution, then the upsert. *)
Definition reconcile (env : ProcessEnv) (submitterEmail effectiveClass : string)
    (moreInfo : option string) (publicUrl originalname : string)
    : M (option ATRecord * option string * string) :=
  let* '(classLink, classRecordId, classDisplayName) :=
    resolveLinkedClass env effectiveClass in
  let* existing :=
    upsertByEmail env submitterEmail moreInfo classLink publicUrl originalname in
  ret (existing, classRecordId, classDisplayName).

(** [[...new Set(l)]]: first occurrences, in order. *)
Fixpoint uniq_from (seen : list string) (l : list string) : list string :=
  match l with
  | [] => []
  | x :: r =>
      if existsb (String.eqb x) seen then uniq_from seen r
      else x :: uniq_from (x :: seen) r
  end.

(** The [flatMap] callback of the underwriter match, followed by
    [e.toString()] on every element. *)
Definition recipientCell (env : ProcessEnv) (r : ATRecord) : list string :=
  match get r (UW_EMAIL_FIELD env) with
  | None => []
  | Some (VArr l) => map item_toString l
  | Some (VStr s) => if Str.nonempty s then Str.split_comma s else []
  end.

(** [// underwriter match] *)
Definition underwriterMatch (env : ProcessEnv) (classRecordId : option string)
    (classDisplayName : string) : M (list string) :=
  if (truthy classRecordId || Str.nonempty classDisplayName)
     && truthy (AIRTABLE_UNDERWRITERS_TABLE_ID env)
  then
    let uw := or_else (AIRTABLE_UNDERWRITERS_TABLE_ID env) "" in
    let* byLink :=
      (if truthy classRecordId
       then airtableFindAll uw (FindInJoin (or_else classRecordId "") (UW_CLASS_FIELD env))
       else ret []) in
    let* uwRecords :=
      (match byLink with
       | [] => if Str.nonempty classDisplayName
               then airtableFindAll uw (FieldEq (UW_CLASS_FIELD env) classDisplayName)
               else ret byLink
       | _ :: _ => ret byLink
       end) in
    let emails := flat_map (recipientCell env) uwRecords in
    ret (uniq_from [] (List.filter Str.nonempty (map Str.trim emails)))
  else ret [].

Definition notifyList (env : ProcessEnv) (matchedRecipients : list string)
    : list string :=
  if truthy (OVERRIDE_NOTIFICATION_EMAIL env)
  then [or_else (OVERRIDE_NOTIFICATION_EMAIL env) ""]
  else matchedRecipients.

(** Recipient resolution: directory match, then the override. *)
Definition resolveRecipients (env : ProcessEnv) (classRecordId : option string)
    (classDisplayName : string) : M (list string) :=
  let* matchedRecipients := underwriterMatch env classRecordId classDisplayName in
  ret (notifyList env matchedRecipients).

Definition mailSubject (classDisplayName : string) : string :=
  "New Application: " +:+ or_else (Some classDisplayName) "Unspecified Class".

Definition mailHtml (submitterEmail classDisplayName : string)
    (moreInfo : option string) (publicUrl originalname : string) : string :=
  "<p><strong>New application received</strong></p>" +:+ nl
  +:+ "<p><strong>Submitted By:</strong> " +:+ submitterEmail +:+ "</p>" +:+ nl
  +:+ "<p><strong>Class of Business:</strong> "
  +:+ or_else (Some classDisplayName) "(not provided)" +:+ "</p>" +:+ nl
  +:+ "<p><strong>More Information:</strong><br>"
  +:+ Str.nl_to_br (or_else moreInfo "None provided") +:+ "</p>" +:+ nl
  +:+ "<p><strong>File:</strong> <a href=" +:+ dq +:+ publicUrl +:+ dq +:+ ">"
  +:+ safeName originalname +:+ "</a></p>".

(** Everything the route does before it notifies: class resolution, the
    upload, the reconciliation and the recipient list. *)
Definition processSubmission (env : ProcessEnv) (w : World)
    (submitterEmail : string) (classOfBusiness moreInfo : option string) (f : File)
    : M (option ATRecord * list string * string * string) :=
  let* effectiveClass := resolveClass env classOfBusiness submitterEmail in
  let* publicUrl := uploadToSpaces env w f in
  let* '(existing, classRecordId, classDisplayName) :=
    reconcile env submitterEmail effectiveClass moreInfo publicUrl (originalname f) in
  let* notify := resolveRecipients env classRecordId classDisplayName in
  ret (existing, notify,
       mailSubject classDisplayName,
       mailHtml submitterEmail classDisplayName moreInfo publicUrl (originalname f)).

(** The notification and the success response. *)
Definition notifyAndRespond (env : ProcessEnv) (w : Transports)
    (existing : option ATRecord) (notify : list string) (subject html : string)
    : M Response :=
  try_catch
    (match notify with
     | [] => ret tt
     | _ :: _ => sendEmails env w notify subject html
     end)
    (fun e => console_error ("Notification error " +:+ error_message e)) ;;
  ret {| status := 200;
         body := match existing with
                 | Some _ => "Existing record updated and notifications sent."
                 | None => "New record created and notifications sent."
                 end |}.

(** [app.post('/upload', ...)], after multer has parsed the form. *)
Definition upload_route (env : ProcessEnv) (w : World) (tp : Transports)
    (req : Request) : M Response :=
  try_catch
    (if negb (truthy (submitterEmail req))
     then ret {| status := 400; body := "Missing submitter email" |}
     else
       match file req with
       | None => ret {| status := 400; body := "No file uploaded" |}
       | Some f =>
           let* '(existing, notify, subject, html) :=
             processSubmission env w (or_else (submitterEmail req) "")
               (classOfBusiness req) (moreInfo req) f in
           notifyAndRespond env tp existing notify subject html
       end)
    (fun err =>
       console_error (error_message err) ;;
       ret {| status := 500; body := "Server error" |}).

(** ** Observations on the trace *)

(** The promise resolved. *)
Definition completed {A} (r : Result A) : bool :=
  match r with Ok _ => true | Throw _ => false end.

Definition is_smtp (ev : Event) : bool :=
  match ev with SmtpSend _ => true | _ => false end.

Definition is_write (ev : Event) : bool :=
  match ev with StoreCreate _ _ | StoreUpdate _ _ _ => true | _ => false end.

Definition is_write_on (table : string) (ev : Event) : bool :=
  match ev with
  | StoreCreate t _ | StoreUpdate t _ _ => String.eqb t table
  | _ => false
  end.

(** Number of messages handed to the SMTP client. *)
Definition smtp_attempts (tr : list Event) : nat := length (List.filter is_smtp tr).

(** Number of store writes (create or update). *)
Definition writes (tr : list Event) : nat := length (List.filter is_write tr).

Definition writes_on (table : string) (tr : list Event) : nat :=
  length (List.filter (is_write_on table) tr).

(** What the Brevo call throws, if it throws. *)
Definition brevo_failure (w : Transports) : option Error :=
  match brevo_answer w with
  | BrevoNetworkError msg => Some (Err msg)
  | BrevoResponse status text =>
      if response_ok status then None
      else Some (Err ("Brevo API failed: " +:+ pretty status +:+ " " +:+ text))
  end.

(** ** Notions used in the statements *)

(** The row test behind [LOWER({field}) = LOWER(value)]. *)
Definition matches_ci (field value : string) : ATRecord -> bool :=
  eval_formula (LowerEq field value).

(** The classification an applicants row supplies: its class cell trimmed,
    or nothing when the cell is empty. *)
Definition directory_class (env : ProcessEnv) (r : ATRecord) : string :=
  let v := get r (APPLICANTS_CLASS_FIELD env) in
  if value_truthy v then Str.trim (from_option toString "" v) else "".

(** The writes in a trace, newest first. *)
Definition write_log (tr : list Event) : list Event := List.filter is_write tr.

(** The four column names of the submissions table are pairwise distinct
    (they are with the defaults). *)
Definition distinct_fields (env : ProcessEnv) : Prop :=
  EMAIL_F env <> CLASS_F env /\ EMAIL_F env <> NOTES_F env /\
  EMAIL_F env <> FILE_F env /\ CLASS_F env <> NOTES_F env /\
  CLASS_F env <> FILE_F env /\ NOTES_F env <> FILE_F env.

(** The patch a merge sends. *)
Definition merge_patch (env : ProcessEnv) (email : string)
    (moreInfo : option string) (link : list string) (url fn : string)
    (ex : ATRecord) : gmap string Value :=
  updateFields env email (mergedNotes (existingNotes env ex) moreInfo)
    (existingFiles env ex ++ [IFile url fn]) link.

(** The row a create adds. *)
Definition created_row (env : ProcessEnv) (email : string)
    (moreInfo : option string) (link : list string) (url fn : string)
    (n : nat) : ATRecord :=
  {| rec_id := mkid n;
     rec_fields := createFields env email moreInfo link (IFile url fn) |}.

(** The class table is consulted for a text that is not already an id. *)
Definition class_lookup_needed (c : string) : bool :=
  Str.nonempty c && negb (is_record_id c).

(** The reconciliation of classification [c] adds a class row. *)
Definition creates_class (env : ProcessEnv) (c : string) (st : State) : bool :=
  class_lookup_needed c &&
  match base st !! CLASS_TABLE_ID env with
  | Some crows =>
      match List.find (matches_ci "Name" c) crows with
      | Some _ => false
      | None => true
      end
  | None => false
  end.

Definition class_writes (env : ProcessEnv) (c : string) (st : State) : list Event :=
  if creates_class env c st
  then [StoreCreate (CLASS_TABLE_ID env)
          {| rec_id := mkid (next_id st); rec_fields := {[ "Name" := VStr c ]} |}]
  else [].

(** No id the supply will hand out from [n] on is in use. *)
Definition fresh_ids (n : nat) (rows : list ATRecord) : Prop :=
  forall k, n <= k -> ~ In (mkid k) (map rec_id rows).

(** The identity of a row as the store compares it. *)
Definition identity_ci (env : ProcessEnv) (r : ATRecord) : string :=
  Str.LOWER (cell_text (get r (EMAIL_F env))).

Definition identity_key (env : ProcessEnv) (r : ATRecord) : string * string :=
  (rec_id r, identity_ci env r).

(** The attachments stored for an identity before a reconciliation. *)
Definition prior_files (env : ProcessEnv) (email : string) (rows : list ATRecord)
    : list Item :=
  match List.find (matches_ci (EMAIL_F env) email) rows with
  | Some ex => existingFiles env ex
  | None => []
  end.

Record Submission := {
  sub_email : string;
  sub_class : string;
  sub_notes : option string;
  sub_url : string;
  sub_filename : string
}.

Definition reconcile_one (env : ProcessEnv) (s : Submission) (st : State) : State :=
  snd (reconcile env (sub_email s) (sub_class s) (sub_notes s) (sub_url s)
         (sub_filename s) st).

Fixpoint reconcile_all (env : ProcessEnv) (subs : list Submission) (st : State)
    : State :=
  match subs with
  | [] => st
  | s :: rest => reconcile_all env rest (reconcile_one env s st)
  end.

Definition success_body (existing : option ATRecord) : string :=
  match existing with
  | Some _ => "Existing record updated and notifications sent."
  | None => "New record created and notifications sent."
  end.

(** ** A small deployment used by the examples *)

Module Demo.

(** The defaults everywhere; the API key, the override address and the
    underwriters table id are the parameters. *)
Definition make (key override uw : option string) : ProcessEnv := {|
  AIRTABLE_APPS_TABLE := "Submissions";
  AIRTABLE_APPLICANTS_TABLE_ID := Some "tblApplicants";
  AIRTABLE_UNDERWRITERS_TABLE_ID := uw;
  AIRTABLE_CLASSES_TABLE_ID := None;
  env_APPLICANTS_EMAIL_FIELD := None;
  env_APPLICANTS_CLASS_FIELD := None;
  env_UW_CLASS_FIELD := None;
  env_UW_EMAIL_FIELD := None;
  BREVO_API_KEY := key;
  SMTP_USER := Some "user";
  SMTP_PASS := Some "pass";
  SMTP_FROM := "intake@ins.com";
  OVERRIDE_NOTIFICATION_EMAIL := override;
  SPACES_ENDPOINT := "nyc3.digitaloceanspaces.com";
  SPACES_BUCKET := "intake";
  APPS_EMAIL_FIELD := None;
  APPS_CLASS_FIELD := None;
  APPS_NOTES_FIELD := None;
  APPS_FILE_FIELD := None
|}.

Definition env : ProcessEnv := make None None (Some "tblUnderwriters").

Definition row (id : string) (cells : list (string * Value)) : ATRecord :=
  {| rec_id := id; rec_fields := list_to_map cells |}.

Definition classes : list ATRecord :=
  [ row "recFire" [("Name", VStr "Fire")] ].

Definition applicants : list ATRecord :=
  [ row "recAppl1" [("Email", VStr "b@x.com"); ("Class of Business", VStr " Fire ")] ].

Definition underwriters : list ATRecord :=
  [ row "recUw1" [("class", VStr "Fire");
                  ("submission email",
                   VArr [IStr "u1@ins.com"; IStr "u2@ins.com,u3@ins.com"])];
    row "recUw2" [("class", VStr "Fire");
                  ("submission email", VStr " u1@ins.com , u4@ins.com,")] ].

Definition submissions : list ATRecord :=
  [ row "recSub1" [("Email", VStr "a@x.com");
                   ("Class of Business", VArr [IStr "recFire"]);
                   ("More Information", VStr "first");
                   ("Uploaded File", VArr [IFile "https://files/report.pdf" "report.pdf"])] ].

Definition tables (subs : list ATRecord) : gmap string (list ATRecord) :=
  list_to_map [ ("Submissions", subs);
                ("tblApplicants", applicants);
                ("tblUnderwriters", underwriters);
                ("tblQ2rxDjTA1yMtxQ", classes) ].

Definition st0 (subs : list ATRecord) : State :=
  {| base := tables subs; next_id := 0; trace := []; console := [] |}.

(** A store whose one submission carries the first id of the supply; the
    supply continues at 1. *)
Definition numbered : list ATRecord :=
  [ row (mkid 0) [("Email", VStr "a@x.com");
                  ("Class of Business", VArr [IStr "recFire"]);
                  ("More Information", VStr "first");
                  ("Uploaded File", VArr [IFile "https://files/report.pdf" "report.pdf"])] ].

Definition st1 : State :=
  {| base := tables numbered; next_id := 1; trace := []; console := [] |}.

Definition world : World :=
  {| yyyymm := "2024-05"; randomUUID := "uuid-1"; spaces_accepts := true |}.

Definition transports (brevo : BrevoAnswer) (smtp : string -> bool) : Transports :=
  {| brevo_answer := brevo; smtp_accepts := smtp |}.

Definition pdf (name : string) : File :=
  {| originalname := name; mimetype := "application/pdf" |}.

Definition request (email cls notes : option string) (name : string) : Request :=
  {| classOfBusiness := cls; moreInfo := notes; submitterEmail := email;
     file := Some (pdf name) |}.

End Demo.

(** ** Scenarios *)

Module FallbackCase.

(** Both transports are configured: an API key, and SMTP credentials. *)
Definition env : ProcessEnv := Demo.make (Some "xkeysib-1") None (Some "tblUnderwriters").

(** The API answers 500; the SMTP relay would accept anything. *)
Definition answers : Transports :=
  Demo.transports (BrevoResponse 500 "boom") (fun _ => true).

Definition st : State := Demo.st0 Demo.submissions.

Definition run : Result unit * State :=
  sendEmails env answers ["u1@ins.com"] "subject" "html" st.

End FallbackCase.

Module LookupFailureCase.

(** The underwriters table id names a table the base does not hold. *)
Definition env : ProcessEnv := Demo.make None None (Some "tblGone").

Definition st : State := Demo.st0 Demo.submissions.

Definition req : Request :=
  Demo.request (Some "new@x.com") (Some "Fire") None "report.pdf".

Definition run : Result Response * State :=
  upload_route env Demo.world
    (Demo.transports (BrevoResponse 200 "") (fun _ => true)) req st.

Definition uploaded (tr : list Event) : bool :=
  existsb (fun ev => match ev with SpacesPut _ => true | _ => false end) tr.

End LookupFailureCase.

Module SendFailureCase.

(** No API key; the SMTP relay refuses every recipient. *)
Definition tp : Transports :=
  Demo.transports (BrevoNetworkError "ECONNRESET") (fun _ => false).

Definition req : Request :=
  Demo.request (Some "A@X.com") (Some "Fire") (Some "second") "addendum.pdf".

Definition st : State := Demo.st0 Demo.submissions.

Definition before : Result (option ATRecord * list string * string * string) * State :=
  processSubmission Demo.env Demo.world "A@X.com" (Some "Fire") (Some "second")
    (Demo.pdf "addendum.pdf") st.

Definition result_of {A} (d : A) (r : Result A) : A :=
  match r with Ok a => a | Throw _ => d end.

Definition outcome : option ATRecord * list string * string * string :=
  result_of (None, [], "", "") (fst before).

End SendFailureCase.

Module TwoUploads.

(** Empty submissions table; a first upload for a@x.com with classification
    Marine, then a second one for the same address with no classification. *)
Definition tp : Transports := Demo.transports (BrevoResponse 200 "") (fun _ => true).

Definition first : Result Response * State :=
  upload_route Demo.env Demo.world tp
    (Demo.request (Some "a@x.com") (Some "Marine") (Some "n1") "report.pdf")
    (Demo.st0 []).

Definition second : Result Response * State :=
  upload_route Demo.env Demo.world tp
    (Demo.request (Some "a@x.com") None (Some "n2") "addendum.pdf")
    (snd first).

Definition cells (field : string) (s : State) : list (option Value) :=
  map (fun r => get r field) (default [] (base s !! "Submissions")).

End TwoUploads.

(** ** Formula text *)

Definition quote_char : ascii := ascii_of_nat 34.
Definition backslash_char : ascii := ascii_of_nat 92.

(** [s.replace(/"/g, '\\"')]: a backslash is put before every double
    quote; nothing else changes. *)
Fixpoint escapeForAirtableFormulaDoubleQuotes (s : string) : string :=
  match s with
  | EmptyString => EmptyString
  | String c r =>
      if Ascii.eqb c quote_char
      then String backslash_char
             (String quote_char (escapeForAirtableFormulaDoubleQuotes r))
      else String c (escapeForAirtableFormulaDoubleQuotes r)
  end.

(** The template literals the route passes as [filterByFormula]. *)
Definition formula_text (f : Formula) : string :=
  match f with
  | LowerEq field value =>
      "LOWER({" +:+ field +:+ "}) = LOWER(" +:+ dq
      +:+ escapeForAirtableFormulaDoubleQuotes value +:+ dq +:+ ")"
  | FieldEq field value =>
      "{" +:+ field +:+ "}=" +:+ dq
      +:+ escapeForAirtableFormulaDoubleQuotes value +:+ dq
  | FindInJoin needle field =>
      "FIND(" +:+ dq +:+ needle +:+ dq +:+ ",ARRAYJOIN({" +:+ field +:+ "}))>0"
  end.

(** Every double quote of [s] directly follows a backslash; [prev] tells
    whether the character before [s] is a backslash. *)
Fixpoint quotes_guarded (prev : bool) (s : string) : bool :=
  match s with
  | EmptyString => true
  | String c r =>
      (if Ascii.eqb c quote_char then prev else true)
      && quotes_guarded (Ascii.eqb c backslash_char) r
  end.

Fixpoint count_char (a : ascii) (s : string) : nat :=
  match s with
  | EmptyString => 0
  | String c r => (if Ascii.eqb c a then 1 else 0) + count_char a r
  end.

(** ** The store's reading of a formula text

    The route hands [filterByFormula] to the store as text, and the store
    reads it.  Of the formula language this is the part the route writes:
    the three shapes below.  A field reference runs from an opening brace
    to the next closing brace.  A string literal runs from a double quote
    to the next double quote that no backslash precedes; inside it a
    backslash makes the character after it part of the text, which is the
    convention [escapeForAirtableFormulaDoubleQuotes] writes for.  A text
    that cannot be read this way is refused. *)

Fixpoint strip_prefix (p s : string) : option string :=
  match p with
  | EmptyString => Some s
  | String a p' =>
      match s with
      | String b s' => if Ascii.eqb a b then strip_prefix p' s' else None
      | EmptyString => None
      end
  end.

Fixpoint skip_blanks (s : string) : string :=
  match s with
  | String c r => if Ascii.eqb c " " then skip_blanks r else s
  | EmptyString => EmptyString
  end.

(** The name of a field reference and what follows the closing brace;
    [s] starts after the opening brace. *)
Fixpoint read_field (s : string) : option (string * string) :=
  match s with
  | EmptyString => None
  | String c r =>
      if Ascii.eqb c "}" then Some (EmptyString, r)
      else
        match read_field r with
        | Some (name, rest) => Some (String c name, rest)
        | None => None
        end
  end.

(** The text of a string literal and what follows the closing quote; [s]
    starts after the opening quote. *)
Fixpoint read_literal_body (s : string) : option (string * string) :=
  match s with
  | EmptyString => None
  | String c r =>
      if Ascii.eqb c quote_char then Some (EmptyString, r)
      else if Ascii.eqb c backslash_char then
        match r with
        | String d r' =>
            match read_literal_body r' with
            | Some (text, rest) => Some (String d text, rest)
            | None => None
            end
        | EmptyString => None
        end
      else
        match read_literal_body r with
        | Some (text, rest) => Some (String c text, rest)
        | None => None
        end
  end.

Definition read_literal (s : string) : option (string * string) :=
  match s with
  | String c r => if Ascii.eqb c quote_char then read_literal_body r else None
  | EmptyString => None
  end.

(** [LOWER({field}) = LOWER("value")] *)
Definition parse_lower_eq (s : string) : option Formula :=
  match strip_prefix "LOWER({" s with
  | Some s1 =>
      match read_field s1 with
      | Some (field, s2) =>
          match strip_prefix ") = LOWER(" s2 with
          | Some s3 =>
              match read_literal s3 with
              | Some (value, s4) =>
                  if String.eqb s4 ")" then Some (LowerEq field value) else None
              | None => None
              end
          | None => None
          end
      | None => None
      end
  | None => None
  end.

(** [FIND("needle",ARRAYJOIN({field}))>0] *)
Definition parse_find (s : string) : option Formula :=
  match strip_prefix "FIND(" s with
  | Some s1 =>
      match read_literal s1 with
      | Some (needle, s2) =>
          match strip_prefix ",ARRAYJOIN({" s2 with
          | Some s3 =>
              match read_field s3 with
              | Some (field, s4) =>
                  if String.eqb s4 "))>0" then Some (FindInJoin needle field) else None
              | None => None
              end
          | None => None
          end
      | None => None
      end
  | None => None
  end.

(** [{field}="value"], with or without blanks around the equals sign. *)
Definition parse_field_eq (s : string) : option Formula :=
  match strip_prefix "{" s with
  | Some s1 =>
      match read_field s1 with
      | Some (field, s2) =>
          match strip_prefix "=" (skip_blanks s2) with
          | Some s3 =>
              match read_literal (skip_blanks s3) with
              | Some (value, s4) =>
                  if String.eqb s4 "" then Some (FieldEq field value) else None
              | None => None
              end
          | None => None
          end
      | None => None
      end
  | None => None
  end.

Definition parse_formula (s : string) : option Formula :=
  match parse_lower_eq s with
  | Some f => Some f
  | None =>
      match parse_find s with
      | Some f => Some f
      | None => parse_field_eq s
      end
  end.

(** A value the route can put between double quotes as it does: it holds
    no backslash. *)
Definition plain_value (s : string) : Prop := count_char backslash_char s = 0.

(** A field name the route can put between braces: it holds no closing
    brace. *)
Definition plain_field (s : string) : Prop := count_char "}" s = 0.

(** A formula whose text the store reads back as it was meant: the field
    name can stand between braces and the value between quotes.  The needle
    of [FIND] is put between the quotes as it is, so it must hold no
    double quote either. *)
Definition readable (f : Formula) : Prop :=
  match f with
  | LowerEq field value | FieldEq field value => plain_field field /\ plain_value value
  | FindInJoin needle field =>
      plain_field field /\ plain_value needle /\ count_char quote_char needle = 0
  end.

(** A string of one backslash. *)
Definition bs : string := String backslash_char EmptyString.

(** ** The route as it is written: lookups by formula text

    The helpers of the sections above take the formula as the store has
    read it.  Module [Text] holds the same helpers and the same route as
    [src/server.js] writes them: the formula is the text of the template
    literal, the value goes through
    [escapeForAirtableFormulaDoubleQuotes], and the store reads the text
    with [parse_formula].  The lookups by address and by class name are
    the same in both forms when the value holds no backslash (section
    [Agreement] below). *)

Module Text.

(** [baseAT(table).select({ filterByFormula }).all()] *)
Definition select (table filterByFormula : string) : M (list ATRecord) :=
  match parse_formula filterByFormula with
  | Some f => select table f
  | None => throw (Err "INVALID_FILTER_BY_FORMULA")
  end.

Definition airtableFindOne (tableId formula : string) : M (option ATRecord) :=
  let* page := select tableId formula in
  ret (head page).

Definition airtableFindAll (tableId formula : string) : M (list ATRecord) :=
  select tableId formula.

Definition getOrCreateClassIdByName (env : ProcessEnv) (name : string)
    : M (option string) :=
  if negb (Str.nonempty name) then ret None
  else
    let f := "LOWER({Name}) = LOWER(" +:+ dq
             +:+ escapeForAirtableFormulaDoubleQuotes name +:+ dq +:+ ")" in
    let* existing := airtableFindOne (CLASS_TABLE_ID env) f in
    match existing with
    | Some r => ret (Some (rec_id r))
    | None =>
        let* created := create (CLASS_TABLE_ID env) {[ "Name" := VStr name ]} in
        ret (Some (rec_id created))
    end.

Definition findSubmissionByEmail (tableId emailField email : string)
    : M (option ATRecord) :=
  let formula := "LOWER({" +:+ emailField +:+ "}) = LOWER(" +:+ dq
                 +:+ escapeForAirtableFormulaDoubleQuotes email +:+ dq +:+ ")" in
  airtableFindOne tableId formula.

(** [// resolve class] *)
Definition resolveClass (env : ProcessEnv) (classOfBusiness : option string)
    (submitterEmail : string) : M string :=
  let effectiveClass := Str.trim (or_else classOfBusiness "") in
  if negb (Str.nonempty effectiveClass) && truthy (AIRTABLE_APPLICANTS_TABLE_ID env)
  then
    let* rec := airtableFindOne (or_else (AIRTABLE_APPLICANTS_TABLE_ID env) "")
                  ("LOWER({" +:+ APPLICANTS_EMAIL_FIELD env +:+ "}) = LOWER(" +:+ dq
                   +:+ escapeForAirtableFormulaDoubleQuotes submitterEmail
                   +:+ dq +:+ ")") in
    match rec with
    | Some r =>
        let v := get r (APPLICANTS_CLASS_FIELD env) in
        if value_truthy v
        then ret (Str.trim (from_option toString "" v))
        else ret effectiveClass
    | None => ret effectiveClass
    end
  else ret effectiveClass.

(** [// resolve linked class] *)
Definition resolveLinkedClass (env : ProcessEnv) (effectiveClass : string)
    : M (list string * option string * string) :=
  let classDisplayName := Str.trim effectiveClass in
  if Str.nonempty effectiveClass then
    let* classRecordId :=
      (if is_record_id effectiveClass then ret (Some effectiveClass)
       else getOrCreateClassIdByName env effectiveClass) in
    if truthy classRecordId then
      let id := or_else classRecordId "" in
      let* classDisplayName' := fetchClassName env id classDisplayName in
      ret ([id], classRecordId, classDisplayName')
    else ret ([], classRecordId, classDisplayName)
  else ret ([], None, classDisplayName).

(** [// UPSERT by email] *)
Definition upsertByEmail (env : ProcessEnv) (submitterEmail : string)
    (moreInfo : option string) (classLink : list string)
    (publicUrl originalname : string) : M (option ATRecord) :=
  let* existing :=
    findSubmissionByEmail (AIRTABLE_APPS_TABLE env) (EMAIL_F env) submitterEmail in
  match existing with
  | Some ex =>
      let newFiles := existingFiles env ex ++ [IFile publicUrl originalname] in
      let merged := mergedNotes (existingNotes env ex) moreInfo in
      update (AIRTABLE_APPS_TABLE env) (rec_id ex)
        (updateFields env submitterEmail merged newFiles classLink) ;;
      ret existing
  | None =>
      create (AIRTABLE_APPS_TABLE env)
        (createFields env submitterEmail moreInfo classLink
           (IFile publicUrl originalname)) ;;
      ret existing
  end.

(** The submission reconciler. *)
Definition reconcile (env : ProcessEnv) (submitterEmail effectiveClass : string)
    (moreInfo : option string) (publicUrl originalname : string)
    : M (option ATRecord * option string * string) :=
  let* '(classLink, classRecordId, classDisplayName) :=
    resolveLinkedClass env effectiveClass in
  let* existing :=
    upsertByEmail env submitterEmail moreInfo classLink publicUrl originalname in
  ret (existing, classRecordId, classDisplayName).

(** [// underwriter match] *)
Definition underwriterMatch (env : ProcessEnv) (classRecordId : option string)
    (classDisplayName : string) : M (list string) :=
  if (truthy classRecordId || Str.nonempty classDisplayName)
     && truthy (AIRTABLE_UNDERWRITERS_TABLE_ID env)
  then
    let uw := or_else (AIRTABLE_UNDERWRITERS_TABLE_ID env) "" in
    let* byLink :=
      (if truthy classRecordId
       then airtableFindAll uw
              ("FIND(" +:+ dq +:+ or_else classRecordId "" +:+ dq
               +:+ ",ARRAYJOIN({" +:+ UW_CLASS_FIELD env +:+ "}))>0")
       else ret []) in
    let* uwRecords :=
      (match byLink with
       | [] => if Str.nonempty classDisplayName
               then airtableFindAll uw
                      ("{" +:+ UW_CLASS_FIELD env +:+ "}=" +:+ dq
                       +:+ escapeForAirtableFormulaDoubleQuotes classDisplayName
                       +:+ dq)
               else ret byLink
       | _ :: _ => ret byLink
       end) in
    let emails := flat_map (recipientCell env) uwRecords in
    ret (uniq_from [] (List.filter Str.nonempty (map Str.trim emails)))
  else ret [].

Definition resolveRecipients (env : ProcessEnv) (classRecordId : option string)
    (classDisplayName : string) : M (list string) :=
  let* matchedRecipients := underwriterMatch env classRecordId classDisplayName in
  ret (notifyList env matchedRecipients).

Definition processSubmission (env : ProcessEnv) (w : World)
    (submitterEmail : string) (classOfBusiness moreInfo : option string) (f : File)
    : M (option ATRecord * list string * string * string) :=
  let* effectiveClass := resolveClass env classOfBusiness submitterEmail in
  let* publicUrl := uploadToSpaces env w f in
  let* '(existing, classRecordId, classDisplayName) :=
    reconcile env submitterEmail effectiveClass moreInfo publicUrl (originalname f) in
  let* notify := resolveRecipients env classRecordId classDisplayName in
  ret (existing, notify,
       mailSubject classDisplayName,
       mailHtml submitterEmail classDisplayName moreInfo publicUrl (originalname f)).

(** The handler of [app.post('/upload', ...)]. *)
Definition upload_route (env : ProcessEnv) (w : World) (tp : Transports)
    (req : Request) : M Response :=
  try_catch
    (if negb (truthy (submitterEmail req))
     then ret {| status := 400; body := "Missing submitter email" |}
     else
       match file req with
       | None => ret {| status := 400; body := "No file uploaded" |}
       | Some f =>
           let* '(existing, notify, subject, html) :=
             processSubmission env w (or_else (submitterEmail req) "")
               (classOfBusiness req) (moreInfo req) f in
           notifyAndRespond env tp existing notify subject html
       end)
    (fun err =>
       console_error (error_message err) ;;
       ret {| status := 500; body := "Server error" |}).

Definition reconcile_one (env : ProcessEnv) (s : Submission) (st : State) : State :=
  snd (reconcile env (sub_email s) (sub_class s) (sub_notes s) (sub_url s)
         (sub_filename s) st).

Fixpoint reconcile_all (env : ProcessEnv) (subs : list Submission) (st : State)
    : State :=
  match subs with
  | [] => st
  | s :: rest => reconcile_all env rest (reconcile_one env s st)
  end.

End Text.

(** The identity and the classification of a submission hold no
    backslash. *)
Definition plain_submission (s : Submission) : Prop :=
  plain_value (sub_email s) /\ plain_value (sub_class s).

(** ** The endpoint: multer in front of the handler

    [upload.single('applicationFile')] runs before the handler.  It hands
    the text fields on as [req.body] and the file part, if there is one,
    as [req.file]; a part that [fileFilter] refuses or that is larger than
    [limits.fileSize] ends the request with an error passed to Express,
    whose error handler answers with status 500. *)

(** The file part of the form as it arrives: what multer is told about the
    file, and its size in bytes.  A form has at most one file part, under
    the name [applicationFile]. *)
Record Part := { part_file : File; part_size : N }.

Record Form := {
  form_classOfBusiness : option string;
  form_moreInfo : option string;
  form_submitterEmail : option string;
  applicationFile : option Part
}.

Definition fileFilter (f : File) : bool :=
  existsb (String.eqb (mimetype f))
    [ "application/pdf";
      "application/vnd.openxmlformats-officedocument.wordprocessingml.document";
      "application/msword" ].

(** [20 * 1024 * 1024] *)
Definition fileSize : N := 20971520.

Definition upload_single (form : Form) : Result Request :=
  match applicationFile form with
  | Some p =>
      if negb (fileFilter (part_file p))
      then Throw (Err "Only PDF/DOC/DOCX files are allowed")
      else if (fileSize <? part_size p)%N
      then Throw (Err "File too large")
      else Ok {| classOfBusiness := form_classOfBusiness form;
                 moreInfo := form_moreInfo form;
                 submitterEmail := form_submitterEmail form;
                 file := Some (part_file p) |}
  | None =>
      Ok {| classOfBusiness := form_classOfBusiness form;
            moreInfo := form_moreInfo form;
            submitterEmail := form_submitterEmail form;
            file := None |}
  end.

(** What the client gets: the handler's response, or the page of Express's
    error handler for an error passed to [next]. *)
Inductive Answer :=
| Handled (r : Response)
| ExpressError (e : Error).


(** [POST /upload] *)
Definition upload_endpoint (env : ProcessEnv) (w : World) (tp : Transports)
    (form : Form) : M Answer :=
  match upload_single form with
  | Throw e => ret (ExpressError e)
  | Ok req =>
      let* r := Text.upload_route env w tp req in
      ret (Handled r)
  end.

(** ** Scenarios for the route as written *)

Module NewClassCase.

Definition st : State := Demo.st0 Demo.submissions.

(** A first submission whose classification names no existing class. *)
Definition run : Result (option ATRecord * option string * string) * State :=
  Text.reconcile Demo.env "new@x.com" "Marine" None "https://files/report.pdf"
    "report.pdf" st.

End NewClassCase.

Module CaseChangeCase.

(** The store holds one submission filed as a@x.com. *)
Definition st : State := Demo.st0 Demo.submissions.

(** The same person submits again and types the address in capitals. *)
Definition run : Result (option ATRecord * option string * string) * State :=
  Text.reconcile Demo.env "A@X.COM" "" None "https://files/addendum.pdf"
    "addendum.pdf" st.

Definition identity_cells (s : State) : list (option Value) :=
  map (fun r => get r "Email") (default [] (base s !! "Submissions")).

End CaseChangeCase.

Module BackslashCase.

(** An address and a class name that end in a backslash. *)
Definition address : string := "a@x.com" +:+ bs.



(** Empty submissions table. *)
Definition st : State := Demo.st0 [].

(** Two submissions for the address, with different files. *)
Definition first : Result (option ATRecord * option string * string) * State :=
  Text.reconcile Demo.env address "" None "https://files/report.pdf" "report.pdf" st.

Definition second : Result (option ATRecord * option string * string) * State :=
  Text.reconcile Demo.env address "" None "https://files/addendum.pdf" "addendum.pdf"
    (snd first).

(** The address has no explicit classification and no directory entry. *)
Definition resolved : Result string * State :=
  Text.resolveClass Demo.env None address st.


End BackslashCase.

Module BlankClassCase.

(** U+00A0 and U+FEFF in UTF-8. *)
Definition nbsp : string := String (ascii_of_nat 194) (String (ascii_of_nat 160) "").
Definition bom : string :=
  String (ascii_of_nat 239) (String (ascii_of_nat 187) (String (ascii_of_nat 191) "")).

(** A classification field that holds white space only. *)
Definition typed : string := nbsp +:+ " " +:+ bom.

(** The submitter b@x.com is in the applicants table with class Fire. *)
Definition resolved : Result string * State :=
  Text.resolveClass Demo.env (Some typed) "b@x.com" (Demo.st0 Demo.submissions).

End BlankClassCase.

Module RefusedFileCase.

(** A picture is sent as the application file. *)
Definition form : Form :=
  {| form_classOfBusiness := Some "Fire"; form_moreInfo := None;
     form_submitterEmail := Some "a@x.com";
     applicationFile :=
       Some {| part_file := {| originalname := "scan.png"; mimetype := "image/png" |};
               part_size := 1024 |} |}.

Definition run : Result Answer * State :=
  upload_endpoint Demo.env Demo.world
    (Demo.transports (BrevoResponse 200 "") (fun _ => true)) form
    (Demo.st0 Demo.submissions).

End RefusedFileCase.

(** ** Further notions used in the statements *)

(** The text begins with a white-space character. *)
Definition heads (w2 : ascii -> ascii -> bool) (w3 : ascii -> ascii -> ascii -> bool)
    (s : string) : bool :=
  match s with
  | String a r =>
      Str.is_ws a ||
      match r with
      | String b r2 =>
          w2 a b || match r2 with String c _ => w3 a b c | EmptyString => false end
      | EmptyString => false
      end
  | EmptyString => false
  end.

Definition is_mail (ev : Event) : bool :=
  match ev with BrevoPost _ | SmtpSend _ => true | _ => false end.

Definition is_put (ev : Event) : bool :=
  match ev with SpacesPut _ => true | _ => false end.


(** The transport calls in a trace, newest first. *)
Definition mail_log (tr : list Event) : list Event := List.filter is_mail tr.


Definition puts (tr : list Event) : nat := length (List.filter is_put tr).

(** A computation adds no event of kind [p] to the trace. *)
Definition keeps (p : Event -> bool) {A} (m : M A) : Prop :=
  forall st, List.filter p (trace (snd (m st))) = List.filter p (trace st).

(** The normal form of a recipient list: trimmed, without empty entries,
    first occurrences only. *)
Definition clean_address (a : string) : Prop :=
  Str.nonempty a = true /\ Str.trim a = a.

(** Row [r'] is row [r] with attachments and notes extended at the end. *)
Definition grows (env : ProcessEnv) (r r' : ATRecord) : Prop :=
  rec_id r' = rec_id r /\
  (exists more, existingFiles env r' = existingFiles env r ++ more) /\
  (exists more, existingNotes env r' = existingNotes env r +:+ more).

(** The address list built from a set of underwriter rows. *)
Definition recipients_of (env : ProcessEnv) (rows : list ATRecord) : list string :=
  uniq_from [] (List.filter Str.nonempty
                  (map Str.trim (flat_map (recipientCell env) rows))).


(** ** The first revision of the route

    [src/server.js] opens with the earliest revision of the service (its
    lines 1 to 232).  Its [/upload] route resolves the class and uploads
    the file as the last revision does, then always creates a submission
    row with fixed column names, matches underwriters by class text only,
    and sends through the SMTP client, which this revision always builds;
    a failed send is not caught separately. *)

Definition transporter_v1 (env : ProcessEnv) : Transporter :=
  {| auth_user := SMTP_USER env; auth_pass := SMTP_PASS env |}.

(** The [fields] object of the create. *)
Definition createFields_v1 (submitterEmail effectiveClass : string)
    (moreInfo : option string) (att : Item) : gmap string Value :=
  <["Uploaded File" := VArr [att]]>
    (<["More Information" := VStr (or_else moreInfo "")]>
       (<["Class of Business" := VStr (or_else (Some effectiveClass) "")]>
          (<["Submitted By Email" := VStr (or_else (Some submitterEmail) "")]> ∅))).

(** [// Find underwriter recipients by class (Table B)] *)
Definition underwriterMatch_v1 (env : ProcessEnv) (effectiveClass : string)
    : M (list string) :=
  if Str.nonempty effectiveClass && truthy (AIRTABLE_UNDERWRITERS_TABLE_ID env)
  then
    let* uwRecords :=
      airtableFindAll (or_else (AIRTABLE_UNDERWRITERS_TABLE_ID env) "")
        (FieldEq (UW_CLASS_FIELD env) effectiveClass) in
    let emails := flat_map (recipientCell env) uwRecords in
    ret (uniq_from [] (List.filter Str.nonempty (map Str.trim emails)))
  else ret [].

Definition mailHtml_v1 (submitterEmail effectiveClass : string)
    (moreInfo : option string) (publicUrl originalname : string) : string :=
  nl +:+ "      <p><strong>New application received</strong></p>" +:+ nl
  +:+ "      <p><strong>Submitted By:</strong> " +:+ submitterEmail +:+ "</p>" +:+ nl
  +:+ "      <p><strong>Class of Business:</strong> "
  +:+ or_else (Some effectiveClass) "(not provided)" +:+ "</p>" +:+ nl
  +:+ "      <p><strong>More Information:</strong><br>"
  +:+ Str.nl_to_br (or_else moreInfo "None provided") +:+ "</p>" +:+ nl
  +:+ "      <p><strong>File:</strong> <a href=" +:+ dq +:+ publicUrl +:+ dq +:+ ">"
  +:+ safeName originalname +:+ "</a></p>" +:+ nl
  +:+ "    ".

(** Everything the first revision does before it notifies; returns the
    notify list, the subject and the body. *)
Definition processSubmission_v1 (env : ProcessEnv) (w : World)
    (submitterEmail : string) (classOfBusiness moreInfo : option string) (f : File)
    : M (list string * string * string) :=
  let* effectiveClass := resolveClass env classOfBusiness submitterEmail in
  let* publicUrl := uploadToSpaces env w f in
  create (AIRTABLE_APPS_TABLE env)
    (createFields_v1 submitterEmail effectiveClass moreInfo
       (IFile publicUrl (originalname f))) ;;
  let* matchedRecipients := underwriterMatch_v1 env effectiveClass in
  ret (notifyList env matchedRecipients,
       mailSubject effectiveClass,
       mailHtml_v1 submitterEmail effectiveClass moreInfo publicUrl (originalname f)).

(** The early return for an empty list, else the sends and the answer. *)
Definition notifyAndRespond_v1 (env : ProcessEnv) (tp : Transports)
    (notify : list string) (subject html : string) : M Response :=
  match notify with
  | [] =>
      ret {| status := 200;
             body := "Uploaded and saved. No matching underwriters found." |}
  | _ :: _ =>
      promise_all
        (map (fun to => sendMail tp (transporter_v1 env) (SMTP_FROM env) to subject html)
           notify) ;;
      ret {| status := 200; body := "Application submitted and notifications sent!" |}
  end.

(** [app.post('/upload', ...)] of the first revision. *)
Definition upload_route_v1 (env : ProcessEnv) (w : World) (tp : Transports)
    (req : Request) : M Response :=
  try_catch
    (if negb (truthy (submitterEmail req))
     then ret {| status := 400; body := "Missing submitter email" |}
     else
       match file req with
       | None => ret {| status := 400; body := "No file uploaded" |}
       | Some f =>
           let* '(notify, subject, html) :=
             processSubmission_v1 env w (or_else (submitterEmail req) "")
               (classOfBusiness req) (moreInfo req) f in
           notifyAndRespond_v1 env tp notify subject html
       end)
    (fun err =>
       console_error (error_message err) ;;
       ret {| status := 500; body := "Server error" |}).

Module V1SendFailure.

(** The first revision, one recipient the relay refuses. *)
Definition tp : Transports :=
  Demo.transports (BrevoResponse 200 "") (fun to => negb (String.eqb to "u4@ins.com")).

Definition req : Request :=
  Demo.request (Some "new@x.com") (Some "Fire") None "report.pdf".

Definition before : Result (list string * string * string) * State :=
  processSubmission_v1 Demo.env Demo.world "new@x.com" (Some "Fire") None
    (Demo.pdf "report.pdf") (Demo.st0 Demo.submissions).

Definition outcome : list string * string * string :=
  match fst before with Ok x => x | Throw _ => ([], "", "") end.

End V1SendFailure.

(** * Properties *)

(** ** Notification transport *)

Section Transport.

Variables (env : ProcessEnv) (w : Transports).
Variables (list : list string) (subject html : string).

(** With an API key the start-up code builds no SMTP client. *)
Lemma transporter_null_with_key :
  truthy (BREVO_API_KEY env) = true -> transporter env = None.
Proof. unfold transporter. intros ->. reflexivity. Qed.

Lemma transporter_some_without_key :
  truthy (BREVO_API_KEY env) = false ->
  transporter env = Some {| auth_user := SMTP_USER env; auth_pass := SMTP_PASS env |}.
Proof. unfold transporter. intros ->. reflexivity. Qed.

(** On the API path nothing is ever handed to SMTP: the only transport
    call is the one POST. *)
Lemma sendEmails_key_trace (st : State) :
  truthy (BREVO_API_KEY env) = true ->
  trace (snd (sendEmails env w list subject html st)) = BrevoPost list :: trace st.
Proof.
  intros Hk. unfold sendEmails, try_catch, sendEmailBrevo, bind, emit.
  rewrite Hk, (transporter_null_with_key Hk). simpl.
  destruct (brevo_answer w) as [status text | msg]; simpl;
    [destruct (response_ok status); simpl |]; reflexivity.
Qed.

(** A failed POST is what the caller of [sendEmails] sees. *)
Lemma sendEmails_key_failure (st : State) (e : Error) :
  truthy (BREVO_API_KEY env) = true ->
  brevo_failure w = Some e ->
  fst (sendEmails env w list subject html st) = Throw e.
Proof.
  intros Hk Hf. unfold sendEmails, try_catch, sendEmailBrevo, bind, emit.
  rewrite Hk, (transporter_null_with_key Hk). simpl.
  unfold brevo_failure in Hf.
  destruct (brevo_answer w) as [status text | msg]; simpl;
    [destruct (response_ok status); simpl |]; congruence.
Qed.

Lemma sendEmails_key_success (st : State) :
  truthy (BREVO_API_KEY env) = true ->
  brevo_failure w = None ->
  fst (sendEmails env w list subject html st) = Ok tt.
Proof.
  intros Hk Hf. unfold sendEmails, try_catch, sendEmailBrevo, bind, emit.
  rewrite Hk. simpl. unfold brevo_failure in Hf.
  destruct (brevo_answer w) as [status text | msg]; simpl;
    [destruct (response_ok status); simpl |]; congruence.
Qed.

End Transport.

(** The SMTP path sends one message per recipient, whatever each answer. *)
Lemma promise_all_sendMail_attempts (env : ProcessEnv) (w : Transports) (t : Transporter)
    (subject html : string) (list : list string) (st : State) :
  smtp_attempts
    (trace (snd (promise_all
                   (map (fun to => sendMail w t (SMTP_FROM env) to subject html) list) st)))
  = length list + smtp_attempts (trace st).
Proof.
  revert st. induction list as [|to rest IH]; intros st; simpl.
  - reflexivity.
  - destruct (sendMail w t (SMTP_FROM env) to subject html st) as [r st1] eqn:E1.
    destruct (promise_all _ st1) as [rs st2] eqn:E2.
    simpl. specialize (IH st1). rewrite E2 in IH. simpl in IH. rewrite IH.
    assert (trace st1 = SmtpSend to :: trace st) as ->.
    { unfold sendMail, bind, emit in E1. simpl in E1.
      destruct (smtp_accepts w to); inversion E1; reflexivity. }
    unfold smtp_attempts. simpl. lia.
Qed.

Lemma sendEmails_no_key_attempts (env : ProcessEnv) (w : Transports)
    (list : list string) (subject html : string) (st : State) :
  truthy (BREVO_API_KEY env) = false ->
  smtp_attempts (trace (snd (sendEmails env w list subject html st)))
  = length list + smtp_attempts (trace st).
Proof.
  intros Hk. unfold sendEmails. rewrite Hk, (transporter_some_without_key _ Hk).
  unfold smtpAll, bind.
  pose proof (promise_all_sendMail_attempts env w
                {| auth_user := SMTP_USER env; auth_pass := SMTP_PASS env |}
                subject html list st) as H.
  destruct (promise_all _ st) as [[l|e] st'] eqn:E; simpl in *; exact H.
Qed.

(** C1 (defect).  An API key and SMTP credentials are both set and the API
    answers 500: [sendEmails] logs that it will try SMTP, but the client is
    [null] because the key is set, so no message is handed to SMTP and the
    API failure is thrown. *)
Theorem C1_fallback_not_attempted :
  truthy (SMTP_USER FallbackCase.env) = true /\
  truthy (SMTP_PASS FallbackCase.env) = true /\
  transporter FallbackCase.env = None /\
  fst FallbackCase.run = Throw (Err "Brevo API failed: 500 boom") /\
  smtp_attempts (trace (snd FallbackCase.run)) = 0 /\
  console (snd FallbackCase.run)
  = ["Brevo send failed, will try SMTP if available: Brevo API failed: 500 boom"].
Proof. vm_compute. repeat split; reflexivity. Qed.

(** ** Classification resolver *)

Lemma head_filter_find {A} (p : A -> bool) (l : list A) :
  head (List.filter p l) = List.find p l.
Proof.
  induction l as [|x l IH]; simpl; [reflexivity|].
  destruct (p x); simpl; [reflexivity | exact IH].
Qed.

Lemma find_none_iff {A} (p : A -> bool) (l : list A) :
  List.find p l = None <-> (forall x, In x l -> p x = false).
Proof.
  split.
  - apply find_none.
  - induction l as [|x l IH]; intros H; simpl; [reflexivity|].
    rewrite (H x (or_introl eq_refl)). apply IH. intros y Hy. apply H. right. exact Hy.
Qed.

Lemma matches_ci_spec field value r :
  matches_ci field value r = true
  <-> Str.LOWER (cell_text (get r field)) = Str.LOWER value.
Proof. unfold matches_ci. simpl. apply String.eqb_eq. Qed.

Lemma airtableFindOne_run (table : string) (f : Formula) (st : State) rows :
  base st !! table = Some rows ->
  airtableFindOne table f st
  = (Ok (List.find (eval_formula f) rows),
     with_base st (base st) (next_id st) (StoreRead table)).
Proof.
  intros Hb. unfold airtableFindOne, bind, select, ret. rewrite Hb.
  rewrite head_filter_find. reflexivity.
Qed.

Lemma airtableFindOne_missing (table : string) (f : Formula) (st : State) :
  base st !! table = None ->
  airtableFindOne table f st = (Throw (Err "NOT_FOUND"), st).
Proof. intros Hb. unfold airtableFindOne, bind, select. rewrite Hb. reflexivity. Qed.

(** Class resolution once the store has read the formula.  An explicit
    classification that is non-empty after trimming is returned trimmed,
    without consulting the directory.  With no explicit classification the
    applicants table is searched for the first row whose email cell equals
    the identity up to letter case, and that row's classification is
    returned trimmed; with no such row, or with no applicants table
    configured, the result is the empty string and nothing is thrown. *)
Lemma resolveClass_cases (env : ProcessEnv) (classOfBusiness : option string)
    (submitterEmail : string) (st : State) :
  let explicit := Str.trim (or_else classOfBusiness "") in
  (Str.nonempty explicit = true ->
     resolveClass env classOfBusiness submitterEmail st = (Ok explicit, st)) /\
  (Str.nonempty explicit = false ->
     forall tbl rows,
       AIRTABLE_APPLICANTS_TABLE_ID env = Some tbl ->
       Str.nonempty tbl = true ->
       base st !! tbl = Some rows ->
       (forall r,
          List.find (matches_ci (APPLICANTS_EMAIL_FIELD env) submitterEmail) rows = Some r ->
          fst (resolveClass env classOfBusiness submitterEmail st)
          = Ok (directory_class env r)) /\
       ((forall r, In r rows ->
           Str.LOWER (cell_text (get r (APPLICANTS_EMAIL_FIELD env)))
           <> Str.LOWER submitterEmail) ->
        fst (resolveClass env classOfBusiness submitterEmail st) = Ok "")) /\
  (Str.nonempty explicit = false ->
     truthy (AIRTABLE_APPLICANTS_TABLE_ID env) = false ->
     resolveClass env classOfBusiness submitterEmail st = (Ok "", st)).
Proof.
  intros explicit. unfold resolveClass. fold explicit.
  split; [|split].
  - intros ->. reflexivity.
  - intros He tbl rows Ht Hne Hb. rewrite He, Ht. simpl. rewrite Hne. simpl.
    unfold bind. rewrite (airtableFindOne_run _ _ _ _ Hb).
    fold (matches_ci (APPLICANTS_EMAIL_FIELD env) submitterEmail).
    split.
    + intros r Hr. rewrite Hr. unfold directory_class.
      destruct (value_truthy (get r (APPLICANTS_CLASS_FIELD env))); simpl; [reflexivity|].
      destruct explicit; [reflexivity | discriminate].
    + intros Hno.
      assert (List.find (matches_ci (APPLICANTS_EMAIL_FIELD env) submitterEmail) rows
              = None) as ->.
      { apply find_none_iff. intros r Hin.
        destruct (matches_ci _ _ r) eqn:E; [|reflexivity].
        apply matches_ci_spec in E. destruct (Hno r Hin E). }
      simpl. destruct explicit; [reflexivity | discriminate].
  - intros He Hn. rewrite He, Hn. simpl.
    destruct explicit; [reflexivity | discriminate].
Qed.

(** ** Category resolution *)

(** Reading the display name never writes and never throws. *)
Lemma fetchClassName_frame (env : ProcessEnv) (id dflt : string) (st : State) :
  exists name st',
    fetchClassName env id dflt st = (Ok name, st') /\
    base st' = base st /\ next_id st' = next_id st /\
    write_log (trace st') = write_log (trace st).
Proof.
  unfold fetchClassName, try_catch, bind, find, console_error, ret.
  destruct (base st !! CLASS_TABLE_ID env) as [rows|]; simpl.
  - destruct (List.find (has_id id) rows) as [r|]; simpl.
    + destruct (value_truthy (get r "Name")); eexists _, _; repeat split; reflexivity.
    + eexists _, _; repeat split; reflexivity.
  - eexists _, _; repeat split; reflexivity.
Qed.

Lemma mkid_truthy (n : nat) : truthy (Some (mkid n)) = true.
Proof. reflexivity. Qed.

Lemma or_else_truthy (s d : string) : truthy (Some s) = true -> or_else (Some s) d = s.
Proof. simpl. intros ->. reflexivity. Qed.

Section GetOrCreate.

Variables (env : ProcessEnv) (name : string) (st : State).
Hypothesis Hname : Str.nonempty name = true.

Lemma getOrCreate_missing :
  base st !! CLASS_TABLE_ID env = None ->
  getOrCreateClassIdByName env name st = (Throw (Err "NOT_FOUND"), st).
Proof.
  intros Hb. unfold getOrCreateClassIdByName. rewrite Hname. simpl.
  unfold bind. rewrite (airtableFindOne_missing _ _ _ Hb). reflexivity.
Qed.

Lemma getOrCreate_found rows r :
  base st !! CLASS_TABLE_ID env = Some rows ->
  List.find (matches_ci "Name" name) rows = Some r ->
  getOrCreateClassIdByName env name st
  = (Ok (Some (rec_id r)),
     with_base st (base st) (next_id st) (StoreRead (CLASS_TABLE_ID env))).
Proof.
  intros Hb Hf. unfold getOrCreateClassIdByName. rewrite Hname. simpl.
  unfold bind. rewrite (airtableFindOne_run _ _ _ _ Hb).
  fold (matches_ci "Name" name). rewrite Hf. reflexivity.
Qed.

Lemma getOrCreate_created rows :
  base st !! CLASS_TABLE_ID env = Some rows ->
  List.find (matches_ci "Name" name) rows = None ->
  let created := {| rec_id := mkid (next_id st);
                    rec_fields := {[ "Name" := VStr name ]} |} in
  getOrCreateClassIdByName env name st
  = (Ok (Some (rec_id created)),
     {| base := <[CLASS_TABLE_ID env := rows ++ [created]]> (base st);
        next_id := S (next_id st);
        trace := StoreCreate (CLASS_TABLE_ID env) created
                 :: StoreRead (CLASS_TABLE_ID env) :: trace st;
        console := console st |}).
Proof.
  intros Hb Hf created. unfold getOrCreateClassIdByName. rewrite Hname. simpl.
  unfold bind. rewrite (airtableFindOne_run _ _ _ _ Hb).
  fold (matches_ci "Name" name). rewrite Hf.
  unfold create, with_base. simpl. rewrite Hb. reflexivity.
Qed.

End GetOrCreate.


(** ** Recipient resolver *)




(** Elements of an array cell are taken whole; only a text cell is split
    at commas. *)
Example recipients_without_override :
  fst (resolveRecipients Demo.env None "Fire" (Demo.st0 []))
  = Ok ["u1@ins.com"; "u2@ins.com,u3@ins.com"; "u4@ins.com"].
Proof. vm_compute. reflexivity. Qed.


(** ** Submission reconciler *)

Lemma distinct_fields_demo : distinct_fields Demo.env.
Proof. vm_compute. repeat split; discriminate. Qed.

Section Fields.

Variable env : ProcessEnv.
Hypothesis Hd : distinct_fields env.
Variables (email notes : string) (files : list Item) (link : list string).

Lemma updateFields_file :
  updateFields env email notes files link !! FILE_F env = Some (VArr files).
Proof.
  destruct Hd as (? & ? & ? & ? & ? & ?).
  unfold updateFields. destruct link; simplify_map_eq; reflexivity.
Qed.

Lemma updateFields_notes :
  updateFields env email notes files link !! NOTES_F env = Some (VStr notes).
Proof.
  destruct Hd as (? & ? & ? & ? & ? & ?).
  unfold updateFields. destruct link; simplify_map_eq; reflexivity.
Qed.

Lemma updateFields_email :
  updateFields env email notes files link !! EMAIL_F env = Some (VStr email).
Proof.
  destruct Hd as (? & ? & ? & ? & ? & ?).
  unfold updateFields. destruct link; simplify_map_eq; reflexivity.
Qed.



Lemma createFields_file (moreInfo : option string) (att : Item) :
  createFields env email moreInfo link att !! FILE_F env = Some (VArr [att]).
Proof. unfold createFields. apply lookup_insert_eq. Qed.

Lemma createFields_email (moreInfo : option string) (att : Item) :
  createFields env email moreInfo link att !! EMAIL_F env = Some (VStr email).
Proof.
  destruct Hd as (? & ? & ? & ? & ? & ?).
  unfold createFields. simplify_map_eq. reflexivity.
Qed.

End Fields.

(** *** Rows under a patch *)

Lemma has_id_self (r : ATRecord) : has_id (rec_id r) r = true.
Proof. unfold has_id. apply String.eqb_refl. Qed.

Lemma has_id_eq (id : string) (r : ATRecord) : has_id id r = true <-> rec_id r = id.
Proof. unfold has_id. apply String.eqb_eq. Qed.

Lemma rec_id_patch_row id patch r : rec_id (patch_row id patch r) = rec_id r.
Proof. unfold patch_row. destruct (has_id id r); reflexivity. Qed.

Lemma patch_row_self patch r :
  patch_row (rec_id r) patch r
  = {| rec_id := rec_id r; rec_fields := patch ∪ rec_fields r |}.
Proof. unfold patch_row. rewrite has_id_self. reflexivity. Qed.

Lemma patch_row_other id patch r : rec_id r <> id -> patch_row id patch r = r.
Proof.
  intros Hne. unfold patch_row. destruct (has_id id r) eqn:E; [|reflexivity].
  apply has_id_eq in E. congruence.
Qed.

(** A cell named by the patch takes the patch's value. *)
Lemma get_patched_hit patch r field v :
  patch !! field = Some v -> get (patch_row (rec_id r) patch r) field = Some v.
Proof.
  intros Hp. rewrite patch_row_self. unfold get. cbn [rec_fields].
  apply lookup_union_Some_l. exact Hp.
Qed.


Lemma map_rec_id_patch id patch rows :
  map rec_id (map (patch_row id patch) rows) = map rec_id rows.
Proof.
  induction rows as [|r rows IH]; simpl; [reflexivity|].
  rewrite rec_id_patch_row, IH. reflexivity.
Qed.

Lemma find_has_id_In (ex : ATRecord) (rows : list ATRecord) :
  In ex rows -> exists r, List.find (has_id (rec_id ex)) rows = Some r.
Proof.
  intros Hin. destruct (List.find (has_id (rec_id ex)) rows) as [r|] eqn:E.
  - eauto.
  - pose proof (find_none _ _ E ex Hin) as H. rewrite has_id_self in H. discriminate.
Qed.

(** With unique ids, the row a search returned is still the first hit after
    it has been patched, provided the patched row still satisfies the test. *)
Lemma find_after_patch (p : ATRecord -> bool) patch rows ex :
  NoDup (map rec_id rows) ->
  List.find p rows = Some ex ->
  p (patch_row (rec_id ex) patch ex) = true ->
  List.find p (map (patch_row (rec_id ex) patch) rows)
  = Some (patch_row (rec_id ex) patch ex).
Proof.
  intros Hnd Hf Hp. induction rows as [|x rows IH]; [discriminate|].
  simpl in Hf. simpl. apply NoDup_cons in Hnd as [Hx Hnd].
  destruct (p x) eqn:Epx.
  - inversion Hf; subst x. rewrite Hp. reflexivity.
  - assert (rec_id x <> rec_id ex) as Hne.
    { intros Heq. apply Hx. rewrite Heq. apply list_elem_of_In, in_map.
      apply (find_some _ _ Hf). }
    rewrite (patch_row_other _ _ _ Hne), Epx. apply IH; assumption.
Qed.

Lemma matches_ci_same_identity field e1 e2 :
  Str.LOWER e1 = Str.LOWER e2 -> matches_ci field e1 = matches_ci field e2.
Proof. intros H. unfold matches_ci, eval_formula. rewrite H. reflexivity. Qed.

(** *** The upsert, case by case *)

Section Upsert.

Variable env : ProcessEnv.
Variables (email : string) (moreInfo : option string) (link : list string).
Variables (url fn : string) (st : State) (rows : list ATRecord).
Hypothesis Hrows : base st !! AIRTABLE_APPS_TABLE env = Some rows.

Lemma upsert_merge_run ex :
  List.find (matches_ci (EMAIL_F env) email) rows = Some ex ->
  upsertByEmail env email moreInfo link url fn st
  = (Ok (Some ex),
     {| base := <[AIRTABLE_APPS_TABLE env :=
                    map (patch_row (rec_id ex) (merge_patch env email moreInfo link url fn ex)) rows]> (base st);
        next_id := next_id st;
        trace := StoreUpdate (AIRTABLE_APPS_TABLE env) (rec_id ex) (merge_patch env email moreInfo link url fn ex)
                 :: StoreRead (AIRTABLE_APPS_TABLE env) :: trace st;
        console := console st |}).
Proof.
  intros Hf. unfold upsertByEmail, findSubmissionByEmail, bind.
  rewrite (airtableFindOne_run _ _ _ _ Hrows).
  fold (matches_ci (EMAIL_F env) email). rewrite Hf.
  unfold update, with_base. cbn [base next_id trace console]. rewrite Hrows.
  destruct (find_has_id_In ex rows (proj1 (find_some _ _ Hf))) as [r0 ->].
  reflexivity.
Qed.

Lemma upsert_create_run :
  List.find (matches_ci (EMAIL_F env) email) rows = None ->
  upsertByEmail env email moreInfo link url fn st
  = (Ok None,
     {| base := <[AIRTABLE_APPS_TABLE env := rows ++ [created_row env email moreInfo link url fn (next_id st)]]>
                  (base st);
        next_id := S (next_id st);
        trace := StoreCreate (AIRTABLE_APPS_TABLE env) (created_row env email moreInfo link url fn (next_id st))
                 :: StoreRead (AIRTABLE_APPS_TABLE env) :: trace st;
        console := console st |}).
Proof.
  intros Hf. unfold upsertByEmail, findSubmissionByEmail, bind.
  rewrite (airtableFindOne_run _ _ _ _ Hrows).
  fold (matches_ci (EMAIL_F env) email). rewrite Hf.
  unfold create, with_base. cbn [base next_id trace console]. rewrite Hrows.
  reflexivity.
Qed.

End Upsert.

(** *** Notes *)


Lemma existingNotes_text env r s :
  get r (NOTES_F env) = Some (VStr s) -> existingNotes env r = s.
Proof. unfold existingNotes. intros ->. simpl. destruct s; reflexivity. Qed.



Lemma mergedNotes_first new :
  Str.nonempty new = true -> mergedNotes "" (Some new) = new.
Proof. unfold mergedNotes. simpl. intros ->. reflexivity. Qed.



(** *** Classification reference *)

Lemma resolveLinkedClass_empty (env : ProcessEnv) (c : string) (st : State) :
  Str.nonempty c = false ->
  resolveLinkedClass env c st = (Ok ([], None, Str.trim c), st).
Proof. intros H. unfold resolveLinkedClass. rewrite H. reflexivity. Qed.




(** *** One reconciliation *)

Lemma resolveLinkedClass_frame (env : ProcessEnv) (c : string) (st : State) :
  (class_lookup_needed c = true -> is_Some (base st !! CLASS_TABLE_ID env)) ->
  exists link rid name st1,
    resolveLinkedClass env c st = (Ok (link, rid, name), st1) /\
    (forall t, t <> CLASS_TABLE_ID env -> base st1 !! t = base st !! t) /\
    (is_Some (base st !! CLASS_TABLE_ID env) ->
     is_Some (base st1 !! CLASS_TABLE_ID env)) /\
    next_id st <= next_id st1 /\
    write_log (trace st1) = class_writes env c st ++ write_log (trace st).
Proof.
  intros Hcls. unfold class_writes, creates_class, class_lookup_needed in *.
  destruct (Str.nonempty c) eqn:Hne.
  2:{ rewrite (resolveLinkedClass_empty _ _ _ Hne). simpl.
      eexists _, _, _, _. repeat split; auto. }
  unfold resolveLinkedClass. rewrite Hne.
  destruct (is_record_id c) eqn:Hid; simpl.
  - unfold bind at 1. unfold ret at 1.
    assert (truthy (Some c) = true) as Ht by exact Hne. rewrite Ht.
    destruct (fetchClassName_frame env (or_else (Some c) "") (Str.trim c) st)
      as (name & st' & Hrun & Hb & Hn & Hw).
    unfold bind. rewrite Hrun. unfold ret.
    eexists _, _, _, _. split; [reflexivity|]. rewrite Hb, Hn, Hw. repeat split; auto.
  - destruct (Hcls eq_refl) as [crows Hb]. rewrite Hb.
    destruct (List.find (matches_ci "Name" c) crows) as [r|] eqn:Hf.
    + unfold bind at 1. rewrite (getOrCreate_found env c st Hne crows r Hb Hf).
      set (st1 := with_base st (base st) (next_id st) (StoreRead (CLASS_TABLE_ID env))).
      destruct (truthy (Some (rec_id r))).
      * destruct (fetchClassName_frame env (or_else (Some (rec_id r)) "") (Str.trim c) st1)
          as (name & st' & Hrun & Hb' & Hn & Hw).
        unfold bind. rewrite Hrun. unfold ret.
        eexists _, _, _, _. split; [reflexivity|]. rewrite Hb', Hn, Hw.
        subst st1. cbn [base next_id trace with_base]. rewrite Hb. repeat split; eauto.
      * unfold ret. eexists _, _, _, _. split; [reflexivity|].
        subst st1. cbn [base next_id trace with_base]. rewrite Hb. repeat split; eauto.
    + unfold bind at 1. rewrite (getOrCreate_created env c st Hne crows Hb Hf).
      cbn [rec_id]. rewrite (mkid_truthy (next_id st)).
      unfold bind.
      match goal with
      | |- context [fetchClassName env ?i ?d ?s] =>
          destruct (fetchClassName_frame env i d s)
            as (name & st' & Hrun & Hb' & Hn & Hw)
      end.
      rewrite Hrun. unfold ret. eexists _, _, _, _. split; [reflexivity|].
      rewrite Hb', Hn, Hw. cbn [base next_id trace].
      split; [intros t Ht; apply lookup_insert_ne; congruence|].
      split; [intros _; rewrite lookup_insert_eq; eauto|].
      split; [lia | reflexivity].
Qed.

Section ReconcileStep.

Variable env : ProcessEnv.
Variables (email c : string) (moreInfo : option string) (url fn : string).
Variables (st : State) (rows : list ATRecord).
Hypothesis Htab : AIRTABLE_APPS_TABLE env <> CLASS_TABLE_ID env.
Hypothesis Hrows : base st !! AIRTABLE_APPS_TABLE env = Some rows.
Hypothesis Hcls :
  class_lookup_needed c = true -> is_Some (base st !! CLASS_TABLE_ID env).

Lemma reconcile_merge ex :
  List.find (matches_ci (EMAIL_F env) email) rows = Some ex ->
  exists link rid name st',
    reconcile env email c moreInfo url fn st = (Ok (Some ex, rid, name), st') /\
    base st' !! AIRTABLE_APPS_TABLE env
    = Some (map (patch_row (rec_id ex) (merge_patch env email moreInfo link url fn ex))
              rows) /\
    (is_Some (base st !! CLASS_TABLE_ID env) ->
     is_Some (base st' !! CLASS_TABLE_ID env)) /\
    next_id st <= next_id st' /\
    write_log (trace st')
    = StoreUpdate (AIRTABLE_APPS_TABLE env) (rec_id ex)
        (merge_patch env email moreInfo link url fn ex)
      :: class_writes env c st ++ write_log (trace st).
Proof.
  intros Hf.
  destruct (resolveLinkedClass_frame env c st Hcls)
    as (link & rid & name & st1 & Hrun & Hfr & Hc & Hn & Hw).
  assert (base st1 !! AIRTABLE_APPS_TABLE env = Some rows) as Hrows1
    by (rewrite (Hfr _ Htab); exact Hrows).
  exists link, rid, name. eexists. unfold reconcile, bind. rewrite Hrun.
  rewrite (upsert_merge_run env email moreInfo link url fn st1 rows Hrows1 ex Hf).
  unfold ret. split; [reflexivity|]. cbn [base next_id trace].
  split; [apply lookup_insert_eq|].
  split; [intros H; rewrite lookup_insert_ne by exact Htab; auto|].
  split; [exact Hn|]. unfold write_log in *. simpl. rewrite Hw. reflexivity.
Qed.

Lemma reconcile_create :
  List.find (matches_ci (EMAIL_F env) email) rows = None ->
  exists link rid name st' n,
    reconcile env email c moreInfo url fn st = (Ok (None, rid, name), st') /\
    next_id st <= n /\ next_id st' = S n /\
    base st' !! AIRTABLE_APPS_TABLE env
    = Some (rows ++ [created_row env email moreInfo link url fn n]) /\
    (is_Some (base st !! CLASS_TABLE_ID env) ->
     is_Some (base st' !! CLASS_TABLE_ID env)) /\
    write_log (trace st')
    = StoreCreate (AIRTABLE_APPS_TABLE env)
        (created_row env email moreInfo link url fn n)
      :: class_writes env c st ++ write_log (trace st).
Proof.
  intros Hf.
  destruct (resolveLinkedClass_frame env c st Hcls)
    as (link & rid & name & st1 & Hrun & Hfr & Hc & Hn & Hw).
  assert (base st1 !! AIRTABLE_APPS_TABLE env = Some rows) as Hrows1
    by (rewrite (Hfr _ Htab); exact Hrows).
  exists link, rid, name. eexists. exists (next_id st1).
  unfold reconcile, bind. rewrite Hrun.
  rewrite (upsert_create_run env email moreInfo link url fn st1 rows Hrows1 Hf).
  unfold ret. split; [reflexivity|]. cbn [base next_id trace].
  split; [exact Hn|]. split; [reflexivity|].
  split; [apply lookup_insert_eq|].
  split; [intros H; rewrite lookup_insert_ne by exact Htab; auto|].
  unfold write_log in *. simpl. rewrite Hw. reflexivity.
Qed.

End ReconcileStep.

(** *** Writes per reconciliation *)

Lemma writes_on_other_table (t t' : string) (r : ATRecord) :
  t' <> t -> is_write_on t (StoreCreate t' r) = false.
Proof. intros H. simpl. apply String.eqb_neq. exact H. Qed.

Lemma writes_on_write_log (t : string) (tr : list Event) :
  writes_on t tr = length (List.filter (is_write_on t) (write_log tr)).
Proof.
  unfold writes_on, write_log. induction tr as [|ev tr IH]; [reflexivity|].
  destruct ev; simpl; try exact IH;
    destruct (String.eqb _ t); simpl; rewrite IH; reflexivity.
Qed.

Lemma class_writes_not_on_apps (env : ProcessEnv) c st :
  AIRTABLE_APPS_TABLE env <> CLASS_TABLE_ID env ->
  List.filter (is_write_on (AIRTABLE_APPS_TABLE env)) (class_writes env c st) = [].
Proof.
  intros Htab. unfold class_writes. destruct (creates_class env c st); [|reflexivity].
  cbn [List.filter]. rewrite writes_on_other_table by congruence. reflexivity.
Qed.

(** A reconciliation that can read its tables completes and writes the
    submissions table exactly once (one create or one update).  It writes
    the store a second time, creating a class row, exactly when the
    classification is a non-empty text that is not an id and matches no
    class name. *)
Lemma reconcile_write_count (env : ProcessEnv) (email c : string)
    (moreInfo : option string) (url fn : string) (st : State) :
  AIRTABLE_APPS_TABLE env <> CLASS_TABLE_ID env ->
  is_Some (base st !! AIRTABLE_APPS_TABLE env) ->
  (class_lookup_needed c = true -> is_Some (base st !! CLASS_TABLE_ID env)) ->
  exists res st',
    reconcile env email c moreInfo url fn st = (Ok res, st') /\
    writes_on (AIRTABLE_APPS_TABLE env) (trace st')
    = 1 + writes_on (AIRTABLE_APPS_TABLE env) (trace st) /\
    writes (trace st')
    = (if creates_class env c st then 2 else 1) + writes (trace st).
Proof.
  intros Htab [rows Hrows] Hcls.
  assert (forall w st',
            is_write_on (AIRTABLE_APPS_TABLE env) w = true ->
            write_log (trace st') = w :: class_writes env c st ++ write_log (trace st) ->
            writes_on (AIRTABLE_APPS_TABLE env) (trace st')
            = 1 + writes_on (AIRTABLE_APPS_TABLE env) (trace st) /\
            writes (trace st')
            = (if creates_class env c st then 2 else 1) + writes (trace st)) as Hcount.
  { intros w st' Hon Hw. split.
    - rewrite !writes_on_write_log, Hw. cbn [List.filter]. rewrite Hon.
      rewrite List.filter_app, (class_writes_not_on_apps _ _ _ Htab). reflexivity.
    - unfold writes. fold (write_log (trace st')). fold (write_log (trace st)).
      rewrite Hw. unfold class_writes.
      destruct (creates_class env c st); simpl; reflexivity. }
  destruct (List.find (matches_ci (EMAIL_F env) email) rows) as [ex|] eqn:Hf.
  - destruct (reconcile_merge env email c moreInfo url fn st rows Htab Hrows Hcls ex Hf)
      as (link & rid & name & st' & Hrun & _ & _ & _ & Hw).
    eexists _, st'. split; [exact Hrun|].
    apply (Hcount _ _ (String.eqb_refl _ : is_write_on _ (StoreUpdate _ _ _) = true) Hw).
  - destruct (reconcile_create env email c moreInfo url fn st rows Htab Hrows Hcls Hf)
      as (link & rid & name & st' & n & Hrun & _ & _ & _ & _ & Hw).
    eexists _, st'. split; [exact Hrun|].
    apply (Hcount _ _ (String.eqb_refl _ : is_write_on _ (StoreCreate _ _) = true) Hw).
Qed.

(** *** Store invariants *)

Lemma mkid_inj (a b : nat) : mkid a = mkid b -> a = b.
Proof.
  unfold mkid. intros H. simpl in H. inversion H as [H'].
  exact (pretty_nat_inj _ _ H').
Qed.

Lemma fresh_ids_mono n m rows : n <= m -> fresh_ids n rows -> fresh_ids m rows.
Proof. intros Hle Hf k Hk. apply Hf. lia. Qed.

Lemma NoDup_map_eq {A B} (f : A -> B) (l : list A) (x y : A) :
  NoDup (map f l) -> In x l -> In y l -> f x = f y -> x = y.
Proof.
  induction l as [|z l IH]; intros Hnd Hx Hy Heq; [destruct Hx|].
  simpl in Hnd. apply NoDup_cons in Hnd as [Hz Hnd].
  destruct Hx as [<-|Hx], Hy as [<-|Hy]; auto.
  - exfalso. apply Hz. rewrite Heq. apply list_elem_of_In, in_map, Hy.
  - exfalso. apply Hz. rewrite <- Heq. apply list_elem_of_In, in_map, Hx.
Qed.

Lemma NoDup_snoc_fresh (rows : list ATRecord) (r : ATRecord) :
  NoDup (map rec_id rows) -> ~ In (rec_id r) (map rec_id rows) ->
  NoDup (map rec_id (rows ++ [r])).
Proof.
  intros Hnd Hfresh. rewrite map_app. apply NoDup_app. split; [exact Hnd|].
  split; [|apply NoDup_singleton].
  intros x Hx Hx'. simpl in Hx'. apply list_elem_of_singleton in Hx'. subst x.
  apply Hfresh, list_elem_of_In, Hx.
Qed.

Lemma find_snoc {A} (p : A -> bool) (l : list A) (x : A) :
  List.find p l = None -> p x = true -> List.find p (l ++ [x]) = Some x.
Proof.
  intros Hn Hp. induction l as [|y l IH]; simpl in *; [rewrite Hp; reflexivity|].
  destruct (p y); [discriminate | apply IH, Hn].
Qed.

Lemma existingFiles_array env r l :
  get r (FILE_F env) = Some (VArr l) -> existingFiles env r = l.
Proof. unfold existingFiles. intros ->. reflexivity. Qed.

Lemma matches_ci_text field e r :
  get r field = Some (VStr e) -> matches_ci field e r = true.
Proof. intros H. apply matches_ci_spec. rewrite H. reflexivity. Qed.

Section StepInvariant.

Variable env : ProcessEnv.
Hypothesis Hd : distinct_fields env.
Hypothesis Htab : AIRTABLE_APPS_TABLE env <> CLASS_TABLE_ID env.

Variables (email c : string) (moreInfo : option string) (url fn : string).
Variables (st : State) (rows : list ATRecord).
Hypothesis Hrows : base st !! AIRTABLE_APPS_TABLE env = Some rows.
Hypothesis Hcls : is_Some (base st !! CLASS_TABLE_ID env).
Hypothesis Hnd : NoDup (map rec_id rows).
Hypothesis Hfresh : fresh_ids (next_id st) rows.

(** One reconciliation: it completes; the invariants carry over; the row
    now found for the identity holds the earlier attachments followed by
    the new one; and every earlier row keeps its id and its identity up to
    letter case. *)
Lemma reconcile_step :
  exists rid name st' rows' r added,
    reconcile env email c moreInfo url fn st
    = (Ok (List.find (matches_ci (EMAIL_F env) email) rows, rid, name), st') /\
    base st' !! AIRTABLE_APPS_TABLE env = Some rows' /\
    is_Some (base st' !! CLASS_TABLE_ID env) /\
    NoDup (map rec_id rows') /\
    fresh_ids (next_id st') rows' /\
    List.find (matches_ci (EMAIL_F env) email) rows' = Some r /\
    (forall ex, List.find (matches_ci (EMAIL_F env) email) rows = Some ex ->
                rec_id r = rec_id ex) /\
    existingFiles env r = prior_files env email rows ++ [IFile url fn] /\
    get r (EMAIL_F env) = Some (VStr email) /\
    map (identity_key env) rows' = map (identity_key env) rows ++ added.
Proof.
  unfold prior_files.
  destruct (List.find (matches_ci (EMAIL_F env) email) rows) as [ex|] eqn:Hf.
  - destruct (reconcile_merge env email c moreInfo url fn st rows Htab Hrows
                (fun _ => Hcls) ex Hf)
      as (link & rid & name & st' & Hrun & Hb & Hc & Hn & _).
    set (P := merge_patch env email moreInfo link url fn ex) in *.
    assert (get (patch_row (rec_id ex) P ex) (EMAIL_F env) = Some (VStr email)) as He.
    { apply get_patched_hit. unfold P, merge_patch. apply updateFields_email, Hd. }
    exists rid, name, st', (map (patch_row (rec_id ex) P) rows),
      (patch_row (rec_id ex) P ex), [].
    split; [exact Hrun|]. split; [exact Hb|]. split; [auto|].
    split; [rewrite map_rec_id_patch; exact Hnd|].
    split.
    { intros k Hk. rewrite map_rec_id_patch. apply Hfresh. lia. }
    split.
    { apply find_after_patch; [exact Hnd | exact Hf |].
      apply matches_ci_text, He. }
    split.
    { intros ex' Hex'. inversion Hex'; subst ex'. apply rec_id_patch_row. }
    split.
    { apply existingFiles_array, get_patched_hit. unfold P, merge_patch.
      apply updateFields_file, Hd. }
    split; [exact He|].
    rewrite app_nil_r, map_map. apply map_ext_in. intros x Hx.
    destruct (String.eqb (rec_id x) (rec_id ex)) eqn:E.
    + apply String.eqb_eq in E.
      assert (x = ex) as -> by
        (apply (NoDup_map_eq rec_id rows); auto; apply (find_some _ _ Hf)).
      unfold identity_key, identity_ci. rewrite rec_id_patch_row, He.
      destruct (find_some _ _ Hf) as [_ Hm]. apply matches_ci_spec in Hm.
      rewrite Hm. reflexivity.
    + apply String.eqb_neq in E. rewrite (patch_row_other _ _ _ E). reflexivity.
  - destruct (reconcile_create env email c moreInfo url fn st rows Htab Hrows
                (fun _ => Hcls) Hf)
      as (link & rid & name & st' & n & Hrun & Hle & Hn & Hb & Hc & _).
    set (new := created_row env email moreInfo link url fn n) in *.
    assert (get new (EMAIL_F env) = Some (VStr email)) as He.
    { unfold new, created_row, get. cbn [rec_fields]. apply createFields_email, Hd. }
    exists rid, name, st', (rows ++ [new]), new, [identity_key env new].
    split; [exact Hrun|]. split; [exact Hb|]. split; [auto|].
    split; [apply NoDup_snoc_fresh; [exact Hnd | apply Hfresh, Hle]|].
    split.
    { intros k Hk Hin. rewrite Hn in Hk. rewrite map_app in Hin.
      apply in_app_or in Hin as [Hin|[Heq|[]]].
      - apply (Hfresh k); [lia | exact Hin].
      - apply mkid_inj in Heq. lia. }
    split; [apply find_snoc; [exact Hf | apply matches_ci_text, He]|].
    split; [discriminate|].
    split.
    { apply existingFiles_array. unfold new, created_row, get. cbn [rec_fields].
      apply createFields_file. }
    split; [exact He|]. apply map_app.
Qed.

End StepInvariant.

(** *** Two reconciliations for one identity *)


Lemma fresh_ids_numbered : fresh_ids 1 Demo.numbered.
Proof.
  intros k Hk [Heq|[]]. simpl in Heq. apply (mkid_inj 0 k) in Heq. lia.
Qed.

Lemma NoDup_numbered : NoDup (map rec_id Demo.numbered).
Proof. simpl. apply NoDup_singleton. Qed.

(** *** Identity over any sequence of reconciliations *)

(** Over any sequence of reconciliations every row of the submissions
    table stays at its place with its id and with its identity up to letter
    case; rows are only added at the end. *)
Lemma reconcile_all_identity (env : ProcessEnv) (subs : list Submission)
    (st : State) (rows : list ATRecord) :
  distinct_fields env ->
  AIRTABLE_APPS_TABLE env <> CLASS_TABLE_ID env ->
  base st !! AIRTABLE_APPS_TABLE env = Some rows ->
  is_Some (base st !! CLASS_TABLE_ID env) ->
  NoDup (map rec_id rows) ->
  fresh_ids (next_id st) rows ->
  exists rows' added,
    base (reconcile_all env subs st) !! AIRTABLE_APPS_TABLE env = Some rows' /\
    map (identity_key env) rows' = map (identity_key env) rows ++ added.
Proof.
  intros Hd Htab. revert st rows.
  induction subs as [|s rest IH]; intros st rows Hrows Hcls Hnd Hfresh.
  - exists rows, []. split; [exact Hrows | symmetry; apply app_nil_r].
  - destruct (reconcile_step env Hd Htab (sub_email s) (sub_class s) (sub_notes s)
                (sub_url s) (sub_filename s) st rows Hrows Hcls Hnd Hfresh)
      as (rid & name & st1 & rows1 & r1 & added1
          & Hrun & Hb1 & Hc1 & Hnd1 & Hfr1 & _ & _ & _ & _ & Hkeys).
    assert (reconcile_one env s st = st1) as Hone
      by (unfold reconcile_one; rewrite Hrun; reflexivity).
    destruct (IH st1 rows1 Hb1 Hc1 Hnd1 Hfr1) as (rows' & added' & Hb' & Hkeys').
    exists rows', (added1 ++ added'). cbn [reconcile_all]. rewrite Hone.
    split; [exact Hb'|]. rewrite Hkeys', Hkeys, <- app_assoc. reflexivity.
Qed.

(** ** The response after a failed notification *)

(** Whatever the transports answer, the notification step ends in the
    success response; a thrown send is logged. *)
Lemma notifyAndRespond_always_200 (env : ProcessEnv) (tp : Transports)
    (existing : option ATRecord) (notify : list string) (subject html : string)
    (st : State) :
  exists st',
    notifyAndRespond env tp existing notify subject html st
    = (Ok {| status := 200; body := success_body existing |}, st') /\
    (forall e,
       notify <> [] ->
       fst (sendEmails env tp notify subject html st) = Throw e ->
       head (console st') = Some ("Notification error " +:+ error_message e)).
Proof.
  unfold notifyAndRespond, bind, try_catch, success_body.
  destruct notify as [|to rest].
  - eexists. split; [reflexivity|]. intros e H. congruence.
  - destruct (sendEmails env tp (to :: rest) subject html st) as [[[]|e] st1] eqn:E.
    + eexists. split; [reflexivity|]. intros e _ H. discriminate.
    + eexists. split; [reflexivity|]. intros e' _ H. simpl in H.
      inversion H; subst e'. reflexivity.
Qed.

(** C10 (amended).  When the request is valid and everything before the
    notification completed (class resolution, upload, record write and the
    recipient lookup), the route answers 200 with the success text for
    every answer of the mail transports; a failed send only adds a line to
    the console. *)
Theorem C10_notification_failure_keeps_200 (env : ProcessEnv) (w : World)
    (tp : Transports) (req : Request) (st : State)
    (email : string) (f : File)
    (existing : option ATRecord) (notify : list string) (subject html : string)
    (st1 : State) :
  submitterEmail req = Some email ->
  Str.nonempty email = true ->
  file req = Some f ->
  processSubmission env w email (classOfBusiness req) (moreInfo req) f st
  = (Ok (existing, notify, subject, html), st1) ->
  exists st2,
    upload_route env w tp req st
    = (Ok {| status := 200; body := success_body existing |}, st2) /\
    (forall e,
       notify <> [] ->
       fst (sendEmails env tp notify subject html st1) = Throw e ->
       head (console st2) = Some ("Notification error " +:+ error_message e)).
Proof.
  intros He Hne Hf Hrun.
  destruct (notifyAndRespond_always_200 env tp existing notify subject html st1)
    as (st2 & Hresp & Hlog).
  exists st2. split; [|exact Hlog].
  unfold upload_route, try_catch, bind.
  rewrite He, Hf. cbn [truthy]. rewrite Hne. cbn [negb].
  rewrite (or_else_truthy email "" Hne), Hrun, Hresp. reflexivity.
Qed.

(** C10 as written fails when the recipient lookup throws: the request is
    valid, the upload and the record write have succeeded, and the answer is
    500. *)
Lemma C10_lookup_failure_is_500 :
  truthy (submitterEmail LookupFailureCase.req) = true /\
  is_Some (file LookupFailureCase.req) /\
  LookupFailureCase.uploaded (trace (snd LookupFailureCase.run)) = true /\
  writes_on "Submissions" (trace (snd LookupFailureCase.run)) = 1 /\
  fst LookupFailureCase.run = Ok {| status := 500; body := "Server error" |}.
Proof. vm_compute. repeat split. eexists. reflexivity. Qed.

Lemma C10_notification_failure_keeps_200_witness :
  exists st2,
    upload_route Demo.env Demo.world SendFailureCase.tp SendFailureCase.req
      SendFailureCase.st
    = (Ok {| status := 200;
             body := "Existing record updated and notifications sent." |}, st2) /\
    head (console st2) = Some "Notification error SMTP delivery failed: u1@ins.com".
Proof.
  destruct (C10_notification_failure_keeps_200 Demo.env Demo.world
              SendFailureCase.tp SendFailureCase.req SendFailureCase.st
              "A@X.com" (Demo.pdf "addendum.pdf")
              (fst (fst (fst SendFailureCase.outcome)))
              (snd (fst (fst SendFailureCase.outcome)))
              (snd (fst SendFailureCase.outcome))
              (snd SendFailureCase.outcome)
              (snd SendFailureCase.before)
              eq_refl eq_refl eq_refl)
    as (st2 & Hresp & Hlog).
  - vm_compute. reflexivity.
  - exists st2. split; [exact Hresp|].
    apply (Hlog (Err "SMTP delivery failed: u1@ins.com")).
    + vm_compute. discriminate.
    + vm_compute. reflexivity.
Defined.

(** *** The two-upload example, end to end *)

Example strings_checks :
  Str.trim (" Marine" +:+ nl) = "Marine" /\
  Str.LOWER "A@X.com" = "a@x.com" /\
  is_record_id "recABCDEFGH123456" = true /\
  is_record_id "recABCDEFGH12345" = false /\
  is_record_id "recABCDEFGH12345-" = false /\
  Str.split_comma "u2@ins.com,u3@ins.com" = ["u2@ins.com"; "u3@ins.com"] /\
  safeName "a b/#c.pdf" = "a b_c.pdf".
Proof. vm_compute. repeat split. Qed.

Example two_uploads_same_identity :
  fst TwoUploads.first
  = Ok {| status := 200; body := "New record created and notifications sent." |} /\
  fst TwoUploads.second
  = Ok {| status := 200; body := "Existing record updated and notifications sent." |} /\
  TwoUploads.cells "Email" (snd TwoUploads.second) = [Some (VStr "a@x.com")] /\
  TwoUploads.cells "Class of Business" (snd TwoUploads.first)
  = [Some (VArr [IStr "rec0"])] /\
  TwoUploads.cells "Class of Business" (snd TwoUploads.second)
  = [Some (VArr [IStr "rec0"])] /\
  TwoUploads.cells "More Information" (snd TwoUploads.second)
  = [Some (VStr ("n1" +:+ nl +:+ "n2"))] /\
  TwoUploads.cells "Uploaded File" (snd TwoUploads.second)
  = [Some (VArr
       [IFile "https://intake.nyc3.digitaloceanspaces.com/applications/2024-05/uuid-1-report.pdf"
          "report.pdf";
        IFile "https://intake.nyc3.digitaloceanspaces.com/applications/2024-05/uuid-1-addendum.pdf"
          "addendum.pdf"])] /\
  writes (trace (snd TwoUploads.second)) = 3.
Proof. vm_compute. repeat split. Qed.

(** * Further properties *)

(** ** Text helpers *)

Lemma safeName_from_safe (b : bool) (s : string) :
  Str.all_chars Str.is_safe (Str.safeName_from b s) = true.
Proof.
  revert b. induction s as [|c r IH]; intros b; simpl; [reflexivity|].
  destruct (Str.is_safe c) eqn:Ec; simpl.
  - rewrite Ec. apply IH.
  - destruct b; simpl; apply IH.
Qed.

Lemma safeName_from_fixed (b : bool) (s : string) :
  Str.all_chars Str.is_safe s = true -> Str.safeName_from b s = s.
Proof.
  revert b. induction s as [|c r IH]; intros b H; simpl in *; [reflexivity|].
  apply andb_true_iff in H as [Hc Hr]. rewrite Hc, (IH false Hr). reflexivity.
Qed.

Lemma safeName_from_length (b : bool) (s : string) :
  String.length (Str.safeName_from b s) <= String.length s.
Proof.
  revert b. induction s as [|c r IH]; intros b; simpl; [lia|].
  destruct (Str.is_safe c); simpl.
  - specialize (IH false). lia.
  - destruct b; simpl; specialize (IH true); lia.
Qed.

(** X1.  [safeName] returns only characters of the kept set (letters,
    digits, underscore, dot, hyphen, parentheses, plus, space); it leaves a
    name made of such characters as it is, so applying it twice changes
    nothing more; and it never lengthens a name. *)
Theorem safeName_sanitizes (name : string) :
  Str.all_chars Str.is_safe (safeName name) = true /\
  (Str.all_chars Str.is_safe name = true -> safeName name = name) /\
  safeName (safeName name) = safeName name /\
  String.length (safeName name) <= String.length name.
Proof.
  unfold safeName. split; [apply safeName_from_safe|].
  split; [apply safeName_from_fixed|].
  split; [apply safeName_from_fixed, safeName_from_safe | apply safeName_from_length].
Qed.

Lemma safeName_sanitizes_witness :
  safeName "report (v2).pdf" = "report (v2).pdf".
Proof.
  destruct (safeName_sanitizes "report (v2).pdf") as (_ & Hfix & _).
  apply Hfix. reflexivity.
Defined.

Lemma escape_guarded (prev : bool) (s : string) :
  quotes_guarded prev (escapeForAirtableFormulaDoubleQuotes s) = true.
Proof.
  revert prev. induction s as [|c r IH]; intros prev; simpl; [reflexivity|].
  destruct (Ascii.eqb c quote_char) eqn:Ec; simpl.
  - apply IH.
  - rewrite Ec. simpl. apply IH.
Qed.

Lemma escape_length (s : string) :
  String.length (escapeForAirtableFormulaDoubleQuotes s)
  = String.length s + count_char quote_char s.
Proof.
  induction s as [|c r IH]; simpl; [reflexivity|].
  destruct (Ascii.eqb c quote_char); simpl; rewrite IH; lia.
Qed.

Lemma escape_quote_free (s : string) :
  count_char quote_char s = 0 <-> escapeForAirtableFormulaDoubleQuotes s = s.
Proof.
  split.
  - induction s as [|c r IH]; simpl; [reflexivity|].
    destruct (Ascii.eqb c quote_char); [discriminate|].
    intros H. rewrite (IH H). reflexivity.
  - intros H. pose proof (escape_length s) as Hl. rewrite H in Hl. lia.
Qed.

(** X2.  In the escaped text every double quote directly follows a
    backslash; the text grows by one character per quote of the input; and
    the input comes back unchanged exactly when it holds no quote
    (backslashes of the input are not escaped). *)
Theorem escape_double_quotes (s : string) :
  quotes_guarded false (escapeForAirtableFormulaDoubleQuotes s) = true /\
  String.length (escapeForAirtableFormulaDoubleQuotes s)
  = String.length s + count_char quote_char s /\
  (count_char quote_char s = 0 <-> escapeForAirtableFormulaDoubleQuotes s = s).
Proof.
  split; [apply escape_guarded|]. split; [apply escape_length | apply escape_quote_free].
Qed.

Lemma escape_double_quotes_witness :
  escapeForAirtableFormulaDoubleQuotes "a@x.com" = "a@x.com" /\
  String.length (escapeForAirtableFormulaDoubleQuotes ("say " +:+ dq +:+ "hi" +:+ dq))
  = 10.
Proof.
  split.
  - destruct (escape_double_quotes "a@x.com") as (_ & _ & Hfree).
    apply Hfree. reflexivity.
  - destruct (escape_double_quotes ("say " +:+ dq +:+ "hi" +:+ dq)) as (_ & Hlen & _).
    rewrite Hlen. reflexivity.
Defined.

Lemma escape_head_not_quote (u rest : string) :
  escapeForAirtableFormulaDoubleQuotes u <> String quote_char rest.
Proof.
  destruct u as [|e u]; simpl; [discriminate|].
  destruct (Ascii.eqb e quote_char) eqn:E; intros H; inversion H.
  subst e. rewrite Ascii.eqb_refl in E. discriminate.
Qed.

Lemma escape_inj (s t : string) :
  escapeForAirtableFormulaDoubleQuotes s = escapeForAirtableFormulaDoubleQuotes t ->
  s = t.
Proof.
  revert t. induction s as [|c r IH]; intros [|d u]; simpl.
  - reflexivity.
  - destruct (Ascii.eqb d quote_char); discriminate.
  - destruct (Ascii.eqb c quote_char); discriminate.
  - destruct (Ascii.eqb c quote_char) eqn:Ec, (Ascii.eqb d quote_char) eqn:Ed.
    + intros [= H]. apply Ascii.eqb_eq in Ec, Ed. subst. f_equal. apply IH, H.
    + intros [= _ Ht]. symmetry in Ht. destruct (escape_head_not_quote _ _ Ht).
    + intros [= _ Ht]. destruct (escape_head_not_quote _ _ Ht).
    + intros [= -> Ht]. f_equal. apply IH, Ht.
Qed.

Lemma append_cons (c : ascii) (r t : string) :
  String c r +:+ t = String c (r +:+ t).
Proof. reflexivity. Qed.

Lemma append_length (s t : string) :
  String.length (s +:+ t) = String.length s + String.length t.
Proof.
  induction s as [|c r IH]; [reflexivity|].
  rewrite append_cons. cbn [String.length]. rewrite IH. reflexivity.
Qed.

Lemma append_assoc (a b c : string) : (a +:+ b) +:+ c = a +:+ (b +:+ c).
Proof.
  induction a as [|x a IH]; [reflexivity|].
  rewrite !append_cons, IH. reflexivity.
Qed.

Lemma append_empty_r (a : string) : a +:+ "" = a.
Proof. induction a as [|x a IH]; [reflexivity|]. rewrite append_cons, IH. reflexivity. Qed.

Lemma append_inv_tail (s1 s2 t : string) : s1 +:+ t = s2 +:+ t -> s1 = s2.
Proof.
  revert s2. induction s1 as [|c r IH]; intros [|d u] H.
  - reflexivity.
  - apply (f_equal String.length) in H. rewrite !append_length in H.
    cbn [String.length] in H. lia.
  - apply (f_equal String.length) in H. rewrite !append_length in H.
    cbn [String.length] in H. lia.
  - rewrite !append_cons in H. injection H as -> H. f_equal. apply IH, H.
Qed.

(** X3.  The lookup formula determines the value it was built from: two
    different values (two submitter addresses, two class names) never give
    the same [LOWER(..) = LOWER(..)] text for a field. *)
Theorem lookup_formula_text_inj (field v1 v2 : string) :
  formula_text (LowerEq field v1) = formula_text (LowerEq field v2) -> v1 = v2.
Proof.
  unfold formula_text. intros H.
  apply (inj (String.append _)) in H.
  apply (inj (String.append _)) in H.
  apply (inj (String.append _)) in H.
  apply (inj (String.append _)) in H.
  apply append_inv_tail in H. apply escape_inj in H. exact H.
Qed.

Lemma lookup_formula_text_inj_witness :
  formula_text (LowerEq "Email" "a@x.com")
  = "LOWER({Email}) = LOWER(" +:+ dq +:+ "a@x.com" +:+ dq +:+ ")" /\
  "a@x.com" = "a@x.com".
Proof.
  split; [reflexivity|].
  apply (lookup_formula_text_inj "Email" "a@x.com" "a@x.com"). reflexivity.
Defined.

(** ** Trimming *)

Lemma rev_app (s t : string) : Str.rev (s +:+ t) = Str.rev t +:+ Str.rev s.
Proof.
  induction s as [|c r IH].
  - change (Str.rev t = Str.rev t +:+ ""). symmetry. apply append_empty_r.
  - rewrite append_cons. cbn [Str.rev]. rewrite IH. apply append_assoc.
Qed.

Lemma rev_involutive (s : string) : Str.rev (Str.rev s) = s.
Proof.
  induction s as [|c r IH]; [reflexivity|].
  cbn [Str.rev]. rewrite rev_app, IH. reflexivity.
Qed.

Section Strip.

Variables (w2 : ascii -> ascii -> bool) (w3 : ascii -> ascii -> ascii -> bool).

Lemma strip_fixed (s : string) : heads w2 w3 s = false -> Str.strip w2 w3 s = s.
Proof.
  destruct s as [|a [|b [|c r]]]; cbn [heads Str.strip]; try reflexivity.
  - destruct (Str.is_ws a); [discriminate | reflexivity].
  - destruct (Str.is_ws a); [discriminate|].
    destruct (w2 a b); [discriminate | reflexivity].
  - destruct (Str.is_ws a); [discriminate|].
    destruct (w2 a b); [discriminate|].
    destruct (w3 a b c); [discriminate | reflexivity].
Qed.

Lemma strip_clean_upto (n : nat) (s : string) :
  String.length s <= n -> heads w2 w3 (Str.strip w2 w3 s) = false.
Proof.
  revert s. induction n as [|n IH]; intros s Hl.
  - destruct s; [reflexivity | simpl in Hl; lia].
  - destruct s as [|a r]; [reflexivity|].
    cbn [Str.strip]. destruct (Str.is_ws a) eqn:Ea.
    { apply IH. simpl in Hl. lia. }
    destruct r as [|b r2]; [simpl; rewrite Ea; reflexivity|].
    destruct (w2 a b) eqn:Eb.
    { apply IH. simpl in Hl. lia. }
    destruct r2 as [|c r3]; [simpl; rewrite Ea, Eb; reflexivity|].
    destruct (w3 a b c) eqn:Ec.
    { apply IH. simpl in Hl. lia. }
    simpl. rewrite Ea, Eb, Ec. reflexivity.
Qed.

Lemma strip_clean (s : string) : heads w2 w3 (Str.strip w2 w3 s) = false.
Proof. apply (strip_clean_upto (String.length s)). lia. Qed.

Lemma strip_idem (s : string) :
  Str.strip w2 w3 (Str.strip w2 w3 s) = Str.strip w2 w3 s.
Proof. apply strip_fixed, strip_clean. Qed.

(** What [strip] returns is the end of its argument. *)
Lemma strip_suffix_upto (n : nat) (s : string) :
  String.length s <= n -> exists x, s = x +:+ Str.strip w2 w3 s.
Proof.
  revert s. induction n as [|n IH]; intros s Hl.
  - destruct s; [exists ""; reflexivity | simpl in Hl; lia].
  - destruct s as [|a r]; [exists ""; reflexivity|].
    cbn [Str.strip]. destruct (Str.is_ws a).
    { destruct (IH r) as [x Hx]; [simpl in Hl; lia|].
      exists (String a x). rewrite append_cons, <- Hx. reflexivity. }
    destruct r as [|b r2]; [exists ""; reflexivity|].
    destruct (w2 a b).
    { destruct (IH r2) as [x Hx]; [simpl in Hl; lia|].
      exists (String a (String b x)). rewrite !append_cons, <- Hx. reflexivity. }
    destruct r2 as [|c r3]; [exists ""; reflexivity|].
    destruct (w3 a b c); [|exists ""; reflexivity].
    destruct (IH r3) as [x Hx]; [simpl in Hl; lia|].
    exists (String a (String b (String c x))). rewrite !append_cons, <- Hx. reflexivity.
Qed.

Lemma strip_suffix (s : string) : exists x, s = x +:+ Str.strip w2 w3 s.
Proof. apply (strip_suffix_upto (String.length s)). lia. Qed.

(** A text that does not begin with white space has no beginning that
    does. *)
Lemma heads_prefix (p q : string) :
  heads w2 w3 (p +:+ q) = false -> heads w2 w3 p = false.
Proof.
  destruct p as [|a [|b [|c r]]]; [reflexivity| | |].
  - change (heads w2 w3 (String a q) = false -> heads w2 w3 (String a "") = false).
    cbn [heads]. destruct (Str.is_ws a); [discriminate | reflexivity].
  - change (heads w2 w3 (String a (String b q)) = false
            -> heads w2 w3 (String a (String b "")) = false).
    cbn [heads]. destruct (Str.is_ws a); [discriminate|].
    destruct (w2 a b); [discriminate | reflexivity].
  - rewrite !append_cons. exact (fun H => H).
Qed.

End Strip.

Lemma trim_idem (s : string) : Str.trim (Str.trim s) = Str.trim s.
Proof.
  unfold Str.trim, Str.trim_end, Str.trim_start.
  set (L := Str.strip Str.is_ws2 Str.is_ws3).
  set (R := Str.strip (fun a b => Str.is_ws2 b a) (fun a b c => Str.is_ws3 c b a)).
  set (t := L s).
  assert (L (Str.rev (R (Str.rev t))) = Str.rev (R (Str.rev t))) as Hfix.
  { apply strip_fixed.
    destruct (strip_suffix (fun a b => Str.is_ws2 b a) (fun a b c => Str.is_ws3 c b a)
                (Str.rev t)) as [x Hx].
    fold R in Hx.
    apply (heads_prefix _ _ _ (Str.rev x)).
    rewrite <- rev_app, <- Hx, rev_involutive. apply strip_clean. }
  rewrite Hfix, rev_involutive. unfold R. rewrite strip_idem. reflexivity.
Qed.

(** ** Store helpers *)

Lemma find_split {A} (p : A -> bool) (l : list A) (x : A) :
  List.find p l = Some x ->
  exists pre post,
    l = pre ++ x :: post /\ p x = true /\ (forall y, In y pre -> p y = false).
Proof.
  induction l as [|a l IH]; simpl; [discriminate|].
  destruct (p a) eqn:E.
  - intros [= ->]. exists [], l. repeat split; auto. intros y [].
  - intros H. destruct (IH H) as (pre & post & -> & Hx & Hpre).
    exists (a :: pre), post. repeat split; auto.
    intros y [<-|Hy]; auto.
Qed.

(** The lookup by address once the store has read the formula: the first
    row, in table order, whose cell equals the address up to letter case
    (the whole text, not a part of it), and nothing when no row does; the
    table is read once and nothing changes; on a table the base does not
    hold the lookup throws. *)
Lemma findSubmissionByEmail_cases (tableId emailField email : string)
    (st : State) :
  (forall rows, base st !! tableId = Some rows ->
     exists found,
       findSubmissionByEmail tableId emailField email st
       = (Ok found, with_base st (base st) (next_id st) (StoreRead tableId)) /\
       match found with
       | Some r =>
           exists pre post,
             rows = pre ++ r :: post /\
             Str.LOWER (cell_text (get r emailField)) = Str.LOWER email /\
             (forall y, In y pre ->
                Str.LOWER (cell_text (get y emailField)) <> Str.LOWER email)
       | None =>
           forall y, In y rows ->
             Str.LOWER (cell_text (get y emailField)) <> Str.LOWER email
       end) /\
  (base st !! tableId = None ->
   findSubmissionByEmail tableId emailField email st = (Throw (Err "NOT_FOUND"), st)).
Proof.
  unfold findSubmissionByEmail. split.
  - intros rows Hrows. eexists. split; [apply (airtableFindOne_run _ _ _ _ Hrows)|].
    fold (matches_ci emailField email).
    destruct (List.find (matches_ci emailField email) rows) as [r|] eqn:Hf.
    + destruct (find_split _ _ _ Hf) as (pre & post & -> & Hr & Hpre).
      exists pre, post. split; [reflexivity|]. split; [apply matches_ci_spec, Hr|].
      intros y Hy Heq. apply matches_ci_spec in Heq. rewrite (Hpre y Hy) in Heq.
      discriminate.
    + intros y Hy Heq. apply matches_ci_spec in Heq.
      rewrite (find_none _ _ Hf y Hy) in Heq. discriminate.
  - apply airtableFindOne_missing.
Qed.

(** Once the store has read the formula, a second get-or-create with a
    name that differs at most in case returns the id the first call
    returned and writes nothing, whether the first call found the class or
    created it. *)
Lemma getOrCreate_twice (env : ProcessEnv) (name name' : string)
    (st : State) (rows : list ATRecord) :
  Str.nonempty name = true ->
  Str.nonempty name' = true ->
  Str.LOWER name = Str.LOWER name' ->
  base st !! CLASS_TABLE_ID env = Some rows ->
  exists id st1 st2,
    getOrCreateClassIdByName env name st = (Ok (Some id), st1) /\
    getOrCreateClassIdByName env name' st1 = (Ok (Some id), st2) /\
    base st2 = base st1 /\
    write_log (trace st2) = write_log (trace st1).
Proof.
  intros Hn Hn' Hsame Hrows.
  destruct (List.find (matches_ci "Name" name) rows) as [r|] eqn:Hf.
  - eexists _, _, _.
    split; [apply (getOrCreate_found env name st Hn rows r Hrows Hf)|].
    split.
    + apply (getOrCreate_found env name' _ Hn' rows r); [exact Hrows|].
      rewrite <- (matches_ci_same_identity "Name" name name' Hsame). exact Hf.
    + split; reflexivity.
  - set (created := {| rec_id := mkid (next_id st);
                       rec_fields := {[ "Name" := VStr name ]} |}).
    eexists _, _, _.
    split; [apply (getOrCreate_created env name st Hn rows Hrows Hf)|].
    split.
    + apply (getOrCreate_found env name' _ Hn' (rows ++ [created]) created).
      * cbn [base]. apply lookup_insert_eq.
      * rewrite <- (matches_ci_same_identity "Name" name name' Hsame).
        apply find_snoc; [exact Hf|].
        apply matches_ci_text. unfold get, created. cbn [rec_fields].
        apply lookup_singleton_eq.
    + split; reflexivity.
Qed.

(** ** What a computation adds to the trace *)

Section Keeps.

Variable p : Event -> bool.

Lemma keeps_ret {A} (a : A) : keeps p (ret a).
Proof. intros st. reflexivity. Qed.

Lemma keeps_throw {A} (e : Error) : keeps p (@throw A e).
Proof. intros st. reflexivity. Qed.

Lemma keeps_bind {A B} (m : M A) (k : A -> M B) :
  keeps p m -> (forall a, keeps p (k a)) -> keeps p (bind m k).
Proof.
  intros Hm Hk st. unfold bind. specialize (Hm st).
  destruct (m st) as [[a|e] st1]; simpl in *; [|exact Hm].
  rewrite (Hk a st1). exact Hm.
Qed.

Lemma keeps_try_catch {A} (m : M A) (h : Error -> M A) :
  keeps p m -> (forall e, keeps p (h e)) -> keeps p (try_catch m h).
Proof.
  intros Hm Hh st. unfold try_catch. specialize (Hm st).
  destruct (m st) as [[a|e] st1]; simpl in *; [exact Hm|].
  rewrite (Hh e st1). exact Hm.
Qed.

Lemma keeps_console_error (msg : string) : keeps p (console_error msg).
Proof. intros st. reflexivity. Qed.

Lemma keeps_emit (ev : Event) : p ev = false -> keeps p (emit ev).
Proof. intros H st. simpl. rewrite H. reflexivity. Qed.

Lemma keeps_promise_all {A} (ms : list (M A)) :
  (forall m, In m ms -> keeps p m) -> keeps p (promise_all ms).
Proof.
  induction ms as [|m rest IH]; intros H st; [reflexivity|].
  cbn [promise_all].
  pose proof (H m (or_introl eq_refl) st) as Hm.
  destruct (m st) as [r st1]. simpl in Hm.
  assert (forall m', In m' rest -> keeps p m') as Hrest by (intros; apply H; right; auto).
  pose proof (IH Hrest st1) as Hr.
  destruct (promise_all rest st1) as [rs st2]. simpl in *. congruence.
Qed.

Hypothesis Hread : forall t, p (StoreRead t) = false.

Lemma keeps_select (t : string) (f : Formula) : keeps p (select t f).
Proof.
  intros st. unfold select. destruct (base st !! t); simpl; [|reflexivity].
  rewrite Hread. reflexivity.
Qed.

Lemma keeps_find (t id : string) : keeps p (find t id).
Proof.
  intros st. unfold find. destruct (base st !! t) as [rows|]; simpl; [|reflexivity].
  destruct (List.find (has_id id) rows); simpl; [|reflexivity].
  rewrite Hread. reflexivity.
Qed.

Lemma keeps_airtableFindOne (t : string) (f : Formula) : keeps p (airtableFindOne t f).
Proof.
  unfold airtableFindOne. apply keeps_bind; [apply keeps_select|].
  intros a. apply keeps_ret.
Qed.

Lemma keeps_resolveClass (env : ProcessEnv) (cls : option string) (email : string) :
  keeps p (resolveClass env cls email).
Proof.
  unfold resolveClass.
  destruct (negb _ && _); [|apply keeps_ret].
  apply keeps_bind; [apply keeps_airtableFindOne|].
  intros [r|]; [|apply keeps_ret].
  destruct (value_truthy _); apply keeps_ret.
Qed.

Lemma keeps_fetchClassName (env : ProcessEnv) (id dflt : string) :
  keeps p (fetchClassName env id dflt).
Proof.
  unfold fetchClassName. apply keeps_try_catch.
  - apply keeps_bind; [apply keeps_find|]. intros r.
    destruct (value_truthy _); apply keeps_ret.
  - intros e. apply keeps_bind; [apply keeps_console_error|]. intros _. apply keeps_ret.
Qed.

Lemma keeps_underwriterMatch (env : ProcessEnv) (rid : option string) (name : string) :
  keeps p (underwriterMatch env rid name).
Proof.
  unfold underwriterMatch. destruct (_ && _); [|apply keeps_ret].
  apply keeps_bind.
  - destruct (truthy rid); [apply keeps_select | apply keeps_ret].
  - intros byLink. apply keeps_bind; [|intros; apply keeps_ret].
    destruct byLink; [|apply keeps_ret].
    destruct (Str.nonempty name); [apply keeps_select | apply keeps_ret].
Qed.

Lemma keeps_resolveRecipients (env : ProcessEnv) (rid : option string) (name : string) :
  keeps p (resolveRecipients env rid name).
Proof.
  unfold resolveRecipients. apply keeps_bind; [apply keeps_underwriterMatch|].
  intros; apply keeps_ret.
Qed.

End Keeps.

Lemma keeps_uploadToSpaces (p : Event -> bool) (env : ProcessEnv) (w : World) (f : File) :
  (forall k, p (SpacesPut k) = false) -> keeps p (uploadToSpaces env w f).
Proof.
  intros Hp. unfold uploadToSpaces. destruct (spaces_accepts w); [|apply keeps_throw].
  apply keeps_bind; [apply keeps_emit, Hp | intros; apply keeps_ret].
Qed.

Lemma keeps_create (p : Event -> bool) (t : string) (fields : gmap string Value) :
  (forall r, p (StoreCreate t r) = false) -> keeps p (create t fields).
Proof.
  intros Hc st. unfold create. destruct (base st !! t); simpl; [|reflexivity].
  rewrite Hc. reflexivity.
Qed.

Lemma keeps_update (p : Event -> bool) (t id : string) (patch : gmap string Value) :
  p (StoreUpdate t id patch) = false -> keeps p (update t id patch).
Proof.
  intros Hu st. unfold update. destruct (base st !! t) as [rows|]; simpl; [|reflexivity].
  destruct (List.find (has_id id) rows); simpl; [|reflexivity].
  rewrite Hu. reflexivity.
Qed.

Section KeepsTables.

Variable p : Event -> bool.
Variable env : ProcessEnv.
Hypothesis Hread : forall t, p (StoreRead t) = false.
Hypothesis Hclass : forall r, p (StoreCreate (CLASS_TABLE_ID env) r) = false.
Hypothesis Hcreate : forall r, p (StoreCreate (AIRTABLE_APPS_TABLE env) r) = false.
Hypothesis Hupdate :
  forall id patch, p (StoreUpdate (AIRTABLE_APPS_TABLE env) id patch) = false.

Lemma keeps_getOrCreate (name : string) :
  keeps p (getOrCreateClassIdByName env name).
Proof.
  unfold getOrCreateClassIdByName. destruct (negb _); [apply keeps_ret|].
  apply keeps_bind; [apply keeps_airtableFindOne, Hread|].
  intros [r|]; [apply keeps_ret|].
  apply keeps_bind; [apply keeps_create, Hclass | intros; apply keeps_ret].
Qed.

Lemma keeps_resolveLinkedClass (c : string) : keeps p (resolveLinkedClass env c).
Proof.
  unfold resolveLinkedClass. destruct (Str.nonempty c); [|apply keeps_ret].
  apply keeps_bind.
  - destruct (is_record_id c); [apply keeps_ret | apply keeps_getOrCreate].
  - intros rid. destruct (truthy rid); [|apply keeps_ret].
    apply keeps_bind; [apply keeps_fetchClassName, Hread | intros; apply keeps_ret].
Qed.

Lemma keeps_upsertByEmail (email : string) (moreInfo : option string)
    (link : list string) (url fn : string) :
  keeps p (upsertByEmail env email moreInfo link url fn).
Proof.
  unfold upsertByEmail, findSubmissionByEmail.
  apply keeps_bind; [apply keeps_airtableFindOne, Hread|].
  intros [ex|]; (apply keeps_bind; [|intros; apply keeps_ret]).
  - apply keeps_update, Hupdate.
  - apply keeps_create, Hcreate.
Qed.

Lemma keeps_reconcile (email c : string) (moreInfo : option string) (url fn : string) :
  keeps p (reconcile env email c moreInfo url fn).
Proof.
  unfold reconcile. apply keeps_bind; [apply keeps_resolveLinkedClass|].
  intros [[link rid] name].
  apply keeps_bind; [apply keeps_upsertByEmail | intros; apply keeps_ret].
Qed.

End KeepsTables.

(** ** Mail transports *)

Lemma keeps_sendMail (p : Event -> bool) (w : Transports) (t : Transporter)
    (from to subject html : string) :
  p (SmtpSend to) = false -> keeps p (sendMail w t from to subject html).
Proof.
  intros Hp. unfold sendMail. apply keeps_bind; [apply keeps_emit, Hp|].
  intros _. destruct (smtp_accepts w to); [apply keeps_ret | apply keeps_throw].
Qed.

Lemma keeps_sendEmails (p : Event -> bool) (env : ProcessEnv) (w : Transports)
    (list : list string) (subject html : string) :
  (forall to, p (SmtpSend to) = false) ->
  (forall l, p (BrevoPost l) = false) ->
  keeps p (sendEmails env w list subject html).
Proof.
  intros Hs Hb.
  assert (forall t, keeps p (smtpAll env w t list subject html)) as Hall.
  { intros [t|]; unfold smtpAll.
    - apply keeps_bind; [|intros; apply keeps_ret].
      apply keeps_promise_all. intros m Hm. apply in_map_iff in Hm as (to & <- & _).
      apply keeps_sendMail, Hs.
    - destruct list; [apply keeps_ret | apply keeps_throw]. }
  unfold sendEmails. destruct (truthy (BREVO_API_KEY env)); [|apply Hall].
  apply keeps_try_catch.
  - unfold sendEmailBrevo. destruct (negb _); [apply keeps_throw|].
    apply keeps_bind; [apply keeps_emit, Hb|]. intros _.
    destruct (brevo_answer w) as [s t|msg]; [|apply keeps_throw].
    destruct (response_ok s); [apply keeps_ret | apply keeps_throw].
  - intros e. apply keeps_bind; [apply keeps_console_error|]. intros _.
    destruct (transporter env); [apply Hall | apply keeps_throw].
Qed.

Lemma promise_all_sendMail_run (env : ProcessEnv) (w : Transports) (t : Transporter)
    (subject html : string) (list : list string) (st : State) :
  let run := promise_all
               (map (fun to => sendMail w t (SMTP_FROM env) to subject html) list) st in
  trace (snd run) = rev (map SmtpSend list) ++ trace st /\
  completed (fst run) = forallb (smtp_accepts w) list.
Proof.
  revert st. induction list as [|to rest IH]; intros st; [split; reflexivity|].
  cbn [map promise_all].
  assert (sendMail w t (SMTP_FROM env) to subject html st
          = (if smtp_accepts w to then Ok tt
             else Throw (Err ("SMTP delivery failed: " +:+ to)),
             {| base := base st; next_id := next_id st;
                trace := SmtpSend to :: trace st; console := console st |})) as ->.
  { unfold sendMail, bind, emit. simpl. destruct (smtp_accepts w to); reflexivity. }
  match goal with |- context [promise_all ?ms ?s] =>
    destruct (IH s) as [Htr Hok]; destruct (promise_all ms s) as [rs st2] end.
  simpl in *. split.
  - rewrite Htr, <- app_assoc. reflexivity.
  - destruct (smtp_accepts w to); simpl; [|reflexivity].
    destruct rs; simpl in *; exact Hok.
Qed.

(** X7.  Without an API key [sendEmails] hands every recipient to the SMTP
    client exactly once, in list order, whether or not earlier ones were
    refused; it makes no call to the HTTP API; and it resolves exactly when
    every recipient was accepted. *)
Theorem sendEmails_smtp_path (env : ProcessEnv) (w : Transports)
    (list : list string) (subject html : string) (st : State) :
  truthy (BREVO_API_KEY env) = false ->
  trace (snd (sendEmails env w list subject html st))
  = rev (map SmtpSend list) ++ trace st /\
  completed (fst (sendEmails env w list subject html st))
  = forallb (smtp_accepts w) list.
Proof.
  intros Hk. unfold sendEmails. rewrite Hk, (transporter_some_without_key _ Hk).
  unfold smtpAll, bind.
  pose proof (promise_all_sendMail_run env w
                {| auth_user := SMTP_USER env; auth_pass := SMTP_PASS env |}
                subject html list st) as [Htr Hok].
  destruct (promise_all _ st) as [[l|e] st']; simpl in *; auto.
Qed.

Lemma sendEmails_smtp_path_witness :
  trace (snd (sendEmails Demo.env
                (Demo.transports (BrevoResponse 200 "") (String.eqb "u2@ins.com"))
                ["u1@ins.com"; "u2@ins.com"] "s" "h" (Demo.st0 [])))
  = [SmtpSend "u2@ins.com"; SmtpSend "u1@ins.com"] /\
  completed (fst (sendEmails Demo.env
                (Demo.transports (BrevoResponse 200 "") (String.eqb "u2@ins.com"))
                ["u1@ins.com"; "u2@ins.com"] "s" "h" (Demo.st0 [])))
  = false.
Proof.
  apply (sendEmails_smtp_path Demo.env
           (Demo.transports (BrevoResponse 200 "") (String.eqb "u2@ins.com"))
           ["u1@ins.com"; "u2@ins.com"] "s" "h" (Demo.st0 [])).
  reflexivity.
Defined.

(** X8.  With an API key [sendEmails] issues exactly one POST that carries
    the whole recipient list, never an SMTP message, and it resolves exactly
    when the answer is a 2xx response. *)
Theorem sendEmails_api_path (env : ProcessEnv) (w : Transports)
    (list : list string) (subject html : string) (st : State) :
  truthy (BREVO_API_KEY env) = true ->
  trace (snd (sendEmails env w list subject html st)) = BrevoPost list :: trace st /\
  completed (fst (sendEmails env w list subject html st))
  = match brevo_answer w with
    | BrevoResponse status _ => response_ok status
    | BrevoNetworkError _ => false
    end.
Proof.
  intros Hk. split; [apply sendEmails_key_trace, Hk|].
  destruct (brevo_failure w) as [e|] eqn:Hf.
  - rewrite (sendEmails_key_failure env w list subject html st e Hk Hf).
    unfold brevo_failure in Hf.
    destruct (brevo_answer w) as [s t|m]; [|reflexivity].
    destruct (response_ok s); [discriminate | reflexivity].
  - rewrite (sendEmails_key_success env w list subject html st Hk Hf).
    unfold brevo_failure in Hf.
    destruct (brevo_answer w) as [s t|m]; [|discriminate].
    destruct (response_ok s); [reflexivity | discriminate].
Qed.

Lemma sendEmails_api_path_witness :
  trace (snd FallbackCase.run) = [BrevoPost ["u1@ins.com"]] /\
  completed (fst FallbackCase.run) = false.
Proof.
  apply (sendEmails_api_path FallbackCase.env FallbackCase.answers
           ["u1@ins.com"] "subject" "html" FallbackCase.st).
  reflexivity.
Defined.

Lemma keeps_notifyAndRespond (p : Event -> bool) (env : ProcessEnv) (tp : Transports)
    (existing : option ATRecord) (notify : list string) (subject html : string) :
  (forall to, p (SmtpSend to) = false) ->
  (forall l, p (BrevoPost l) = false) ->
  keeps p (notifyAndRespond env tp existing notify subject html).
Proof.
  intros Hs Hb. unfold notifyAndRespond.
  apply keeps_bind; [|intros; apply keeps_ret].
  apply keeps_try_catch; [|intros; apply keeps_console_error].
  destruct notify; [apply keeps_ret | apply keeps_sendEmails; assumption].
Qed.

(** X9.  The notification step issues no store write and no upload,
    whatever the transports answer: after it the writes and the puts in the
    trace are those from before. *)
Theorem notifyAndRespond_leaves_store (env : ProcessEnv) (tp : Transports)
    (existing : option ATRecord) (notify : list string) (subject html : string)
    (st : State) :
  write_log (trace (snd (notifyAndRespond env tp existing notify subject html st)))
  = write_log (trace st) /\
  puts (trace (snd (notifyAndRespond env tp existing notify subject html st)))
  = puts (trace st).
Proof.
  split.
  - apply (keeps_notifyAndRespond is_write); reflexivity.
  - unfold puts. rewrite (keeps_notifyAndRespond is_put); reflexivity.
Qed.

(** ** Recipients *)

Lemma existsb_eqb_In (x : string) (l : list string) :
  existsb (String.eqb x) l = true <-> In x l.
Proof.
  rewrite existsb_exists. split.
  - intros (y & Hy & E). apply String.eqb_eq in E. subst. exact Hy.
  - intros H. exists x. split; [exact H | apply String.eqb_refl].
Qed.

Lemma uniq_from_sound (seen l : list string) (x : string) :
  In x (uniq_from seen l) -> In x l /\ ~ In x seen.
Proof.
  revert seen. induction l as [|y r IH]; intros seen; simpl; [intros []|].
  destruct (existsb (String.eqb y) seen) eqn:E.
  - intros H. destruct (IH _ H). auto.
  - intros [<-|H].
    + split; [auto|]. intros Hin. apply existsb_eqb_In in Hin. congruence.
    + destruct (IH _ H) as [Hr Hs]. split; [auto|]. intros Hin. apply Hs. right. exact Hin.
Qed.

Lemma uniq_from_complete (seen l : list string) (x : string) :
  In x l -> ~ In x seen -> In x (uniq_from seen l).
Proof.
  revert seen. induction l as [|y r IH]; intros seen; simpl; [intros []|].
  intros Hin Hs. destruct (existsb (String.eqb y) seen) eqn:E.
  - destruct Hin as [<-|Hin]; [|apply IH; assumption].
    apply existsb_eqb_In in E. contradiction.
  - destruct (String.eqb y x) eqn:Eyx.
    + apply String.eqb_eq in Eyx. left. exact Eyx.
    + right. destruct Hin as [->|Hin]; [rewrite String.eqb_refl in Eyx; discriminate|].
      apply IH; [exact Hin|]. intros [->|H]; [|contradiction].
      rewrite String.eqb_refl in Eyx. discriminate.
Qed.

Lemma uniq_from_NoDup (seen l : list string) : NoDup (uniq_from seen l).
Proof.
  revert seen. induction l as [|y r IH]; intros seen; simpl; [apply NoDup_nil_2|].
  destruct (existsb (String.eqb y) seen); [apply IH|].
  apply NoDup_cons. split; [|apply IH].
  intros Hin. apply list_elem_of_In, uniq_from_sound in Hin as [_ Hs].
  apply Hs. left. reflexivity.
Qed.

(** The address list that [// underwriter match] builds from the cells. *)
Lemma normalized_recipients_clean (emails : list string) :
  let l := uniq_from [] (List.filter Str.nonempty (map Str.trim emails)) in
  NoDup l /\ Forall clean_address l /\
  (forall a, In a l <-> (Str.nonempty a = true /\ In a (map Str.trim emails))).
Proof.
  cbv zeta. split; [apply uniq_from_NoDup|]. split.
  - apply Forall_forall. intros a Ha.
    apply list_elem_of_In, uniq_from_sound in Ha as [Ha _].
    apply filter_In in Ha as [Ha Hne]. split; [exact Hne|].
    apply in_map_iff in Ha as (e & <- & _). apply trim_idem.
  - intros a. split.
    + intros Ha. apply uniq_from_sound in Ha as [Ha _].
      apply filter_In in Ha as [Ha Hne]. auto.
    + intros [Hne Ha]. apply uniq_from_complete; [|intros []].
      apply filter_In. auto.
Qed.



(** ** The upsert, row by row *)

Section MoreFields.

Variable env : ProcessEnv.
Hypothesis Hd : distinct_fields env.
Variables (email notes : string) (files : list Item) (link : list string).




End MoreFields.







(** ** Attachments and notes only grow *)

Lemma mergedNotes_extends (old : string) (moreInfo : option string) :
  exists more, mergedNotes old moreInfo = old +:+ more.
Proof.
  unfold mergedNotes. destruct (Str.nonempty old) eqn:Ho.
  - destruct (truthy moreInfo) eqn:Hm; simpl.
    + eexists. reflexivity.
    + exists "". rewrite append_empty_r.
      destruct moreInfo as [s|]; simpl in *; [rewrite Hm|]; rewrite Ho; reflexivity.
  - destruct old; [|discriminate]. simpl. eexists. reflexivity.
Qed.

Lemma grows_refl (env : ProcessEnv) (r : ATRecord) : grows env r r.
Proof.
  split; [reflexivity|]. split.
  - exists []. symmetry. apply app_nil_r.
  - exists "". symmetry. apply append_empty_r.
Qed.

Lemma grows_trans (env : ProcessEnv) (a b c : ATRecord) :
  grows env a b -> grows env b c -> grows env a c.
Proof.
  intros (Hi1 & [f1 Hf1] & [n1 Hn1]) (Hi2 & [f2 Hf2] & [n2 Hn2]).
  split; [congruence|]. split.
  - exists (f1 ++ f2). rewrite Hf2, Hf1, app_assoc. reflexivity.
  - exists (n1 +:+ n2). rewrite Hn2, Hn1, append_assoc. reflexivity.
Qed.

Lemma Forall2_map_in {A B} (R : A -> B -> Prop) (f : A -> B) (l : list A) :
  (forall x, In x l -> R x (f x)) -> Forall2 R l (map f l).
Proof.
  induction l as [|x l IH]; intros H; simpl; constructor.
  - apply H. left. reflexivity.
  - apply IH. intros y Hy. apply H. right. exact Hy.
Qed.

Lemma Forall2_grows_refl (env : ProcessEnv) (l : list ATRecord) :
  Forall2 (grows env) l l.
Proof. induction l; constructor; [apply grows_refl | assumption]. Qed.

Section StepGrows.

Variable env : ProcessEnv.
Hypothesis Hd : distinct_fields env.
Hypothesis Htab : AIRTABLE_APPS_TABLE env <> CLASS_TABLE_ID env.

Variables (email c : string) (moreInfo : option string) (url fn : string).
Variables (st : State) (rows : list ATRecord).
Hypothesis Hrows : base st !! AIRTABLE_APPS_TABLE env = Some rows.
Hypothesis Hcls : is_Some (base st !! CLASS_TABLE_ID env).
Hypothesis Hnd : NoDup (map rec_id rows).
Hypothesis Hfresh : fresh_ids (next_id st) rows.

Lemma reconcile_step_grows :
  exists res st' kept added,
    reconcile env email c moreInfo url fn st = (Ok res, st') /\
    base st' !! AIRTABLE_APPS_TABLE env = Some (kept ++ added) /\
    is_Some (base st' !! CLASS_TABLE_ID env) /\
    NoDup (map rec_id (kept ++ added)) /\
    fresh_ids (next_id st') (kept ++ added) /\
    Forall2 (grows env) rows kept.
Proof.
  destruct (reconcile_step env Hd Htab email c moreInfo url fn st rows
              Hrows Hcls Hnd Hfresh)
    as (rid & name & st' & rows' & r & added0
        & Hrun & Hb & Hc & Hnd' & Hfr' & _).
  destruct (List.find (matches_ci (EMAIL_F env) email) rows) as [ex|] eqn:Hf.
  - destruct (reconcile_merge env email c moreInfo url fn st rows Htab Hrows
                (fun _ => Hcls) ex Hf)
      as (link & rid2 & name2 & st2 & Hrun2 & Hb2 & _).
    rewrite Hrun in Hrun2. injection Hrun2 as _ _ <-.
    rewrite Hb in Hb2. injection Hb2 as ->.
    set (P := merge_patch env email moreInfo link url fn ex) in *.
    exists (Some ex, rid, name), st', (map (patch_row (rec_id ex) P) rows), [].
    rewrite app_nil_r. repeat (split; [assumption|]).
    apply Forall2_map_in. intros x Hx.
    destruct (String.eqb (rec_id x) (rec_id ex)) eqn:E.
    + apply String.eqb_eq in E.
      assert (x = ex) as -> by
        (apply (NoDup_map_eq rec_id rows); auto; apply (find_some _ _ Hf)).
      split; [apply rec_id_patch_row|]. split.
      * exists [IFile url fn]. apply existingFiles_array, get_patched_hit.
        unfold P, merge_patch. apply updateFields_file, Hd.
      * destruct (mergedNotes_extends (existingNotes env ex) moreInfo) as [more Hm].
        exists more. rewrite <- Hm. apply existingNotes_text, get_patched_hit.
        unfold P, merge_patch. apply updateFields_notes, Hd.
    + apply String.eqb_neq in E. rewrite (patch_row_other _ _ _ E). apply grows_refl.
  - destruct (reconcile_create env email c moreInfo url fn st rows Htab Hrows
                (fun _ => Hcls) Hf)
      as (link & rid2 & name2 & st2 & n & Hrun2 & _ & _ & Hb2 & _).
    rewrite Hrun in Hrun2. injection Hrun2 as _ _ <-.
    rewrite Hb in Hb2. injection Hb2 as ->.
    exists (None, rid, name), st', rows,
      [created_row env email moreInfo link url fn n].
    repeat (split; [assumption|]). apply Forall2_grows_refl.
Qed.

End StepGrows.

(** X15.  Over any sequence of reconciliations every row of the
    submissions table keeps its place and its id, its attachment list is
    only extended at the end and its notes only get text appended: nothing
    stored is dropped, reordered or shortened. *)
Theorem attachments_and_notes_only_grow (env : ProcessEnv) (subs : list Submission)
    (st : State) (rows : list ATRecord) :
  distinct_fields env ->
  AIRTABLE_APPS_TABLE env <> CLASS_TABLE_ID env ->
  base st !! AIRTABLE_APPS_TABLE env = Some rows ->
  is_Some (base st !! CLASS_TABLE_ID env) ->
  NoDup (map rec_id rows) ->
  fresh_ids (next_id st) rows ->
  exists kept added,
    base (reconcile_all env subs st) !! AIRTABLE_APPS_TABLE env = Some (kept ++ added) /\
    Forall2 (grows env) rows kept.
Proof.
  intros Hd Htab. revert st rows.
  induction subs as [|s rest IH]; intros st rows Hrows Hcls Hnd Hfresh.
  - exists rows, []. rewrite app_nil_r. split; [exact Hrows | apply Forall2_grows_refl].
  - destruct (reconcile_step_grows env Hd Htab (sub_email s) (sub_class s)
                (sub_notes s) (sub_url s) (sub_filename s) st rows Hrows Hcls Hnd Hfresh)
      as (res & st1 & kept1 & added1 & Hrun & Hb1 & Hc1 & Hnd1 & Hfr1 & Hg1).
    assert (reconcile_one env s st = st1) as Hone
      by (unfold reconcile_one; rewrite Hrun; reflexivity).
    destruct (IH st1 (kept1 ++ added1) Hb1 Hc1 Hnd1 Hfr1)
      as (kept2 & added2 & Hb2 & Hg2).
    apply Forall2_app_inv_l in Hg2 as (k2a & k2b & Hga & Hgb & ->).
    exists k2a, (k2b ++ added2). cbn [reconcile_all]. rewrite Hone.
    split; [rewrite Hb2, <- app_assoc; reflexivity|].
    eapply Forall2_trans; [|exact Hg1|exact Hga].
    intros a b d. apply grows_trans.
Qed.

Lemma attachments_and_notes_only_grow_witness :
  exists kept added,
    base (reconcile_all Demo.env
            [ {| sub_email := "A@X.COM"; sub_class := "Marine"; sub_notes := Some "n2";
                 sub_url := "https://files/1.pdf"; sub_filename := "1.pdf" |};
              {| sub_email := "c@x.com"; sub_class := ""; sub_notes := None;
                 sub_url := "https://files/2.pdf"; sub_filename := "2.pdf" |} ]
            Demo.st1) !! "Submissions" = Some (kept ++ added) /\
    Forall2 (grows Demo.env) Demo.numbered kept.
Proof.
  apply (attachments_and_notes_only_grow Demo.env _ Demo.st1 Demo.numbered).
  - apply distinct_fields_demo.
  - vm_compute. discriminate.
  - reflexivity.
  - exists Demo.classes. reflexivity.
  - apply NoDup_numbered.
  - apply fresh_ids_numbered.
Defined.

(** ** The route as a whole *)

Lemma bind_ok_inv {A B} (m : M A) (k : A -> M B) (st st' : State) (b : B) :
  bind m k st = (Ok b, st') ->
  exists a st1, m st = (Ok a, st1) /\ k a st1 = (Ok b, st').
Proof.
  unfold bind. destruct (m st) as [[a|e] st1]; [eauto | discriminate].
Qed.

Lemma processSubmission_keeps_mail (env : ProcessEnv) (w : World) (email : string)
    (cls moreInfo : option string) (f : File) :
  keeps is_mail (processSubmission env w email cls moreInfo f).
Proof.
  unfold processSubmission.
  apply keeps_bind; [apply keeps_resolveClass; reflexivity|]. intros c.
  apply keeps_bind; [apply keeps_uploadToSpaces; reflexivity|]. intros url.
  apply keeps_bind; [apply keeps_reconcile; reflexivity|]. intros [[ex rid] name].
  apply keeps_bind; [apply keeps_resolveRecipients; reflexivity|]. intros notify.
  apply keeps_ret.
Qed.

(** The route, case by case. *)
Lemma upload_route_run (env : ProcessEnv) (w : World) (tp : Transports)
    (req : Request) (st : State) :
  upload_route env w tp req st
  = if negb (truthy (submitterEmail req))
    then (Ok {| status := 400; body := "Missing submitter email" |}, st)
    else
      match file req with
      | None => (Ok {| status := 400; body := "No file uploaded" |}, st)
      | Some f =>
          match processSubmission env w (or_else (submitterEmail req) "")
                  (classOfBusiness req) (moreInfo req) f st with
          | (Ok (existing, notify, subject, html), st1) =>
              notifyAndRespond env tp existing notify subject html st1
          | (Throw err, st1) =>
              (Ok {| status := 500; body := "Server error" |},
               {| base := base st1; next_id := next_id st1; trace := trace st1;
                  console := error_message err :: console st1 |})
          end
      end.
Proof.
  unfold upload_route, try_catch, bind.
  destruct (negb (truthy (submitterEmail req))); [reflexivity|].
  destruct (file req) as [f|]; [|reflexivity].
  destruct (processSubmission _ _ _ _ _ _ st) as [[[[[existing notify] subject] html]|e] st1];
    [|reflexivity].
  destruct (notifyAndRespond_always_200 env tp existing notify subject html st1)
    as (st2 & Hresp & _).
  rewrite Hresp. reflexivity.
Qed.

(** X16.  A request without submitter address is answered 400 [Missing
    submitter email], a request with an address but without file 400 [No
    file uploaded]; in both cases no collaborator has been called: the
    state, trace included, is the one from before. *)
Theorem upload_route_validation (env : ProcessEnv) (w : World) (tp : Transports)
    (req : Request) (st : State) :
  (truthy (submitterEmail req) = false ->
   upload_route env w tp req st
   = (Ok {| status := 400; body := "Missing submitter email" |}, st)) /\
  (truthy (submitterEmail req) = true -> file req = None ->
   upload_route env w tp req st
   = (Ok {| status := 400; body := "No file uploaded" |}, st)).
Proof.
  rewrite upload_route_run. split.
  - intros ->. reflexivity.
  - intros -> ->. reflexivity.
Qed.

Lemma upload_route_validation_witness :
  upload_route Demo.env Demo.world (Demo.transports (BrevoResponse 200 "") (fun _ => true))
    {| classOfBusiness := Some "Fire"; moreInfo := None; submitterEmail := Some "";
       file := None |} (Demo.st0 [])
  = (Ok {| status := 400; body := "Missing submitter email" |}, Demo.st0 []) /\
  upload_route Demo.env Demo.world (Demo.transports (BrevoResponse 200 "") (fun _ => true))
    {| classOfBusiness := Some "Fire"; moreInfo := None; submitterEmail := Some "a@x.com";
       file := None |} (Demo.st0 [])
  = (Ok {| status := 400; body := "No file uploaded" |}, Demo.st0 []).
Proof.
  split.
  - apply (upload_route_validation Demo.env Demo.world
             (Demo.transports (BrevoResponse 200 "") (fun _ => true))
             {| classOfBusiness := Some "Fire"; moreInfo := None;
                submitterEmail := Some ""; file := None |} (Demo.st0 [])).
    reflexivity.
  - apply (upload_route_validation Demo.env Demo.world
             (Demo.transports (BrevoResponse 200 "") (fun _ => true))
             {| classOfBusiness := Some "Fire"; moreInfo := None;
                submitterEmail := Some "a@x.com"; file := None |} (Demo.st0 []));
      reflexivity.
Defined.

(** X18.  No notification goes out for a request that is not answered 200:
    when the status is 400 or 500 the route has made no call to the HTTP
    mail API and handed nothing to SMTP. *)
Theorem upload_route_failure_sends_nothing (env : ProcessEnv) (w : World)
    (tp : Transports) (req : Request) (st st' : State) (resp : Response) :
  upload_route env w tp req st = (Ok resp, st') ->
  status resp <> 200 ->
  mail_log (trace st') = mail_log (trace st).
Proof.
  rewrite upload_route_run.
  destruct (negb (truthy (submitterEmail req))); [intros [= <- <-]; reflexivity|].
  destruct (file req) as [f|]; [|intros [= <- <-]; reflexivity].
  pose proof (processSubmission_keeps_mail env w (or_else (submitterEmail req) "")
                (classOfBusiness req) (moreInfo req) f st) as Hk.
  destruct (processSubmission _ _ _ _ _ _ st) as [[[[[existing notify] subject] html]|e] st1].
  - destruct (notifyAndRespond_always_200 env tp existing notify subject html st1)
      as (st2 & Hresp & _).
    rewrite Hresp. intros [= <- <-] Hne. simpl in Hne. congruence.
  - intros [= <- <-] _. exact Hk.
Qed.

Lemma upload_route_failure_sends_nothing_witness :
  mail_log (trace (snd LookupFailureCase.run)) = [].
Proof.
  apply (upload_route_failure_sends_nothing LookupFailureCase.env Demo.world
           (Demo.transports (BrevoResponse 200 "") (fun _ => true))
           LookupFailureCase.req LookupFailureCase.st
           (snd LookupFailureCase.run)
           {| status := 500; body := "Server error" |}).
  - vm_compute. reflexivity.
  - discriminate.
Defined.

(** X19.  When the object store refuses the put, a valid request is
    answered 500 and the record store has not been written: the upload
    comes before every write. *)
Theorem upload_refused_writes_nothing (env : ProcessEnv) (w : World)
    (tp : Transports) (req : Request) (st : State) (f : File) :
  truthy (submitterEmail req) = true ->
  file req = Some f ->
  spaces_accepts w = false ->
  exists st',
    upload_route env w tp req st
    = (Ok {| status := 500; body := "Server error" |}, st') /\
    write_log (trace st') = write_log (trace st) /\
    base st' = base st /\
    puts (trace st') = puts (trace st).
Proof.
  intros He Hf Hs. rewrite upload_route_run, He, Hf. cbn [negb].
  unfold processSubmission, bind.
  set (email := or_else (submitterEmail req) "").
  pose proof (keeps_resolveClass is_write (fun _ => eq_refl) env
                (classOfBusiness req) email st) as Hw.
  pose proof (keeps_resolveClass is_put (fun _ => eq_refl) env
                (classOfBusiness req) email st) as Hp.
  assert (base (snd (resolveClass env (classOfBusiness req) email st)) = base st) as Hb.
  { unfold resolveClass. destruct (_ && _); [|reflexivity].
    unfold bind, airtableFindOne, bind, select.
    destruct (base st !! _); simpl; [|reflexivity].
    destruct (head _) as [r|]; simpl; [|reflexivity].
    destruct (value_truthy _); reflexivity. }
  destruct (resolveClass env (classOfBusiness req) email st) as [[c|e] st1];
    simpl in Hw, Hp, Hb.
  - unfold uploadToSpaces. rewrite Hs. unfold throw.
    eexists. split; [reflexivity|]. cbn [trace base]. unfold puts. rewrite Hp. auto.
  - eexists. split; [reflexivity|]. cbn [trace base]. unfold puts. rewrite Hp. auto.
Qed.

Lemma upload_refused_writes_nothing_witness :
  exists st',
    upload_route Demo.env
      {| yyyymm := "2024-05"; randomUUID := "uuid-1"; spaces_accepts := false |}
      (Demo.transports (BrevoResponse 200 "") (fun _ => true))
      (Demo.request (Some "a@x.com") (Some "Fire") None "report.pdf")
      (Demo.st0 Demo.submissions)
    = (Ok {| status := 500; body := "Server error" |}, st') /\
    write_log (trace st') = [] /\
    base st' = base (Demo.st0 Demo.submissions) /\
    puts (trace st') = 0.
Proof.
  apply (upload_refused_writes_nothing Demo.env
           {| yyyymm := "2024-05"; randomUUID := "uuid-1"; spaces_accepts := false |}
           (Demo.transports (BrevoResponse 200 "") (fun _ => true))
           (Demo.request (Some "a@x.com") (Some "Fire") None "report.pdf")
           (Demo.st0 Demo.submissions) (Demo.pdf "report.pdf")); reflexivity.
Defined.

Lemma upsert_ok_one_write (env : ProcessEnv) (email : string)
    (moreInfo : option string) (link : list string) (url fn : string)
    (st st' : State) (ex : option ATRecord) :
  upsertByEmail env email moreInfo link url fn st = (Ok ex, st') ->
  writes_on (AIRTABLE_APPS_TABLE env) (trace st')
  = 1 + writes_on (AIRTABLE_APPS_TABLE env) (trace st).
Proof.
  destruct (base st !! AIRTABLE_APPS_TABLE env) as [rows|] eqn:Hrows.
  - destruct (List.find (matches_ci (EMAIL_F env) email) rows) as [r|] eqn:Hf.
    + rewrite (upsert_merge_run env email moreInfo link url fn st rows Hrows r Hf).
      intros [= _ <-]. unfold writes_on. cbn [trace List.filter is_write_on].
      rewrite String.eqb_refl. reflexivity.
    + rewrite (upsert_create_run env email moreInfo link url fn st rows Hrows Hf).
      intros [= _ <-]. unfold writes_on. cbn [trace List.filter is_write_on].
      rewrite String.eqb_refl. reflexivity.
  - unfold upsertByEmail, findSubmissionByEmail, bind.
    rewrite (airtableFindOne_missing _ _ _ Hrows). discriminate.
Qed.

Lemma reconcile_ok_one_write (env : ProcessEnv) (email c : string)
    (moreInfo : option string) (url fn : string) (st st' : State)
    (res : option ATRecord * option string * string) :
  AIRTABLE_APPS_TABLE env <> CLASS_TABLE_ID env ->
  reconcile env email c moreInfo url fn st = (Ok res, st') ->
  writes_on (AIRTABLE_APPS_TABLE env) (trace st')
  = 1 + writes_on (AIRTABLE_APPS_TABLE env) (trace st).
Proof.
  intros Htab Hrun. unfold reconcile in Hrun.
  apply bind_ok_inv in Hrun as ([[link rid] name] & s1 & Hcls & Hrun).
  apply bind_ok_inv in Hrun as (ex & s2 & Hup & Hret).
  injection Hret as _ <-.
  rewrite (upsert_ok_one_write _ _ _ _ _ _ _ _ _ Hup). f_equal.
  assert (keeps (is_write_on (AIRTABLE_APPS_TABLE env)) (resolveLinkedClass env c)) as Hk.
  { apply keeps_resolveLinkedClass; [reflexivity|].
    intros r. apply writes_on_other_table. congruence. }
  specialize (Hk st). rewrite Hcls in Hk. unfold writes_on. cbn [snd] in Hk.
  rewrite Hk. reflexivity.
Qed.

(** X20.  A 200 answer means the submission is stored: the route has then
    put exactly one object into the object store and made exactly one write
    (a create or an update) on the submissions table. *)
Theorem upload_route_200_means_stored (env : ProcessEnv) (w : World)
    (tp : Transports) (req : Request) (st st' : State) (resp : Response) :
  AIRTABLE_APPS_TABLE env <> CLASS_TABLE_ID env ->
  upload_route env w tp req st = (Ok resp, st') ->
  status resp = 200 ->
  puts (trace st') = 1 + puts (trace st) /\
  writes_on (AIRTABLE_APPS_TABLE env) (trace st')
  = 1 + writes_on (AIRTABLE_APPS_TABLE env) (trace st).
Proof.
  intros Htab. rewrite upload_route_run.
  destruct (negb (truthy (submitterEmail req))); [intros [= <- _]; discriminate|].
  destruct (file req) as [f|]; [|intros [= <- _]; discriminate].
  set (email := or_else (submitterEmail req) "").
  destruct (processSubmission env w email (classOfBusiness req) (moreInfo req) f st)
    as [[[[[existing notify] subject] html]|e] s4] eqn:Hproc;
    [|intros [= <- _]; discriminate].
  intros Hresp _.
  unfold processSubmission in Hproc.
  apply bind_ok_inv in Hproc as (c & s1 & Hc & Hproc).
  apply bind_ok_inv in Hproc as (url & s2 & Hu & Hproc).
  apply bind_ok_inv in Hproc as ([[ex rid] name] & s3 & Hr & Hproc).
  apply bind_ok_inv in Hproc as (nl' & s4' & Hn & Hret).
  injection Hret as _ _ _ _ <-.
  (* puts *)
  assert (forall p, (forall t, p (StoreRead t) = false) ->
                    (forall t r, p (StoreCreate t r) = false) ->
                    (forall t i q, p (StoreUpdate t i q) = false) ->
                    (forall a, p (SmtpSend a) = false) ->
                    (forall l, p (BrevoPost l) = false) ->
                    List.filter p (trace st') = List.filter p (trace s2) /\
                    List.filter p (trace s1) = List.filter p (trace st)) as Hother.
  { intros p H1 H2 H3 H4 H5. split.
    - pose proof (keeps_notifyAndRespond p env tp existing notify subject html H4 H5 s4')
        as K4. rewrite Hresp in K4. cbn [snd] in K4. rewrite K4.
      pose proof (keeps_resolveRecipients p H1 env rid name s3) as K3.
      rewrite Hn in K3. cbn [snd] in K3. rewrite K3.
      pose proof (keeps_reconcile p env H1 (H2 _) (H2 _) (H3 _) email c (moreInfo req)
                    url (originalname f) s2) as K2.
      rewrite Hr in K2. exact K2.
    - pose proof (keeps_resolveClass p H1 env (classOfBusiness req) email st) as K1.
      rewrite Hc in K1. exact K1. }
  split.
  - destruct (Hother is_put) as [Ha Hb]; try reflexivity.
    unfold puts. rewrite Ha, <- Hb.
    unfold uploadToSpaces in Hu. destruct (spaces_accepts w); [|discriminate].
    unfold bind, emit, ret in Hu. injection Hu as _ <-. reflexivity.
  - unfold writes_on.
    pose proof (keeps_notifyAndRespond (is_write_on (AIRTABLE_APPS_TABLE env)) env tp
                  existing notify subject html (fun _ => eq_refl) (fun _ => eq_refl) s4')
      as K4. rewrite Hresp in K4. cbn [snd] in K4. rewrite K4.
    pose proof (keeps_resolveRecipients (is_write_on (AIRTABLE_APPS_TABLE env))
                  (fun _ => eq_refl) env rid name s3) as K3.
    rewrite Hn in K3. cbn [snd] in K3. rewrite K3.
    fold (writes_on (AIRTABLE_APPS_TABLE env) (trace s3)).
    rewrite (reconcile_ok_one_write _ _ _ _ _ _ _ _ _ Htab Hr). f_equal.
    unfold writes_on.
    pose proof (keeps_uploadToSpaces (is_write_on (AIRTABLE_APPS_TABLE env)) env w f
                  (fun _ => eq_refl) s1) as K2.
    rewrite Hu in K2. cbn [snd] in K2. rewrite K2.
    pose proof (keeps_resolveClass (is_write_on (AIRTABLE_APPS_TABLE env))
                  (fun _ => eq_refl) env (classOfBusiness req) email st) as K1.
    rewrite Hc in K1. cbn [snd] in K1. rewrite K1. reflexivity.
Qed.

Lemma upload_route_200_means_stored_witness :
  puts (trace (snd TwoUploads.first)) = 1 /\
  writes_on "Submissions" (trace (snd TwoUploads.first)) = 1.
Proof.
  apply (upload_route_200_means_stored Demo.env Demo.world TwoUploads.tp
           (Demo.request (Some "a@x.com") (Some "Marine") (Some "n1") "report.pdf")
           (Demo.st0 []) (snd TwoUploads.first)
           {| status := 200; body := "New record created and notifications sent." |}).
  - vm_compute. discriminate.
  - vm_compute. reflexivity.
  - reflexivity.
Defined.

(** ** The first revision of the route *)

Example upload_route_v1_runs :
  fst (upload_route_v1 Demo.env Demo.world
         (Demo.transports (BrevoResponse 200 "") (fun _ => true))
         (Demo.request (Some "a@x.com") (Some "Fire") None "report.pdf")
         (Demo.st0 Demo.submissions))
  = Ok {| status := 200; body := "Application submitted and notifications sent!" |} /\
  map rec_id
    (default [] (base (snd (upload_route_v1 Demo.env Demo.world
         (Demo.transports (BrevoResponse 200 "") (fun _ => true))
         (Demo.request (Some "a@x.com") (Some "Fire") None "report.pdf")
         (Demo.st0 Demo.submissions))) !! "Submissions"))
  = ["recSub1"; "rec0"].
Proof. vm_compute. split; reflexivity. Qed.

Lemma resolveClass_store (env : ProcessEnv) (cls : option string) (email : string)
    (st : State) :
  base (snd (resolveClass env cls email st)) = base st /\
  next_id (snd (resolveClass env cls email st)) = next_id st.
Proof.
  unfold resolveClass. destruct (_ && _); [|split; reflexivity].
  unfold bind, airtableFindOne, bind, select.
  destruct (base st !! _); simpl; [|split; reflexivity].
  destruct (head _) as [r|]; simpl; [|split; reflexivity].
  destruct (value_truthy _); split; reflexivity.
Qed.

Lemma upload_route_v1_run (env : ProcessEnv) (w : World) (tp : Transports)
    (req : Request) (st : State) :
  upload_route_v1 env w tp req st
  = if negb (truthy (submitterEmail req))
    then (Ok {| status := 400; body := "Missing submitter email" |}, st)
    else
      match file req with
      | None => (Ok {| status := 400; body := "No file uploaded" |}, st)
      | Some f =>
          match processSubmission_v1 env w (or_else (submitterEmail req) "")
                  (classOfBusiness req) (moreInfo req) f st with
          | (Ok (notify, subject, html), st1) =>
              match notifyAndRespond_v1 env tp notify subject html st1 with
              | (Ok resp, st2) => (Ok resp, st2)
              | (Throw err, st2) =>
                  (Ok {| status := 500; body := "Server error" |},
                   {| base := base st2; next_id := next_id st2; trace := trace st2;
                      console := error_message err :: console st2 |})
              end
          | (Throw err, st1) =>
              (Ok {| status := 500; body := "Server error" |},
               {| base := base st1; next_id := next_id st1; trace := trace st1;
                  console := error_message err :: console st1 |})
          end
      end.
Proof.
  unfold upload_route_v1, try_catch, bind.
  destruct (negb (truthy (submitterEmail req))); [reflexivity|].
  destruct (file req) as [f|]; [|reflexivity].
  destruct (processSubmission_v1 _ _ _ _ _ _ st) as [[[[notify subject] html]|e] st1];
    [|reflexivity].
  destruct (notifyAndRespond_v1 env tp notify subject html st1) as [[r|e] st2];
    reflexivity.
Qed.

Lemma notifyAndRespond_v1_cases (env : ProcessEnv) (tp : Transports)
    (notify : list string) (subject html : string) (st : State) :
  (notify = [] ->
   notifyAndRespond_v1 env tp notify subject html st
   = (Ok {| status := 200;
            body := "Uploaded and saved. No matching underwriters found." |}, st)) /\
  (notify <> [] ->
   trace (snd (notifyAndRespond_v1 env tp notify subject html st))
   = rev (map SmtpSend notify) ++ trace st /\
   (forallb (smtp_accepts tp) notify = true ->
    fst (notifyAndRespond_v1 env tp notify subject html st)
    = Ok {| status := 200; body := "Application submitted and notifications sent!" |}) /\
   (forallb (smtp_accepts tp) notify = false ->
    exists e, fst (notifyAndRespond_v1 env tp notify subject html st) = Throw e)).
Proof.
  split; [intros ->; reflexivity|].
  intros Hne. unfold notifyAndRespond_v1.
  destruct notify as [|to rest]; [congruence|].
  unfold bind.
  pose proof (promise_all_sendMail_run env tp (transporter_v1 env) subject html
                (to :: rest) st) as [Htr Hok].
  destruct (promise_all _ st) as [[l|e] st']; simpl in Htr, Hok; simpl.
  - split; [exact Htr|]. split; [reflexivity|]. intros H.
    rewrite <- Hok in H. discriminate.
  - split; [exact Htr|]. split; [|eauto]. intros H.
    rewrite <- Hok in H. discriminate.
Qed.

(** X21.  The first revision never merges: every valid request whose class
    resolves and whose upload is accepted creates a new submission row with
    the next id, whether or not the table already holds a row for that
    address, and that create is the only write, also when the request then
    ends in 500. *)
Theorem v1_every_upload_creates_a_row (env : ProcessEnv) (w : World)
    (tp : Transports) (req : Request) (st : State) (f : File)
    (rows : list ATRecord) :
  truthy (submitterEmail req) = true ->
  file req = Some f ->
  spaces_accepts w = true ->
  base st !! AIRTABLE_APPS_TABLE env = Some rows ->
  completed (fst (resolveClass env (classOfBusiness req)
                    (or_else (submitterEmail req) "") st)) = true ->
  exists resp st' new,
    upload_route_v1 env w tp req st = (Ok resp, st') /\
    (status resp = 200 \/ status resp = 500) /\
    write_log (trace st')
    = StoreCreate (AIRTABLE_APPS_TABLE env) new :: write_log (trace st) /\
    rec_id new = mkid (next_id st) /\
    get new "Submitted By Email" = Some (VStr (or_else (submitterEmail req) "")) /\
    exists url, get new "Uploaded File" = Some (VArr [IFile url (originalname f)]).
Proof.
  intros He Hf Hs Hrows Hc.
  rewrite upload_route_v1_run, He, Hf. cbn [negb].
  set (email := or_else (submitterEmail req) "") in *.
  unfold processSubmission_v1. unfold bind at 1.
  pose proof (resolveClass_store env (classOfBusiness req) email st) as [Hb Hn].
  pose proof (keeps_resolveClass is_write (fun _ => eq_refl) env
                (classOfBusiness req) email st) as Hw.
  destruct (resolveClass env (classOfBusiness req) email st) as [[c|e] s1];
    [|discriminate]. cbn [snd] in Hb, Hn, Hw.
  unfold bind at 1. unfold uploadToSpaces. rewrite Hs.
  unfold bind at 1. unfold emit at 1. unfold ret at 1. cbv beta iota.
  match goal with |- context [IFile ?u (originalname f)] => set (url := u) end.
  unfold bind at 1. unfold create at 1. cbn [base next_id trace console].
  rewrite Hb, Hrows, Hn.
  set (new := {| rec_id := mkid (next_id st);
                 rec_fields := createFields_v1 email c (moreInfo req)
                                 (IFile url (originalname f)) |}).
  unfold with_base. cbn [base next_id trace console].
  match goal with |- context [bind (underwriterMatch_v1 env c) ?k ?s] =>
    set (s3 := s);
    assert (keeps is_write (bind (underwriterMatch_v1 env c) k)) as Hk
  end.
  { apply keeps_bind; [|intros; apply keeps_ret].
    unfold underwriterMatch_v1. destruct (_ && _); [|apply keeps_ret].
    apply keeps_bind; [apply keeps_select; reflexivity | intros; apply keeps_ret]. }
  specialize (Hk s3).
  assert (write_log (trace s3)
          = StoreCreate (AIRTABLE_APPS_TABLE env) new :: write_log (trace st)) as Hw3.
  { unfold s3, write_log. cbn [trace List.filter is_write]. f_equal. exact Hw. }
  assert (rec_id new = mkid (next_id st) /\
          get new "Submitted By Email" = Some (VStr email) /\
          exists u, get new "Uploaded File" = Some (VArr [IFile u (originalname f)]))
    as Hnew.
  { split; [reflexivity|]. unfold new, get, createFields_v1. cbn [rec_fields]. split.
    - rewrite !lookup_insert_ne by discriminate. rewrite lookup_insert_eq.
      unfold email. destruct (submitterEmail req) as [s|]; [|discriminate].
      rewrite !(or_else_truthy s "" He). reflexivity.
    - exists url. apply lookup_insert_eq. }
  match goal with |- context [bind (underwriterMatch_v1 env c) ?k s3] =>
    destruct (bind (underwriterMatch_v1 env c) k s3)
      as [[[[notify subject] html]|e] s4] end; cbn [snd] in Hk.
  - pose proof (keeps_promise_all is_write
                  (map (fun to => sendMail tp (transporter_v1 env) (SMTP_FROM env)
                                    to subject html) notify)) as Hp.
    assert (keeps is_write (notifyAndRespond_v1 env tp notify subject html)) as Hn5.
    { unfold notifyAndRespond_v1. destruct notify; [apply keeps_ret|].
      apply keeps_bind; [|intros; apply keeps_ret].
      apply keeps_promise_all. intros m Hm. apply in_map_iff in Hm as (to & <- & _).
      apply keeps_sendMail. reflexivity. }
    specialize (Hn5 s4).
    destruct (notifyAndRespond_v1_cases env tp notify subject html s4) as [Hnil Hcons].
    destruct notify as [|to rest].
    + rewrite (Hnil eq_refl). eexists _, _, new. split; [reflexivity|].
      split; [left; reflexivity|]. split; [|exact Hnew].
      fold (write_log (trace s4)) in Hk. unfold write_log in *. congruence.
    + destruct (notifyAndRespond_v1 env tp (to :: rest) subject html s4)
        as [[r|e] s5] eqn:E; cbn [snd] in Hn5.
      * destruct (Hcons ltac:(discriminate)) as (_ & Hyes & Hno).
        destruct (forallb (smtp_accepts tp) (to :: rest)) eqn:Ea.
        -- specialize (Hyes eq_refl). cbn [fst] in Hyes. injection Hyes as ->.
           eexists _, _, new. split; [reflexivity|]. split; [left; reflexivity|].
           split; [|exact Hnew]. unfold write_log in *. congruence.
        -- destruct (Hno eq_refl) as [e He']. discriminate.
      * eexists _, _, new. split; [reflexivity|]. split; [right; reflexivity|].
        split; [|exact Hnew]. cbn [trace]. unfold write_log in *. congruence.
  - eexists _, _, new. split; [reflexivity|]. split; [right; reflexivity|].
    split; [|exact Hnew]. cbn [trace]. unfold write_log in *. congruence.
Qed.

Lemma v1_every_upload_creates_a_row_witness :
  exists resp st' new,
    upload_route_v1 Demo.env Demo.world
      (Demo.transports (BrevoResponse 200 "") (fun _ => false))
      (Demo.request (Some "a@x.com") (Some "Fire") None "report.pdf")
      (Demo.st0 Demo.submissions) = (Ok resp, st') /\
    (status resp = 200 \/ status resp = 500) /\
    write_log (trace st') = [StoreCreate "Submissions" new] /\
    rec_id new = "rec0" /\
    get new "Submitted By Email" = Some (VStr "a@x.com") /\
    exists url, get new "Uploaded File" = Some (VArr [IFile url "report.pdf"]).
Proof.
  apply (v1_every_upload_creates_a_row Demo.env Demo.world
           (Demo.transports (BrevoResponse 200 "") (fun _ => false))
           (Demo.request (Some "a@x.com") (Some "Fire") None "report.pdf")
           (Demo.st0 Demo.submissions) (Demo.pdf "report.pdf") Demo.submissions);
    reflexivity.
Defined.

(** X22.  In the first revision the answer depends on the sends: with an
    empty notify list the route answers 200 with the text that no
    underwriter matched and sends nothing; otherwise every recipient is
    handed to SMTP once, and the answer is 200 when all were accepted and
    500 [Server error] as soon as one was refused, although the submission
    row has been created by then. *)
Theorem v1_failed_send_is_500 (env : ProcessEnv) (w : World) (tp : Transports)
    (req : Request) (st st1 : State) (f : File)
    (notify : list string) (subject html : string) :
  truthy (submitterEmail req) = true ->
  file req = Some f ->
  processSubmission_v1 env w (or_else (submitterEmail req) "")
    (classOfBusiness req) (moreInfo req) f st
  = (Ok (notify, subject, html), st1) ->
  (notify = [] ->
   upload_route_v1 env w tp req st
   = (Ok {| status := 200;
            body := "Uploaded and saved. No matching underwriters found." |}, st1)) /\
  (notify <> [] ->
   exists resp st2,
     upload_route_v1 env w tp req st = (Ok resp, st2) /\
     trace st2 = rev (map SmtpSend notify) ++ trace st1 /\
     (forallb (smtp_accepts tp) notify = true ->
      resp = {| status := 200;
                body := "Application submitted and notifications sent!" |}) /\
     (forallb (smtp_accepts tp) notify = false ->
      resp = {| status := 500; body := "Server error" |})).
Proof.
  intros He Hf Hproc. rewrite upload_route_v1_run, He, Hf, Hproc. cbn [negb].
  destruct (notifyAndRespond_v1_cases env tp notify subject html st1) as [Hnil Hcons].
  split.
  - intros Hn. rewrite (Hnil Hn). reflexivity.
  - intros Hn. destruct (Hcons Hn) as (Htr & Hyes & Hno).
    destruct (notifyAndRespond_v1 env tp notify subject html st1) as [[r|e] s2];
      cbn [fst snd] in *.
    + exists r, s2. split; [reflexivity|]. split; [exact Htr|]. split.
      * intros Ha. specialize (Hyes Ha). congruence.
      * intros Ha. destruct (Hno Ha) as [e He']. discriminate.
    + eexists _, _. split; [reflexivity|]. split; [exact Htr|]. split.
      * intros Ha. specialize (Hyes Ha). discriminate.
      * reflexivity.
Qed.

Lemma v1_failed_send_is_500_witness :
  exists resp st2,
    upload_route_v1 Demo.env Demo.world V1SendFailure.tp V1SendFailure.req
      (Demo.st0 Demo.submissions) = (Ok resp, st2) /\
    resp = {| status := 500; body := "Server error" |} /\
    writes_on "Submissions" (trace st2) = 1.
Proof.
  destruct (v1_failed_send_is_500 Demo.env Demo.world V1SendFailure.tp
              V1SendFailure.req (Demo.st0 Demo.submissions)
              (snd V1SendFailure.before) (Demo.pdf "report.pdf")
              (fst (fst V1SendFailure.outcome)) (snd (fst V1SendFailure.outcome))
              (snd V1SendFailure.outcome) eq_refl eq_refl)
    as [_ Hsend].
  - vm_compute. reflexivity.
  - destruct Hsend as (resp & st2 & Hrun & Htr & _ & Hno); [vm_compute; discriminate|].
    exists resp, st2. split; [exact Hrun|]. split; [apply Hno; vm_compute; reflexivity|].
    rewrite Htr. vm_compute. reflexivity.
Defined.

(** ** Class name read and submissions without class *)

(** X23.  Reading the display name of the linked class never fails the
    request and never writes: the result is the row's [Name] text when the
    class table holds the row with a non-empty name, and the fallback text
    otherwise; a failed read only adds a line to the console. *)
Theorem fetchClassName_never_throws (env : ProcessEnv) (id dflt : string)
    (st : State) :
  exists name st',
    fetchClassName env id dflt st = (Ok name, st') /\
    base st' = base st /\
    write_log (trace st') = write_log (trace st) /\
    (forall rows r,
       base st !! CLASS_TABLE_ID env = Some rows ->
       List.find (has_id id) rows = Some r ->
       name = (if value_truthy (get r "Name")
               then from_option toString "" (get r "Name") else dflt) /\
       console st' = console st) /\
    ((base st !! CLASS_TABLE_ID env = None \/
      exists rows, base st !! CLASS_TABLE_ID env = Some rows /\
                   List.find (has_id id) rows = None) ->
     name = dflt /\
     console st' = ("Could not fetch class name NOT_FOUND") :: console st).
Proof.
  unfold fetchClassName, try_catch, bind, find, console_error, ret.
  destruct (base st !! CLASS_TABLE_ID env) as [rows|]; simpl.
  - destruct (List.find (has_id id) rows) as [r|] eqn:Hf; simpl.
    + destruct (value_truthy (get r "Name")) eqn:Hv;
        eexists _, _; (split; [reflexivity|]); cbn [base trace console];
        (split; [reflexivity|]); (split; [reflexivity|]); split.
      * intros rows' r' [= <-] H. rewrite Hf in H. injection H as <-. rewrite Hv. auto.
      * intros [H|(rows' & [= <-] & H)]; [discriminate | rewrite Hf in H; discriminate].
      * intros rows' r' [= <-] H. rewrite Hf in H. injection H as <-. rewrite Hv. auto.
      * intros [H|(rows' & [= <-] & H)]; [discriminate | rewrite Hf in H; discriminate].
    + eexists _, _. split; [reflexivity|]. cbn [base trace console].
      split; [reflexivity|]. split; [reflexivity|]. split.
      * intros rows' r' [= <-] H. rewrite Hf in H. discriminate.
      * intros _. auto.
  - eexists _, _. split; [reflexivity|]. cbn [base trace console].
    split; [reflexivity|]. split; [reflexivity|]. split.
    + intros rows r H. discriminate.
    + intros _. auto.
Qed.

Lemma fetchClassName_never_throws_witness :
  exists st',
    fetchClassName Demo.env "recFire" "fallback" (Demo.st0 []) = (Ok "Fire", st') /\
    base st' = base (Demo.st0 []).
Proof.
  destruct (fetchClassName_never_throws Demo.env "recFire" "fallback" (Demo.st0 []))
    as (name & st' & Hrun & Hb & _ & Hfound & _).
  destruct (Hfound Demo.classes (Demo.row "recFire" [("Name", VStr "Fire")])
              eq_refl eq_refl) as [-> _].
  exists st'. split; [exact Hrun | exact Hb].
Defined.

Lemma reconcile_without_class (env : ProcessEnv) (email c : string)
    (moreInfo : option string) (url fn : string) (st st' : State)
    (ex : option ATRecord) (rid : option string) (name : string) :
  Str.nonempty c = false ->
  reconcile env email c moreInfo url fn st = (Ok (ex, rid, name), st') ->
  rid = None /\ name = "".
Proof.
  intros Hc Hrun. unfold reconcile, bind in Hrun.
  rewrite (resolveLinkedClass_empty _ _ _ Hc) in Hrun.
  destruct (upsertByEmail env email moreInfo [] url fn st) as [[e|e] s]; [|discriminate].
  injection Hrun as _ <- <- _. destruct c; [split; reflexivity | discriminate].
Qed.

(** X24.  A submission for which no classification is known (none typed,
    none in the applicants table) notifies nobody unless an override
    address is configured: the route then makes no mail call at all. *)
Theorem upload_without_class_sends_nothing (env : ProcessEnv) (w : World)
    (tp : Transports) (req : Request) (st s1 st' : State) (f : File)
    (c : string) (resp : Response) :
  truthy (submitterEmail req) = true ->
  file req = Some f ->
  truthy (OVERRIDE_NOTIFICATION_EMAIL env) = false ->
  resolveClass env (classOfBusiness req) (or_else (submitterEmail req) "") st
  = (Ok c, s1) ->
  Str.nonempty c = false ->
  upload_route env w tp req st = (Ok resp, st') ->
  mail_log (trace st') = mail_log (trace st).
Proof.
  intros He Hf Ho Hc Hempty. rewrite upload_route_run, He, Hf. cbn [negb].
  set (email := or_else (submitterEmail req) "") in *.
  pose proof (processSubmission_keeps_mail env w email (classOfBusiness req)
                (moreInfo req) f st) as Hk.
  destruct (processSubmission env w email (classOfBusiness req) (moreInfo req) f st)
    as [[[[[existing notify] subject] html]|e] s4] eqn:Hproc; cbn [snd] in Hk.
  2:{ intros [= _ <-]. exact Hk. }
  unfold processSubmission in Hproc.
  apply bind_ok_inv in Hproc as (c' & s1' & Hc' & Hproc).
  rewrite Hc in Hc'. injection Hc' as <- <-.
  apply bind_ok_inv in Hproc as (url & s2 & Hu & Hproc).
  apply bind_ok_inv in Hproc as ([[ex rid] name] & s3 & Hr & Hproc).
  apply bind_ok_inv in Hproc as (nl' & s4' & Hn & Hret).
  injection Hret as <- <- _ _ <-.
  destruct (reconcile_without_class _ _ _ _ _ _ _ _ _ _ _ Hempty Hr) as [-> ->].
  unfold resolveRecipients, bind, underwriterMatch in Hn. simpl in Hn.
  unfold ret, notifyList in Hn. rewrite Ho in Hn. injection Hn as <- <-.
  unfold notifyAndRespond, bind, try_catch, ret. intros [= _ <-]. exact Hk.
Qed.

Lemma upload_without_class_sends_nothing_witness :
  mail_log (trace (snd (upload_route Demo.env Demo.world
      (Demo.transports (BrevoResponse 200 "") (fun _ => true))
      (Demo.request (Some "nobody@x.com") None None "report.pdf")
      (Demo.st0 Demo.submissions)))) = [].
Proof.
  apply (upload_without_class_sends_nothing Demo.env Demo.world
           (Demo.transports (BrevoResponse 200 "") (fun _ => true))
           (Demo.request (Some "nobody@x.com") None None "report.pdf")
           (Demo.st0 Demo.submissions)
           (snd (resolveClass Demo.env None "nobody@x.com" (Demo.st0 Demo.submissions)))
           _ (Demo.pdf "report.pdf") ""
           {| status := 200; body := "New record created and notifications sent." |});
    reflexivity.
Defined.

(** * The route as written *)

(** ** Reading back what the route writes *)

Lemma strip_prefix_app (p s : string) : strip_prefix p (p +:+ s) = Some s.
Proof.
  induction p as [|a p IH]; [reflexivity|].
  rewrite append_cons. cbn [strip_prefix]. rewrite Ascii.eqb_refl. exact IH.
Qed.

Lemma count_char_cons_zero (a c : ascii) (r : string) :
  count_char a (String c r) = 0 -> Ascii.eqb c a = false /\ count_char a r = 0.
Proof. cbn [count_char]. destruct (Ascii.eqb c a); [discriminate | auto]. Qed.

Lemma skip_blanks_cons (c : ascii) (r : string) :
  Ascii.eqb c " " = false -> skip_blanks (String c r) = String c r.
Proof. intros H. cbn [skip_blanks]. rewrite H. reflexivity. Qed.

Lemma read_field_app (f rest : string) :
  plain_field f -> read_field (f +:+ String "}" rest) = Some (f, rest).
Proof.
  unfold plain_field. induction f as [|c r IH]; intros H; [reflexivity|].
  apply count_char_cons_zero in H as [Hc Hr].
  rewrite append_cons. cbn [read_field]. rewrite Hc, (IH Hr). reflexivity.
Qed.

(** The store reads an escaped value back as the value, provided the value
    holds no backslash. *)
Lemma read_literal_body_escape (v rest : string) :
  plain_value v ->
  read_literal_body (escapeForAirtableFormulaDoubleQuotes v +:+ String quote_char rest)
  = Some (v, rest).
Proof.
  unfold plain_value. induction v as [|c r IH]; intros H; [reflexivity|].
  apply count_char_cons_zero in H as [Hc Hr].
  cbn [escapeForAirtableFormulaDoubleQuotes].
  destruct (Ascii.eqb c quote_char) eqn:Eq.
  - apply Ascii.eqb_eq in Eq. subst c. rewrite !append_cons.
    cbn [read_literal_body].
    change (Ascii.eqb backslash_char quote_char) with false.
    rewrite Ascii.eqb_refl, (IH Hr). reflexivity.
  - rewrite append_cons. cbn [read_literal_body]. rewrite Eq, Hc, (IH Hr). reflexivity.
Qed.

Lemma read_literal_escape (v rest : string) :
  plain_value v ->
  read_literal (String quote_char
                  (escapeForAirtableFormulaDoubleQuotes v +:+ String quote_char rest))
  = Some (v, rest).
Proof.
  intros H. unfold read_literal. rewrite Ascii.eqb_refl.
  apply read_literal_body_escape, H.
Qed.

Lemma formula_text_lower_eq (field value : string) :
  formula_text (LowerEq field value)
  = "LOWER({" +:+ (field +:+ String "}" (") = LOWER(" +:+ String quote_char
      (escapeForAirtableFormulaDoubleQuotes value +:+ String quote_char ")"))).
Proof. reflexivity. Qed.

Lemma formula_text_field_eq (field value : string) :
  formula_text (FieldEq field value)
  = "{" +:+ (field +:+ String "}" (String "=" (String quote_char
      (escapeForAirtableFormulaDoubleQuotes value +:+ String quote_char "")))).
Proof. reflexivity. Qed.

Lemma formula_text_find (needle field : string) :
  formula_text (FindInJoin needle field)
  = "FIND(" +:+ String quote_char (needle +:+ String quote_char
      (",ARRAYJOIN({" +:+ (field +:+ String "}" "))>0"))).
Proof. reflexivity. Qed.

(** Every formula the route writes for a value without backslash is read
    back by the store as the formula that was meant. *)
Lemma parse_formula_text (f : Formula) :
  readable f -> parse_formula (formula_text f) = Some f.
Proof.
  destruct f as [field value|field value|needle field]; unfold parse_formula.
  - intros [Hf Hv]. rewrite formula_text_lower_eq. unfold parse_lower_eq.
    rewrite strip_prefix_app, (read_field_app _ _ Hf), strip_prefix_app.
    rewrite (read_literal_escape _ _ Hv). reflexivity.
  - intros [Hf Hv].
    assert (parse_lower_eq (formula_text (FieldEq field value)) = None) as -> by reflexivity.
    assert (parse_find (formula_text (FieldEq field value)) = None) as -> by reflexivity.
    rewrite formula_text_field_eq. unfold parse_field_eq.
    rewrite strip_prefix_app, (read_field_app _ _ Hf).
    rewrite (skip_blanks_cons "=" _ eq_refl). cbn [strip_prefix].
    rewrite Ascii.eqb_refl, (skip_blanks_cons quote_char _ eq_refl).
    rewrite (read_literal_escape _ _ Hv). reflexivity.
  - intros (Hf & Hv & Hq).
    assert (parse_lower_eq (formula_text (FindInJoin needle field)) = None) as ->
      by reflexivity.
    rewrite formula_text_find. unfold parse_find.
    rewrite strip_prefix_app.
    apply escape_quote_free in Hq. rewrite <- Hq at 1.
    rewrite (read_literal_escape _ _ Hv), strip_prefix_app, (read_field_app _ _ Hf).
    reflexivity.
Qed.

Lemma count_quote_app_bs (v : string) :
  count_char quote_char v = 0 -> count_char quote_char (v +:+ bs) = 0.
Proof.
  induction v as [|c r IH]; intros H; [reflexivity|].
  apply count_char_cons_zero in H as [Hc Hr]. rewrite append_cons.
  cbn [count_char]. rewrite Hc, (IH Hr). reflexivity.
Qed.

Lemma lower_eq_text_open (field value : string) :
  "LOWER({" +:+ field +:+ "}) = LOWER(" +:+ dq +:+ (value +:+ bs) +:+ dq +:+ ")"
  = "LOWER({" +:+ (field +:+ String "}" (") = LOWER(" +:+ String quote_char
      (value +:+ String backslash_char (String quote_char ")")))).
Proof. rewrite append_assoc. reflexivity. Qed.

(** A value that ends in a backslash gives a text the store cannot read:
    the closing quote is taken for a character of the literal. *)
Lemma read_literal_body_open (v : string) :
  plain_value v -> count_char quote_char v = 0 ->
  forall tail, read_literal_body tail = None ->
  read_literal_body (v +:+ String backslash_char (String quote_char tail)) = None.
Proof.
  unfold plain_value. induction v as [|c r IH]; intros Hb Hq tail Ht.
  - change (read_literal_body (String backslash_char (String quote_char tail)) = None).
    cbn [read_literal_body].
    change (Ascii.eqb backslash_char quote_char) with false.
    rewrite Ascii.eqb_refl, Ht. reflexivity.
  - apply count_char_cons_zero in Hb as [Hcb Hrb].
    apply count_char_cons_zero in Hq as [Hcq Hrq].
    rewrite append_cons. cbn [read_literal_body].
    rewrite Hcq, Hcb, (IH Hrb Hrq tail Ht). reflexivity.
Qed.

(** ** Agreement of the two forms of the lookups *)

Section Agreement.

Variable env : ProcessEnv.

Lemma select_text (t : string) (f : Formula) :
  readable f -> Text.select t (formula_text f) = select t f.
Proof. intros H. unfold Text.select. rewrite (parse_formula_text f H). reflexivity. Qed.

Lemma select_unreadable (t text : string) (st : State) :
  parse_formula text = None ->
  Text.select t text st = (Throw (Err "INVALID_FILTER_BY_FORMULA"), st).
Proof. intros H. unfold Text.select. rewrite H. reflexivity. Qed.

Lemma airtableFindOne_text (t : string) (f : Formula) :
  readable f -> Text.airtableFindOne t (formula_text f) = airtableFindOne t f.
Proof.
  intros H. unfold Text.airtableFindOne, airtableFindOne.
  rewrite (select_text t f H). reflexivity.
Qed.

Lemma findSubmissionByEmail_text (t field email : string) :
  plain_field field -> plain_value email ->
  Text.findSubmissionByEmail t field email = findSubmissionByEmail t field email.
Proof.
  intros Hf Hv. unfold Text.findSubmissionByEmail, findSubmissionByEmail.
  apply (airtableFindOne_text t (LowerEq field email)). split; assumption.
Qed.

Lemma getOrCreate_text (name : string) :
  plain_value name ->
  Text.getOrCreateClassIdByName env name = getOrCreateClassIdByName env name.
Proof.
  intros Hv. unfold Text.getOrCreateClassIdByName, getOrCreateClassIdByName.
  destruct (negb (Str.nonempty name)); [reflexivity|]. cbv zeta.
  change ("LOWER({Name}) = LOWER(" +:+ dq
          +:+ escapeForAirtableFormulaDoubleQuotes name +:+ dq +:+ ")")
    with (formula_text (LowerEq "Name" name)).
  rewrite (airtableFindOne_text _ (LowerEq "Name" name)); [reflexivity|].
  split; [reflexivity | exact Hv].
Qed.

Lemma resolveClass_text (classOfBusiness : option string) (submitterEmail : string) :
  plain_field (APPLICANTS_EMAIL_FIELD env) -> plain_value submitterEmail ->
  Text.resolveClass env classOfBusiness submitterEmail
  = resolveClass env classOfBusiness submitterEmail.
Proof.
  intros Hf Hv. unfold Text.resolveClass, resolveClass. cbv zeta.
  destruct (_ && _); [|reflexivity].
  change ("LOWER({" +:+ APPLICANTS_EMAIL_FIELD env +:+ "}) = LOWER(" +:+ dq
          +:+ escapeForAirtableFormulaDoubleQuotes submitterEmail +:+ dq +:+ ")")
    with (formula_text (LowerEq (APPLICANTS_EMAIL_FIELD env) submitterEmail)).
  rewrite (airtableFindOne_text _ (LowerEq (APPLICANTS_EMAIL_FIELD env) submitterEmail));
    [reflexivity|].
  split; assumption.
Qed.

Lemma resolveLinkedClass_text (c : string) :
  (class_lookup_needed c = true -> plain_value c) ->
  Text.resolveLinkedClass env c = resolveLinkedClass env c.
Proof.
  intros H. unfold Text.resolveLinkedClass, resolveLinkedClass, class_lookup_needed in *.
  destruct (Str.nonempty c); [|reflexivity].
  destruct (is_record_id c); [reflexivity|].
  rewrite (getOrCreate_text c (H eq_refl)). reflexivity.
Qed.

Lemma upsertByEmail_text (email : string) (moreInfo : option string)
    (link : list string) (url fn : string) :
  plain_field (EMAIL_F env) -> plain_value email ->
  Text.upsertByEmail env email moreInfo link url fn
  = upsertByEmail env email moreInfo link url fn.
Proof.
  intros Hf Hv. unfold Text.upsertByEmail, upsertByEmail.
  rewrite (findSubmissionByEmail_text _ _ _ Hf Hv). reflexivity.
Qed.

Lemma reconcile_text (email c : string) (moreInfo : option string) (url fn : string)
    (st : State) :
  plain_field (EMAIL_F env) -> plain_value email ->
  (class_lookup_needed c = true -> plain_value c) ->
  Text.reconcile env email c moreInfo url fn st = reconcile env email c moreInfo url fn st.
Proof.
  intros Hf Hv Hc. unfold Text.reconcile, reconcile.
  rewrite (resolveLinkedClass_text c Hc). unfold bind.
  destruct (resolveLinkedClass env c st) as [[[[link rid] name]|e] st1]; [|reflexivity].
  rewrite (upsertByEmail_text email moreInfo link url fn Hf Hv). reflexivity.
Qed.

Lemma reconcile_all_text (subs : list Submission) (st : State) :
  plain_field (EMAIL_F env) -> Forall plain_submission subs ->
  Text.reconcile_all env subs st = reconcile_all env subs st.
Proof.
  intros Hf Hall. revert st. induction Hall as [|s rest [Hv Hc] _ IH]; intros st.
  - reflexivity.
  - cbn [Text.reconcile_all reconcile_all]. unfold Text.reconcile_one, reconcile_one.
    rewrite (reconcile_text _ _ _ _ _ st Hf Hv (fun _ => Hc)). apply IH.
Qed.

End Agreement.

(** ** Classification resolver *)

(** C6 (amended).  An explicit classification that is non-empty after
    trimming is returned trimmed, without consulting the directory.  With
    no explicit classification, and an identity that holds no backslash,
    the applicants table is searched for the first row whose email cell
    equals the identity up to letter case, and that row's classification is
    returned trimmed; with no such row the result is the empty string and
    nothing is thrown.  With no applicants table configured the result is
    the empty string as well. *)
Theorem C6_resolveClass (env : ProcessEnv) (classOfBusiness : option string)
    (submitterEmail : string) (st : State) :
  let explicit := Str.trim (or_else classOfBusiness "") in
  (Str.nonempty explicit = true ->
     Text.resolveClass env classOfBusiness submitterEmail st = (Ok explicit, st)) /\
  (Str.nonempty explicit = false ->
     plain_field (APPLICANTS_EMAIL_FIELD env) ->
     plain_value submitterEmail ->
     forall tbl rows,
       AIRTABLE_APPLICANTS_TABLE_ID env = Some tbl ->
       Str.nonempty tbl = true ->
       base st !! tbl = Some rows ->
       (forall r,
          List.find (matches_ci (APPLICANTS_EMAIL_FIELD env) submitterEmail) rows = Some r ->
          fst (Text.resolveClass env classOfBusiness submitterEmail st)
          = Ok (directory_class env r)) /\
       ((forall r, In r rows ->
           Str.LOWER (cell_text (get r (APPLICANTS_EMAIL_FIELD env)))
           <> Str.LOWER submitterEmail) ->
        fst (Text.resolveClass env classOfBusiness submitterEmail st) = Ok "")) /\
  (Str.nonempty explicit = false ->
     truthy (AIRTABLE_APPLICANTS_TABLE_ID env) = false ->
     Text.resolveClass env classOfBusiness submitterEmail st = (Ok "", st)).
Proof.
  intros explicit.
  destruct (resolveClass_cases env classOfBusiness submitterEmail st) as (_ & H2 & _).
  fold explicit in H2.
  split; [|split].
  - intros He. unfold Text.resolveClass. fold explicit. rewrite He. reflexivity.
  - intros He Hf Hv. rewrite (resolveClass_text env _ _ Hf Hv). exact (H2 He).
  - intros He Hn. unfold Text.resolveClass. fold explicit. rewrite He, Hn. simpl.
    destruct explicit; [reflexivity | discriminate].
Qed.

(** C6 as written fails in two places.  An explicit value with surrounding
    white space comes back trimmed, not as it was sent.  And an identity
    that ends in a backslash, with no explicit classification and no
    directory entry, gives a formula the store cannot read: the resolution
    throws. *)
Lemma C6_trimmed_value_and_unreadable_identity :
  (Str.nonempty (Str.trim " Marine ") = true /\
   fst (Text.resolveClass Demo.env (Some " Marine ") "a@x.com" (Demo.st0 Demo.submissions))
   = Ok "Marine" /\
   "Marine" <> " Marine ") /\
  (List.find (matches_ci "Email" BackslashCase.address) Demo.applicants = None /\
   fst BackslashCase.resolved = Throw (Err "INVALID_FILTER_BY_FORMULA")).
Proof. vm_compute. repeat split; try reflexivity. discriminate. Qed.

Lemma C6_resolveClass_witness :
  fst (Text.resolveClass Demo.env None "B@X.COM" (Demo.st0 Demo.submissions)) = Ok "Fire"
  /\ fst (Text.resolveClass Demo.env None "nobody@x.com" (Demo.st0 Demo.submissions)) = Ok ""
  /\ fst (Text.resolveClass Demo.env (Some "Marine") "b@x.com" (Demo.st0 Demo.submissions))
     = Ok "Marine".
Proof.
  pose proof (C6_resolveClass Demo.env None "B@X.COM" (Demo.st0 Demo.submissions))
    as (_ & H1 & _).
  pose proof (C6_resolveClass Demo.env None "nobody@x.com" (Demo.st0 Demo.submissions))
    as (_ & H2 & _).
  pose proof (C6_resolveClass Demo.env (Some "Marine") "b@x.com" (Demo.st0 Demo.submissions))
    as (H3 & _).
  split; [|split].
  - destruct (H1 eq_refl eq_refl eq_refl "tblApplicants" Demo.applicants
                eq_refl eq_refl eq_refl) as [Hfound _].
    exact (Hfound _ eq_refl).
  - destruct (H2 eq_refl eq_refl eq_refl "tblApplicants" Demo.applicants
                eq_refl eq_refl eq_refl) as [_ Hnone].
    apply Hnone. intros r [<-|[]]. vm_compute. discriminate.
  - rewrite (H3 eq_refl). reflexivity.
Defined.

(** A classification of white space only counts as none, whatever the
    white space is: the directory is consulted. *)
Example blank_classification_consults_directory :
  Str.trim BlankClassCase.typed = "" /\
  Str.trim (BlankClassCase.nbsp +:+ "Marine" +:+ BlankClassCase.bom) = "Marine" /\
  fst BlankClassCase.resolved = Ok "Fire" /\
  trace (snd BlankClassCase.resolved) = [StoreRead "tblApplicants"].
Proof. vm_compute. repeat split. Qed.

(** X4.  Whatever its source (the form field or the applicants table), the
    effective classification that [// resolve class] returns carries no
    white space at either end: trimming it again changes nothing. *)
Theorem resolveClass_result_is_trimmed (env : ProcessEnv)
    (classOfBusiness : option string) (submitterEmail : string) (st : State)
    (c : string) :
  fst (Text.resolveClass env classOfBusiness submitterEmail st) = Ok c ->
  Str.trim c = c.
Proof.
  unfold Text.resolveClass.
  destruct (negb (Str.nonempty (Str.trim (or_else classOfBusiness "")))
            && truthy (AIRTABLE_APPLICANTS_TABLE_ID env)).
  - unfold bind, Text.airtableFindOne, bind, Text.select.
    destruct (parse_formula _) as [f|]; [|discriminate].
    unfold select.
    destruct (base st !! or_else (AIRTABLE_APPLICANTS_TABLE_ID env) ""); simpl;
      [|discriminate].
    destruct (head _) as [r|]; simpl.
    + destruct (value_truthy (get r (APPLICANTS_CLASS_FIELD env))); simpl;
        intros [= <-]; apply trim_idem.
    + intros [= <-]. apply trim_idem.
  - simpl. intros [= <-]. apply trim_idem.
Qed.

Lemma resolveClass_result_is_trimmed_witness : Str.trim "Fire" = "Fire".
Proof.
  apply (resolveClass_result_is_trimmed Demo.env None "b@x.com"
           (Demo.st0 Demo.submissions) "Fire").
  vm_compute. reflexivity.
Defined.

(** ** Lookups *)

(** X5.  For an address without backslash, [findSubmissionByEmail] returns
    the first row, in table order, whose cell equals the address up to
    letter case (the whole text, not a part of it), and nothing when no row
    does; it reads the table once and changes nothing; on a table the base
    does not hold it throws.  For an address that ends in a backslash (and
    holds no other backslash and no quote) the store cannot read the
    formula: the lookup throws and nothing is read. *)
Theorem findSubmissionByEmail_first_match (tableId emailField email : string)
    (st : State) :
  plain_field emailField ->
  plain_value email ->
  (forall rows, base st !! tableId = Some rows ->
     exists found,
       Text.findSubmissionByEmail tableId emailField email st
       = (Ok found, with_base st (base st) (next_id st) (StoreRead tableId)) /\
       match found with
       | Some r =>
           exists pre post,
             rows = pre ++ r :: post /\
             Str.LOWER (cell_text (get r emailField)) = Str.LOWER email /\
             (forall y, In y pre ->
                Str.LOWER (cell_text (get y emailField)) <> Str.LOWER email)
       | None =>
           forall y, In y rows ->
             Str.LOWER (cell_text (get y emailField)) <> Str.LOWER email
       end) /\
  (base st !! tableId = None ->
   Text.findSubmissionByEmail tableId emailField email st = (Throw (Err "NOT_FOUND"), st)) /\
  (count_char quote_char email = 0 ->
   Text.findSubmissionByEmail tableId emailField (email +:+ bs) st
   = (Throw (Err "INVALID_FILTER_BY_FORMULA"), st)).
Proof.
  intros Hf Hv.
  destruct (findSubmissionByEmail_cases tableId emailField email st) as [H1 H2].
  rewrite (findSubmissionByEmail_text tableId emailField email Hf Hv).
  split; [exact H1|]. split; [exact H2|].
  intros Hq. unfold Text.findSubmissionByEmail, Text.airtableFindOne, bind. cbv zeta.
  rewrite (proj1 (escape_quote_free _) (count_quote_app_bs _ Hq)).
  rewrite lower_eq_text_open, select_unreadable; [reflexivity|].
  unfold parse_formula.
  assert (parse_lower_eq
            ("LOWER({" +:+ (emailField +:+ String "}" (") = LOWER(" +:+ String quote_char
               (email +:+ String backslash_char (String quote_char ")")))))
          = None) as ->.
  { unfold parse_lower_eq.
    rewrite strip_prefix_app, (read_field_app _ _ Hf), strip_prefix_app.
    unfold read_literal. rewrite Ascii.eqb_refl.
    rewrite (read_literal_body_open email Hv Hq ")" eq_refl). reflexivity. }
  reflexivity.
Qed.

Lemma findSubmissionByEmail_first_match_witness :
  (exists found,
     Text.findSubmissionByEmail "Submissions" "Email" "A@X.COM" (Demo.st0 Demo.submissions)
     = (Ok found,
        with_base (Demo.st0 Demo.submissions) (base (Demo.st0 Demo.submissions)) 0
          (StoreRead "Submissions"))) /\
  Text.findSubmissionByEmail "Submissions" "Email" ("A@X.COM" +:+ bs)
    (Demo.st0 Demo.submissions)
  = (Throw (Err "INVALID_FILTER_BY_FORMULA"), Demo.st0 Demo.submissions).
Proof.
  destruct (findSubmissionByEmail_first_match "Submissions" "Email" "A@X.COM"
              (Demo.st0 Demo.submissions) eq_refl eq_refl) as (Hread & _ & Hbad).
  split.
  - destruct (Hread Demo.submissions eq_refl) as (found & Hrun & _).
    exists found. exact Hrun.
  - exact (Hbad eq_refl).
Defined.

(** X6.  For names without backslash, [getOrCreateClassIdByName] is
    idempotent up to letter case: a second call with a name that differs
    at most in case returns the id the first call returned and writes
    nothing, whether the first call found the class or created it. *)
Theorem getOrCreate_twice_same_id (env : ProcessEnv) (name name' : string)
    (st : State) (rows : list ATRecord) :
  plain_value name ->
  plain_value name' ->
  Str.nonempty name = true ->
  Str.nonempty name' = true ->
  Str.LOWER name = Str.LOWER name' ->
  base st !! CLASS_TABLE_ID env = Some rows ->
  exists id st1 st2,
    Text.getOrCreateClassIdByName env name st = (Ok (Some id), st1) /\
    Text.getOrCreateClassIdByName env name' st1 = (Ok (Some id), st2) /\
    base st2 = base st1 /\
    write_log (trace st2) = write_log (trace st1).
Proof.
  intros Hv Hv' Hn Hn' Hsame Hrows.
  rewrite (getOrCreate_text env name Hv), (getOrCreate_text env name' Hv').
  apply (getOrCreate_twice env name name' st rows Hn Hn' Hsame Hrows).
Qed.

Lemma getOrCreate_twice_same_id_witness :
  exists id st1 st2,
    Text.getOrCreateClassIdByName Demo.env "Marine" (Demo.st0 [])
    = (Ok (Some id), st1) /\
    Text.getOrCreateClassIdByName Demo.env "MARINE" st1 = (Ok (Some id), st2) /\
    base st2 = base st1 /\
    write_log (trace st2) = write_log (trace st1).
Proof.
  apply (getOrCreate_twice_same_id Demo.env "Marine" "MARINE" (Demo.st0 [])
           Demo.classes); reflexivity.
Defined.

(** ** Category resolution *)




(** ** Submission reconciler *)

(** C9 (amended).  Where the submissions table is not the class table, a
    reconciliation that can read its tables, for an identity and a
    classification text without backslash, completes and writes the
    submissions table exactly once (one create or one update).  It writes
    the store a second time, creating a class row, exactly when the
    classification is a non-empty text that is not an id and matches no
    class name. *)
Theorem C9_reconcile_writes (env : ProcessEnv) (email c : string)
    (moreInfo : option string) (url fn : string) (st : State) :
  AIRTABLE_APPS_TABLE env <> CLASS_TABLE_ID env ->
  is_Some (base st !! AIRTABLE_APPS_TABLE env) ->
  (class_lookup_needed c = true -> is_Some (base st !! CLASS_TABLE_ID env)) ->
  plain_field (EMAIL_F env) ->
  plain_value email ->
  (class_lookup_needed c = true -> plain_value c) ->
  exists res st',
    Text.reconcile env email c moreInfo url fn st = (Ok res, st') /\
    writes_on (AIRTABLE_APPS_TABLE env) (trace st')
    = 1 + writes_on (AIRTABLE_APPS_TABLE env) (trace st) /\
    writes (trace st')
    = (if creates_class env c st then 2 else 1) + writes (trace st).
Proof.
  intros Htab Hrows Hcls Hf Hv Hc.
  rewrite (reconcile_text env email c moreInfo url fn st Hf Hv Hc).
  apply (reconcile_write_count env email c moreInfo url fn st Htab Hrows Hcls).
Qed.

(** C9 as written fails in two places.  On a classification the class
    table does not hold yet the reconciliation creates the class row and
    then the submission row, two writes.  And for an identity that ends in
    a backslash the store cannot read the lookup formula: the
    reconciliation throws and has written nothing. *)
Lemma C9_new_class_is_a_second_write :
  (completed (fst NewClassCase.run) = true /\
   writes (trace NewClassCase.st) = 0 /\
   writes (trace (snd NewClassCase.run)) = 2 /\
   writes_on "tblQ2rxDjTA1yMtxQ" (trace (snd NewClassCase.run)) = 1 /\
   writes_on "Submissions" (trace (snd NewClassCase.run)) = 1) /\
  (completed (fst BackslashCase.first) = false /\
   writes (trace BackslashCase.st) = 0 /\
   writes (trace (snd BackslashCase.first)) = 0).
Proof. vm_compute. repeat split. Qed.

Lemma C9_reconcile_writes_witness :
  exists res st',
    Text.reconcile Demo.env "new@x.com" "Marine" None "https://files/report.pdf"
      "report.pdf" (Demo.st0 Demo.submissions) = (Ok res, st') /\
    writes_on "Submissions" (trace st') = 1 /\
    writes (trace st') = 2.
Proof.
  apply (C9_reconcile_writes Demo.env "new@x.com" "Marine" None
           "https://files/report.pdf" "report.pdf" (Demo.st0 Demo.submissions)).
  - vm_compute. discriminate.
  - exists Demo.submissions. reflexivity.
  - intros _. exists Demo.classes. reflexivity.
  - reflexivity.
  - reflexivity.
  - intros _. reflexivity.
Defined.




(** C5 (amended).  For identities and classification texts without
    backslash: over any sequence of reconciliations every row of the
    submissions table stays at its place with its id and with its identity
    up to letter case, and rows are only added at the end; and a
    reconciliation that finds a row for the identity leaves in that row's
    identity cell the spelling the submitter typed. *)
Theorem C5_identity_kept_up_to_case (env : ProcessEnv) (st : State)
    (rows : list ATRecord) :
  distinct_fields env ->
  AIRTABLE_APPS_TABLE env <> CLASS_TABLE_ID env ->
  base st !! AIRTABLE_APPS_TABLE env = Some rows ->
  is_Some (base st !! CLASS_TABLE_ID env) ->
  NoDup (map rec_id rows) ->
  fresh_ids (next_id st) rows ->
  plain_field (EMAIL_F env) ->
  (forall subs, Forall plain_submission subs ->
     exists rows' added,
       base (Text.reconcile_all env subs st) !! AIRTABLE_APPS_TABLE env = Some rows' /\
       map (identity_key env) rows' = map (identity_key env) rows ++ added) /\
  (forall s ex, plain_submission s ->
     List.find (matches_ci (EMAIL_F env) (sub_email s)) rows = Some ex ->
     exists rows' r,
       base (Text.reconcile_one env s st) !! AIRTABLE_APPS_TABLE env = Some rows' /\
       In r rows' /\
       rec_id r = rec_id ex /\
       get r (EMAIL_F env) = Some (VStr (sub_email s))).
Proof.
  intros Hd Htab Hrows Hcls Hnd Hfresh Hf. split.
  - intros subs Hall. rewrite (reconcile_all_text env subs st Hf Hall).
    apply (reconcile_all_identity env subs st rows Hd Htab Hrows Hcls Hnd Hfresh).
  - intros s ex [Hv Hc] Hex. unfold Text.reconcile_one.
    rewrite (reconcile_text env _ _ _ _ _ st Hf Hv (fun _ => Hc)).
    destruct (reconcile_step env Hd Htab (sub_email s) (sub_class s) (sub_notes s)
                (sub_url s) (sub_filename s) st rows Hrows Hcls Hnd Hfresh)
      as (rid & name & st1 & rows1 & r1 & added1
          & Hrun & Hb1 & _ & _ & _ & Hfind & Hid & _ & He & _).
    rewrite Hrun. exists rows1, r1. cbn [snd].
    split; [exact Hb1|]. split; [exact (proj1 (find_some _ _ Hfind))|].
    split; [exact (Hid ex Hex) | exact He].
Qed.

(** C5 as written fails: the merge found the row although the letter case
    differs, and it stored the new spelling in the identity cell. *)
Lemma C5_merge_rewrites_identity :
  completed (fst CaseChangeCase.run) = true /\
  CaseChangeCase.identity_cells CaseChangeCase.st = [Some (VStr "a@x.com")] /\
  CaseChangeCase.identity_cells (snd CaseChangeCase.run) = [Some (VStr "A@X.COM")] /\
  VStr "A@X.COM" <> VStr "a@x.com".
Proof. vm_compute. repeat split. discriminate. Qed.

Lemma C5_identity_kept_up_to_case_witness :
  (exists rows' added,
     base (Text.reconcile_all Demo.env
             [ {| sub_email := "A@X.COM"; sub_class := "Marine"; sub_notes := None;
                  sub_url := "https://files/1.pdf"; sub_filename := "1.pdf" |};
               {| sub_email := "c@x.com"; sub_class := ""; sub_notes := Some "more";
                  sub_url := "https://files/2.pdf"; sub_filename := "2.pdf" |} ]
             Demo.st1) !! "Submissions" = Some rows' /\
     map (identity_key Demo.env) rows' = [(mkid 0, "a@x.com")] ++ added) /\
  (exists rows' r,
     base (Text.reconcile_one Demo.env
             {| sub_email := "A@X.COM"; sub_class := "Marine"; sub_notes := None;
                sub_url := "https://files/1.pdf"; sub_filename := "1.pdf" |}
             Demo.st1) !! "Submissions" = Some rows' /\
     In r rows' /\
     rec_id r = mkid 0 /\
     get r "Email" = Some (VStr "A@X.COM")).
Proof.
  destruct (C5_identity_kept_up_to_case Demo.env Demo.st1 Demo.numbered) as [Hall Hone].
  - apply distinct_fields_demo.
  - vm_compute. discriminate.
  - reflexivity.
  - exists Demo.classes. reflexivity.
  - apply NoDup_numbered.
  - apply fresh_ids_numbered.
  - reflexivity.
  - split.
    + apply Hall. repeat constructor.
    + exact (Hone {| sub_email := "A@X.COM"; sub_class := "Marine"; sub_notes := None;
                     sub_url := "https://files/1.pdf"; sub_filename := "1.pdf" |}
               (hd (Demo.row "" []) Demo.numbered) (conj eq_refl eq_refl) eq_refl).
Defined.

(** ** Recipients *)

(** What a lookup by text returns are rows of the table it was asked
    about; the store is left as it was. *)
Lemma airtableFindAll_rows (t text : string) (st st1 : State) (l : list ATRecord) :
  Text.airtableFindAll t text st = (Ok l, st1) ->
  base st1 = base st /\
  exists rows, base st !! t = Some rows /\ incl l rows.
Proof.
  unfold Text.airtableFindAll, Text.select.
  destruct (parse_formula text) as [f|]; [|discriminate].
  unfold select. destruct (base st !! t) as [rows|]; [|discriminate].
  intros [= <- <-]. split; [reflexivity|]. exists rows. split; [reflexivity|].
  intros r Hr. apply filter_In in Hr. apply Hr.
Qed.

Section KeepsText.

Variable p : Event -> bool.
Hypothesis Hread : forall t, p (StoreRead t) = false.

Lemma keeps_select_text (t text : string) : keeps p (Text.select t text).
Proof.
  unfold Text.select. destruct (parse_formula text); [apply keeps_select, Hread|].
  apply keeps_throw.
Qed.

Lemma keeps_underwriterMatch_text (env : ProcessEnv) (rid : option string)
    (name : string) : keeps p (Text.underwriterMatch env rid name).
Proof.
  unfold Text.underwriterMatch. destruct (_ && _); [|apply keeps_ret].
  apply keeps_bind.
  - destruct (truthy rid); [apply keeps_select_text | apply keeps_ret].
  - intros byLink. apply keeps_bind; [|intros; apply keeps_ret].
    destruct byLink; [|apply keeps_ret].
    destruct (Str.nonempty name); [apply keeps_select_text | apply keeps_ret].
Qed.

End KeepsText.

(** The list the match returns is built from rows of the underwriters
    table. *)
Lemma underwriterMatch_shape (env : ProcessEnv) (classRecordId : option string)
    (classDisplayName : string) (st st' : State) (matched : list string) :
  Text.underwriterMatch env classRecordId classDisplayName st = (Ok matched, st') ->
  exists uw,
    matched = recipients_of env uw /\
    forall rows,
      base st !! or_else (AIRTABLE_UNDERWRITERS_TABLE_ID env) "" = Some rows ->
      incl uw rows.
Proof.
  unfold Text.underwriterMatch, recipients_of.
  destruct (_ && _); [|intros [= <- _]; exists []; split; [reflexivity | intros ? _ ? []]].
  unfold bind. destruct (truthy classRecordId).
  - match goal with |- context [Text.airtableFindAll ?a ?b ?s] =>
      destruct (Text.airtableFindAll a b s) as [[byLink|e] s1] eqn:E1 end;
      [|discriminate].
    destruct (airtableFindAll_rows _ _ _ _ _ E1) as (Hb1 & rows1 & Hr1 & Hi1).
    destruct byLink as [|r0 rest].
    + destruct (Str.nonempty classDisplayName).
      * match goal with |- context [Text.airtableFindAll ?a ?b ?s] =>
          destruct (Text.airtableFindAll a b s) as [[uw|e] s2] eqn:E2 end;
          [|discriminate].
        destruct (airtableFindAll_rows _ _ _ _ _ E2) as (_ & rows2 & Hr2 & Hi2).
        intros [= <- _]. exists uw. split; [reflexivity|].
        intros rows Hrows. rewrite Hb1, Hrows in Hr2. injection Hr2 as <-. exact Hi2.
      * intros [= <- _]. exists []. split; [reflexivity | intros ? _ ? []].
    + intros [= <- _]. exists (r0 :: rest). split; [reflexivity|].
      intros rows Hrows. rewrite Hrows in Hr1. injection Hr1 as <-. exact Hi1.
  - unfold ret at 1. cbv beta iota.
    destruct (Str.nonempty classDisplayName).
    + match goal with |- context [Text.airtableFindAll ?a ?b ?s] =>
        destruct (Text.airtableFindAll a b s) as [[uw|e] s2] eqn:E2 end;
        [|discriminate].
      destruct (airtableFindAll_rows _ _ _ _ _ E2) as (_ & rows2 & Hr2 & Hi2).
      intros [= <- _]. exists uw. split; [reflexivity|].
      intros rows Hrows. rewrite Hrows in Hr2. injection Hr2 as <-. exact Hi2.
    + intros [= <- _]. exists []. split; [reflexivity | intros ? _ ? []].
Qed.

(** X10.  Whenever the underwriter match returns, its list holds no entry
    twice, no empty entry and only entries without white space at either
    end; every entry is the trimmed form of an element of an array cell,
    taken whole, or of a comma-separated piece of a text cell, of a row of
    the underwriters table; and the match has written nothing to the
    store.  (An array element that itself holds a comma list stays one
    entry.) *)
Theorem underwriterMatch_list_is_clean (env : ProcessEnv)
    (classRecordId : option string) (classDisplayName : string)
    (st st' : State) (matched : list string) :
  Text.underwriterMatch env classRecordId classDisplayName st = (Ok matched, st') ->
  NoDup matched /\ Forall clean_address matched /\
  (forall rows,
     base st !! or_else (AIRTABLE_UNDERWRITERS_TABLE_ID env) "" = Some rows ->
     forall a, In a matched ->
       exists r e, In r rows /\ In e (recipientCell env r) /\ a = Str.trim e) /\
  write_log (trace st') = write_log (trace st).
Proof.
  intros Hrun.
  assert (write_log (trace st') = write_log (trace st)) as Hw.
  { pose proof (keeps_underwriterMatch_text is_write (fun _ => eq_refl) env
                  classRecordId classDisplayName st) as H.
    rewrite Hrun in H. exact H. }
  destruct (underwriterMatch_shape _ _ _ _ _ _ Hrun) as (uw & -> & Hin).
  destruct (normalized_recipients_clean (flat_map (recipientCell env) uw))
    as (Hnd & Hclean & Hmem).
  split; [exact Hnd|]. split; [exact Hclean|]. split; [|exact Hw].
  intros rows Hrows a Ha. apply Hmem in Ha as [_ Ha].
  apply in_map_iff in Ha as (e & <- & He).
  apply in_flat_map in He as (r & Hr & He).
  exists r, e. split; [exact (Hin rows Hrows r Hr)|]. split; [exact He | reflexivity].
Qed.

Lemma underwriterMatch_list_is_clean_witness :
  NoDup ["u1@ins.com"; "u2@ins.com,u3@ins.com"; "u4@ins.com"] /\
  Forall clean_address ["u1@ins.com"; "u2@ins.com,u3@ins.com"; "u4@ins.com"] /\
  (forall rows,
     base (Demo.st0 []) !! "tblUnderwriters" = Some rows ->
     forall a, In a ["u1@ins.com"; "u2@ins.com,u3@ins.com"; "u4@ins.com"] ->
       exists r e, In r rows /\ In e (recipientCell Demo.env r) /\ a = Str.trim e) /\
  write_log (trace (snd (Text.underwriterMatch Demo.env None "Fire" (Demo.st0 []))))
  = write_log (trace (Demo.st0 [])).
Proof.
  apply (underwriterMatch_list_is_clean Demo.env None "Fire" (Demo.st0 [])
           (snd (Text.underwriterMatch Demo.env None "Fire" (Demo.st0 [])))).
  vm_compute. reflexivity.
Defined.

(** ** The endpoint *)



